(** * A shallow embedding of the todo REST API (server.js over the Prisma schema)

    The request handlers of [server.js] are embedded as functions from a store
    state and a request to a new store state and an HTTP response.  The store
    follows [prisma/schema.prisma] and the SQL migration: one list of rows per
    table, the implicit many-to-many table [_TodoDependencies] as a list of
    edges, and the serial counters of the auto-increment columns.

    Modelling conventions.
    - Values that arrive in a JSON body are scalars of type [json]; a field
      that is absent from the body ([undefined] in the handler) is [None].
    - [parseInt] returns [None] for NaN.  A NaN reaches the query layer as
      [null]: written to a nullable column ([categoryId], [userId]) it clears
      the column, and as a filter on such a column it selects the rows whose
      column is null.  Where the query layer needs a value (the id of
      [findUnique], [connect] and [in], [tagId], [skip], [take]) it throws,
      and the handler's [catch] answers 500.
    - A handler body runs in the [outcome] monad while it only reads the
      store: [Ok] continues, [Reply] is an early [return res.status(..)],
      [Throw] is an exception.  A [prisma.$transaction] callback runs in the
      [Tx] monad: [Failed] is an exception, which rolls the transaction back.
      The rollback restores the rows; the serial counters are sequences of
      the store and keep the values that were drawn.
    - [updatedAt] of a todo is refreshed by an update that writes a scalar
      field, not by one that only connects or disconnects relations.
    - [contains] with [mode: 'insensitive'] is the store's [ILIKE] on the
      search term between two [%], the term itself unescaped; letters are
      compared as ASCII.
    - A query without [orderBy] (the tags and dependencies of a response, the
      related lists of the detail view) returns its rows in an order the
      store does not promise, and so does an [orderBy] among rows of equal
      [createdAt].  The model lists them in storage order; the statements
      about such lists are about their members, or assume that creation
      times differ.
    - Statistics that the handlers format as floating point text
      ([toFixed(2)], [totalPages], ages in days), the aggregates by priority
      and by category, [recentlyUpdated], [mostUsedTags] and the nested note,
      history and attachment arrays of a response are not part of the
      response model; they never influence control flow or the store.
    - Ids are unbounded integers; time is a number [now] handed to the
      handler, one instant per request. *)

From Stdlib Require Import ZArith String Ascii List Bool Lia Sorted.
Import ListNotations.
Local Open Scope string_scope.
Local Open Scope Z_scope.

(** ** JavaScript values and coercions *)

Inductive json : Type :=
| JNull
| JBool (b : bool)
| JNum (z : Z)
| JStr (s : string).

(** [if (v)] on a value taken from the request. *)
Definition truthy (v : json) : bool :=
  match v with
  | JNull => false
  | JBool b => b
  | JNum z => negb (z =? 0)
  | JStr s => negb (s =? "")%string
  end.

Definition truthy_opt (v : option json) : bool :=
  match v with Some x => truthy x | None => false end.

(** [a === b] on scalars. *)
Definition strict_eq (a b : json) : bool :=
  match a, b with
  | JNull, JNull => true
  | JBool x, JBool y => Bool.eqb x y
  | JNum x, JNum y => x =? y
  | JStr x, JStr y => (x =? y)%string
  | _, _ => false
  end.

Definition is_ws (c : ascii) : bool :=
  let n := Z.of_nat (nat_of_ascii c) in
  ((9 <=? n) && (n <=? 13)) || (n =? 32).

Fixpoint trim_ws (s : string) : string :=
  match s with
  | String c r => if is_ws c then trim_ws r else s
  | EmptyString => s
  end.

Definition digit_val (radix : Z) (c : ascii) : option Z :=
  let n := Z.of_nat (nat_of_ascii c) in
  let v :=
    if (48 <=? n) && (n <=? 57) then n - 48
    else if (97 <=? n) && (n <=? 122) then n - 87
    else if (65 <=? n) && (n <=? 90) then n - 55
    else 36 in
  if v <? radix then Some v else None.

Fixpoint parse_digits (radix : Z) (s : string) (acc : option Z) : option Z :=
  match s with
  | EmptyString => acc
  | String c r =>
      match digit_val radix c with
      | Some d =>
          parse_digits radix r
            (Some (radix * (match acc with Some a => a | None => 0 end) + d))
      | None => acc
      end
  end.

(** [parseInt(s)] without a radix: leading white space, a sign, an optional
    [0x] prefix, then the longest run of digits; NaN when there is none. *)
Definition parseInt_string (s : string) : option Z :=
  let s1 := trim_ws s in
  let '(neg, s2) :=
    match s1 with
    | String "-" r => (true, r)
    | String "+" r => (false, r)
    | _ => (false, s1)
    end in
  let '(radix, s3) :=
    match s2 with
    | String "0" (String "x" r) => (16, r)
    | String "0" (String "X" r) => (16, r)
    | _ => (10, s2)
    end in
  option_map (fun n => if neg : bool then - n else n) (parse_digits radix s3 None).

(** [parseInt(v)] first converts [v] to a string.  An integral number prints
    as its decimal digits (for magnitudes below 1e21), [null] and the booleans
    print as words without a digit. *)
Definition parseInt (v : json) : option Z :=
  match v with
  | JNum z => Some z
  | JStr s => parseInt_string s
  | JNull | JBool _ => None
  end.

(** [xs.map(x => parseInt(x))], [None] as soon as one element is NaN. *)
Fixpoint parseInts (l : list json) : option (list Z) :=
  match l with
  | [] => Some []
  | x :: r =>
      match parseInt x, parseInts r with
      | Some z, Some zs => Some (z :: zs)
      | _, _ => None
      end
  end.

(** [ids.includes(z)] on an array of numbers. *)
Definition includes (ids : list Z) (z : Z) : bool := existsb (Z.eqb z) ids.

(** [arr.includes(id)] on an array of request values, [id] a number: same
    value and same type, so the string ["5"] is not the number [5]. *)
Definition includes_json (arr : list json) (id : Z) : bool :=
  existsb (fun v => strict_eq v (JNum id)) arr.

Definition lower (c : ascii) : ascii :=
  let n := nat_of_ascii c in
  if (Nat.leb 65 n && Nat.leb n 90)%bool then ascii_of_nat (n + 32) else c.



(** The pattern language of the store's [LIKE] and [ILIKE]: [%] stands for
    any run of characters, [_] for any one character, and a backslash makes
    the character after it literal. *)
Inductive like_token : Type :=
| any_run
| any_char
| literal (c : ascii).

Definition backslash : ascii := ascii_of_nat 92.

(** The tokens of a pattern; [None] for a pattern that ends in a lone
    backslash, which the store refuses. *)
Fixpoint like_pattern (s : string) : option (list like_token) :=
  match s with
  | EmptyString => Some []
  | String c r =>
      if Ascii.eqb c backslash then
        match r with
        | EmptyString => None
        | String c' r' => option_map (cons (literal c')) (like_pattern r')
        end
      else if Ascii.eqb c "%" then option_map (cons any_run) (like_pattern r)
      else if Ascii.eqb c "_" then option_map (cons any_char) (like_pattern r)
      else option_map (cons (literal c)) (like_pattern r)
  end.

(** [s ILIKE p]: the whole of [s] matches the pattern, letters compared
    without regard to case. *)
Fixpoint like_match (p : list like_token) : string -> bool :=
  match p with
  | [] => fun s => match s with EmptyString => true | _ => false end
  | any_run :: p' =>
      fix run (s : string) : bool :=
        like_match p' s
        || match s with EmptyString => false | String _ r => run r end
  | any_char :: p' =>
      fun s => match s with EmptyString => false | String _ r => like_match p' r end
  | literal c :: p' =>
      fun s => match s with
               | EmptyString => false
               | String d r => Ascii.eqb (lower c) (lower d) && like_match p' r
               end
  end.

(** [{ contains: sub, mode: 'insensitive' }]: the query layer sends
    [ILIKE '%sub%'] with [sub] as it came, so the pattern characters of [sub]
    keep their meaning.  The pattern ends in [%], or in an escaped [%] when
    [sub] ends in a backslash, so it never ends in a lone backslash. *)
Definition contains_insensitive (s sub : string) : bool :=
  match like_pattern ("%" ++ sub ++ "%") with
  | Some p => like_match p s
  | None => false
  end.

(** ** The data model ([prisma/schema.prisma]) *)

Inductive Priority : Type := LOW | MEDIUM | HIGH | URGENT.

Definition Priority_eqb (a b : Priority) : bool :=
  match a, b with
  | LOW, LOW | MEDIUM, MEDIUM | HIGH, HIGH | URGENT, URGENT => true
  | _, _ => false
  end.

Definition Priority_of_string (s : string) : option Priority :=
  if (s =? "LOW")%string then Some LOW
  else if (s =? "MEDIUM")%string then Some MEDIUM
  else if (s =? "HIGH")%string then Some HIGH
  else if (s =? "URGENT")%string then Some URGENT
  else None.

Definition Priority_to_string (p : Priority) : string :=
  match p with
  | LOW => "LOW" | MEDIUM => "MEDIUM" | HIGH => "HIGH" | URGENT => "URGENT"
  end.

Definition opt_eqb (a b : option Z) : bool :=
  match a, b with
  | Some x, Some y => x =? y
  | None, None => true
  | _, _ => false
  end.

Module Todo.
Record t : Type := mk {
  id : Z;
  title : string;
  description : option string;
  completed : bool;
  priority : Priority;
  createdAt : Z;
  updatedAt : Z;
  userId : option Z;
  categoryId : option Z
}.
End Todo.

Module User.
Record t : Type := mk { id : Z; name : string; email : string }.
End User.

Module Category.
Record t : Type := mk { id : Z; name : string; description : option string }.
End Category.

Module Tag.
Record t : Type := mk { id : Z; name : string }.
End Tag.

Module TagsOnTodos.
Record t : Type := mk { todoId : Z; tagId : Z; assignedAt : Z }.
End TagsOnTodos.

Module Note.
Record t : Type := mk { id : Z; content : string; todoId : Z; createdAt : Z }.
End Note.

Module TodoHistory.
Record t : Type := mk {
  id : Z; todoId : Z; action : string; description : string; createdAt : Z
}.
End TodoHistory.

Module Attachment.
Record t : Type := mk {
  id : Z; filename : string; filepath : string; mimeType : string; todoId : Z
}.
End Attachment.

(** The store.  An edge [(a, b)] of [todoDependencies] says that todo [a]
    has todo [b] among its [dependencies] (and [b] has [a] in its
    [dependencyOf]). *)
Record Db : Type := mkDb {
  todos : list Todo.t;
  users : list User.t;
  categories : list Category.t;
  tags : list Tag.t;
  tagsOnTodos : list TagsOnTodos.t;
  notes : list Note.t;
  todoHistory : list TodoHistory.t;
  attachments : list Attachment.t;
  todoDependencies : list (Z * Z);
  todos_id_seq : Z;
  notes_id_seq : Z;
  todo_history_id_seq : Z
}.

Definition with_todos (db : Db) (l : list Todo.t) (next : Z) : Db :=
  mkDb l (users db) (categories db) (tags db) (tagsOnTodos db) (notes db)
    (todoHistory db) (attachments db) (todoDependencies db)
    next (notes_id_seq db) (todo_history_id_seq db).

Definition with_tagsOnTodos (db : Db) (l : list TagsOnTodos.t) : Db :=
  mkDb (todos db) (users db) (categories db) (tags db) l (notes db)
    (todoHistory db) (attachments db) (todoDependencies db)
    (todos_id_seq db) (notes_id_seq db) (todo_history_id_seq db).

Definition with_notes (db : Db) (l : list Note.t) (next : Z) : Db :=
  mkDb (todos db) (users db) (categories db) (tags db) (tagsOnTodos db) l
    (todoHistory db) (attachments db) (todoDependencies db)
    (todos_id_seq db) next (todo_history_id_seq db).

Definition with_todoHistory (db : Db) (l : list TodoHistory.t) (next : Z) : Db :=
  mkDb (todos db) (users db) (categories db) (tags db) (tagsOnTodos db)
    (notes db) l (attachments db) (todoDependencies db)
    (todos_id_seq db) (notes_id_seq db) next.

Definition with_todoDependencies (db : Db) (l : list (Z * Z)) : Db :=
  mkDb (todos db) (users db) (categories db) (tags db) (tagsOnTodos db)
    (notes db) (todoHistory db) (attachments db) l
    (todos_id_seq db) (notes_id_seq db) (todo_history_id_seq db).

(** ** Reads of the query layer *)

(** [prisma.todo.findUnique({ where: { id } })] *)
Definition findUnique (db : Db) (id : Z) : option Todo.t :=
  find (fun t => Todo.id t =? id) (todos db).

Definition todo_exists (db : Db) (id : Z) : bool :=
  existsb (fun t => Todo.id t =? id) (todos db).

Definition category_exists (db : Db) (id : Z) : bool :=
  existsb (fun c => Category.id c =? id) (categories db).

Definition user_exists (db : Db) (id : Z) : bool :=
  existsb (fun u => User.id u =? id) (users db).

Definition tag_exists (db : Db) (id : Z) : bool :=
  existsb (fun g => Tag.id g =? id) (tags db).

(** [prisma.todo.count({ where })] *)
Definition todo_count (db : Db) (where_ : Todo.t -> bool) : Z :=
  Z.of_nat (length (filter where_ (todos db))).

(** [prisma.tag.count({ where: { id: { in: ids } } })] *)
Definition tag_count_in (db : Db) (ids : list Z) : Z :=
  Z.of_nat (length (filter (fun g => includes ids (Tag.id g)) (tags db))).

(** [prisma.todo.count({ where: { id: { in: ids } } })] *)
Definition todo_count_in (db : Db) (ids : list Z) : Z :=
  todo_count db (fun t => includes ids (Todo.id t)).

(** [prisma.note.count({ where: { id: { in: ids }, todoId } })] *)
Definition note_count_in (db : Db) (ids : list Z) (todoId : Z) : Z :=
  Z.of_nat (length (filter
    (fun n => includes ids (Note.id n) && (Note.todoId n =? todoId)) (notes db))).

Definition has_edge (db : Db) (a b : Z) : bool :=
  existsb (fun e => (fst e =? a) && (snd e =? b)) (todoDependencies db).

(** The [dependencies] relation field of todo [id]: the todos it depends on. *)
Definition dependencies_of (db : Db) (id : Z) : list Todo.t :=
  filter (fun t => has_edge db id (Todo.id t)) (todos db).

(** [prisma.todo.findMany({ where: { dependencies: { some: { id } } } })]:
    the todos that have [id] among their dependencies. *)
Definition todos_depending_on (db : Db) (id : Z) : list Todo.t :=
  filter (fun t => has_edge db (Todo.id t) id) (todos db).

(** The tag ids joined to a todo.  The queries that read them have no
    [orderBy]; the list is in storage order here, and what is stated about it
    is stated about its members. *)
Definition tagIds_of (db : Db) (todoId : Z) : list Z :=
  map TagsOnTodos.tagId
    (filter (fun r => TagsOnTodos.todoId r =? todoId) (tagsOnTodos db)).

(** ** Writes of the query layer, inside a transaction *)

(** The result of a statement of a [prisma.$transaction] callback: [Done]
    with its value and the store after it, or [Failed] for a thrown error (a
    constraint violation, a missing record, an ill-typed value) with the
    store as it was when the error was thrown. *)
Inductive TxResult (A : Type) : Type :=
| Done (r : A * Db)
| Failed (db : Db).
Arguments Done {A} r.
Arguments Failed {A} db.

Definition Tx (A : Type) : Type := Db -> TxResult A.

Definition tx_ret {A} (a : A) : Tx A := fun db => Done (a, db).

Definition tx_bind {A B} (m : Tx A) (k : A -> Tx B) : Tx B :=
  fun db => match m db with
            | Done (a, db') => k a db'
            | Failed d => Failed d
            end.

Definition tx_throw {A} : Tx A := fun db => Failed db.

Definition tx_lift {A} (o : option A) : Tx A :=
  fun db => match o with Some a => Done (a, db) | None => Failed db end.

(** The store after the rollback of a transaction that failed in the state
    [failed]: the rows are those of [db], the store before the transaction;
    the serial counters are sequences, and a value that an [INSERT] has drawn
    from a sequence stays drawn. *)
Definition rollback (db failed : Db) : Db :=
  mkDb (todos db) (users db) (categories db) (tags db) (tagsOnTodos db)
    (notes db) (todoHistory db) (attachments db) (todoDependencies db)
    (todos_id_seq failed) (notes_id_seq failed) (todo_history_id_seq failed).

Declare Scope tx_scope.
Delimit Scope tx_scope with tx.
Notation "x <- m ;; k" := (tx_bind m (fun x => k))
  (at level 61, m at next level, right associativity) : tx_scope.
Notation "m ;;; k" := (tx_bind m (fun _ => k))
  (at level 61, right associativity) : tx_scope.

(** [for (const x of xs) { await body(x) }] *)
Fixpoint tx_for {A} (xs : list A) (body : A -> Tx unit) : Tx unit :=
  match xs with
  | [] => tx_ret tt
  | x :: r => (body x ;;; tx_for r body)%tx
  end.

(** A nullable foreign key is satisfied by [null] or by an existing row. *)
Definition fk_ok (exists_ : Z -> bool) (ref : option Z) : bool :=
  match ref with Some z => exists_ z | None => true end.

(** Insertion of one row of [_TodoDependencies]; the primary key [(A, B)]
    makes connecting an existing pair a no-op. *)
Definition add_edge (edges : list (Z * Z)) (a b : Z) : list (Z * Z) :=
  if existsb (fun e => (fst e =? a) && (snd e =? b)) edges then edges
  else edges ++ [(a, b)].

(** [dependencies: { connect: ids.map(id => ({ id })) }] on todo [a]: every
    connected record has to exist. *)
Definition connect (a : Z) (ids : list Z) : Tx unit :=
  tx_for ids (fun b db =>
    if todo_exists db b
    then Done (tt, with_todoDependencies db (add_edge (todoDependencies db) a b))
    else Failed db).

(** [dependencies: { disconnect: ids.map(id => ({ id })) }] on todo [a]. *)
Definition disconnect (a : Z) (ids : list Z) : Tx unit :=
  fun db => Done (tt, with_todoDependencies db
    (filter (fun e => negb ((fst e =? a) && includes ids (snd e)))
       (todoDependencies db))).

(** The scalar part of [tx.todo.create({ data })]: the row takes the next
    serial id, [completed] takes the column default [false].  An [INSERT]
    that a foreign key refuses has drawn its id all the same. *)
Definition todo_create (now : Z) (title : string) (description : option string)
    (priority : Priority) (userId categoryId : option Z) : Tx Todo.t :=
  fun db =>
    if fk_ok (user_exists db) userId && fk_ok (category_exists db) categoryId
    then
      let t := Todo.mk (todos_id_seq db) title description false priority
                 now now userId categoryId in
      Done (t, with_todos db (todos db ++ [t]) (todos_id_seq db + 1))
    else Failed (with_todos db (todos db) (todos_id_seq db + 1)).

(** The [data] of [tx.todo.update]: a field that is [undefined] is [None]
    and is left alone.  A nullable column is written with a value or with
    [null]. *)
Record TodoUpdateInput : Type := mkInput {
  in_title : option string;
  in_description : option (option string);
  in_completed : option bool;
  in_priority : option Priority;
  in_categoryId : option (option Z);
  in_userId : option (option Z)
}.

Definition or_else {A} (o : option A) (d : A) : A :=
  match o with Some a => a | None => d end.

(** Some scalar field of [data] is set. *)
Definition has_field (d : TodoUpdateInput) : bool :=
  match in_title d, in_description d, in_completed d, in_priority d,
        in_categoryId d, in_userId d with
  | None, None, None, None, None, None => false
  | _, _, _, _, _, _ => true
  end.

(** The row after [tx.todo.update]: the fields of [data] that are set are
    written; [updatedAt] ([@updatedAt] of the schema) is refreshed when a
    scalar field is written, and left as it is by an update that only
    connects or disconnects relations or has no field at all. *)
Definition apply_update (now : Z) (d : TodoUpdateInput) (t : Todo.t) : Todo.t :=
  Todo.mk (Todo.id t)
    (or_else (in_title d) (Todo.title t))
    (or_else (in_description d) (Todo.description t))
    (or_else (in_completed d) (Todo.completed t))
    (or_else (in_priority d) (Todo.priority t))
    (Todo.createdAt t)
    (if has_field d then now else Todo.updatedAt t)
    (or_else (in_userId d) (Todo.userId t))
    (or_else (in_categoryId d) (Todo.categoryId t)).

(** [tx.todo.update({ where: { id }, data })]: the record has to exist and
    a reference that is written has to be [null] or a stored row. *)
Definition todo_update (now : Z) (id : Z) (d : TodoUpdateInput) : Tx Todo.t :=
  fun db =>
    match findUnique db id with
    | None => Failed db
    | Some t =>
        if fk_ok (user_exists db) (or_else (in_userId d) None)
           && fk_ok (category_exists db) (or_else (in_categoryId d) None)
        then
          Done (apply_update now d t,
                with_todos db
                  (map (fun x => if Todo.id x =? id then apply_update now d x else x)
                     (todos db))
                  (todos_id_seq db))
        else Failed db
    end.

(** [tx.tagsOnTodos.create]: the composite key [(todoId, tagId)] is unique
    and both columns are foreign keys. *)
Definition tagsOnTodos_create (now : Z) (todoId tagId : Z) : Tx unit :=
  fun db =>
    if todo_exists db todoId && tag_exists db tagId
       && negb (includes (tagIds_of db todoId) tagId)
    then Done (tt, with_tagsOnTodos db
                     (tagsOnTodos db ++ [TagsOnTodos.mk todoId tagId now]))
    else Failed db.

(** [tx.tagsOnTodos.deleteMany({ where: { todoId, tagId: { in: ids } } })] *)
Definition tagsOnTodos_deleteMany (todoId : Z) (ids : list Z) : Tx unit :=
  fun db => Done (tt, with_tagsOnTodos db
    (filter (fun r => negb ((TagsOnTodos.todoId r =? todoId)
                            && includes ids (TagsOnTodos.tagId r)))
       (tagsOnTodos db))).

(** [tx.note.create({ data: { todoId, content } })] *)
Definition note_create (now : Z) (todoId : Z) (content : string) : Tx unit :=
  fun db =>
    if todo_exists db todoId
    then Done (tt, with_notes db
                     (notes db ++ [Note.mk (notes_id_seq db) content todoId now])
                     (notes_id_seq db + 1))
    else Failed (with_notes db (notes db) (notes_id_seq db + 1)).

(** [tx.note.deleteMany({ where: { id: { in: ids } } })] *)
Definition note_deleteMany (ids : list Z) : Tx unit :=
  fun db => Done (tt, with_notes db
    (filter (fun n => negb (includes ids (Note.id n))) (notes db))
    (notes_id_seq db)).

(** [tx.todoHistory.create({ data: { todoId, action, description } })] *)
Definition todoHistory_create (now : Z) (todoId : Z) (action description : string)
    : Tx unit :=
  fun db =>
    if todo_exists db todoId
    then Done (tt, with_todoHistory db
                     (todoHistory db ++
                        [TodoHistory.mk (todo_history_id_seq db) todoId action
                           description now])
                     (todo_history_id_seq db + 1))
    else Failed (with_todoHistory db (todoHistory db) (todo_history_id_seq db + 1)).

(** [tx.todo.delete({ where: { id } })].  The foreign keys of tags_on_todos,
    notes, todo_history, attachments and of both columns of
    _TodoDependencies are declared ON DELETE CASCADE. *)
Definition todo_delete (id : Z) : Tx unit :=
  fun db =>
    if todo_exists db id then
      Done (tt, mkDb
        (filter (fun t => negb (Todo.id t =? id)) (todos db))
        (users db) (categories db) (tags db)
        (filter (fun r => negb (TagsOnTodos.todoId r =? id)) (tagsOnTodos db))
        (filter (fun n => negb (Note.todoId n =? id)) (notes db))
        (filter (fun h => negb (TodoHistory.todoId h =? id)) (todoHistory db))
        (filter (fun a => negb (Attachment.todoId a =? id)) (attachments db))
        (filter (fun e => negb (fst e =? id) && negb (snd e =? id))
           (todoDependencies db))
        (todos_id_seq db) (notes_id_seq db) (todo_history_id_seq db))
    else Failed db.

(** ** Requests and responses *)

(** The query string of [GET /api/todos]; every parameter is a string. *)
Module ListQuery.
Record t : Type := mk {
  page : option string;
  limit : option string;
  completed : option string;
  search : option string;
  priority : option string;
  category : option string;
  user : option string;
  tag : option string
}.
End ListQuery.

(** The body of [POST /api/todos].  An array field that is absent defaults
    to the empty array.  The handler does not read [completed]; the field is
    here so that a request can carry it. *)
Module CreateBody.
Record t : Type := mk {
  title : option json;
  description : option json;
  completed : option json;
  priority : option json;
  categoryId : option json;
  userId : option json;
  tagIds : list json;
  notes : list json;
  dependencies : list json
}.
End CreateBody.

(** The body of [PUT /api/todos/:id].  The handler treats an absent array
    and an empty array alike ([xs && xs.length > 0]). *)
Module UpdateBody.
Record t : Type := mk {
  title : option json;
  description : option json;
  completed : option json;
  priority : option json;
  categoryId : option json;
  userId : option json;
  tagIds : list json;
  notes : list json;
  dependencies : list json;
  removeTags : list json;
  removeNotes : list json;
  removeDependencies : list json
}.
End UpdateBody.

(** A todo as a response shows it: the row, the ids of its tags
    ([todo.tags.map(t => t.tag)]) and the ids of its [dependencies]. *)
Record TodoView : Type := mkView {
  view_todo : Todo.t;
  view_tags : list Z;
  view_dependencies : list Z
}.

Inductive Body : Type :=
| Error (error : string)
| TodoList (data : list TodoView)
    (pagination_total currentPage limit stats_total stats_completed : Z)
| Created (todo : TodoView) (userTodoCount categoryTodoCount totalTodoCount : Z)
| Updated (todo : TodoView) (changedFields : list string)
| Deleted (id : Z) (tags notes attachments history dependencies dependents : Z)
    (dependentTodos : list Z)
| Toggled (todo : Todo.t) (uncompletedDependencies : list Z)
    (dependentTodosCount : Z) (blockedTodos : list Z).

Record Response : Type := mkResponse { status : Z; body : Body }.

Definition view (db : Db) (t : Todo.t) : TodoView :=
  mkView t (tagIds_of db (Todo.id t)) (map Todo.id (dependencies_of db (Todo.id t))).

(** ** The read phase of a handler *)

Inductive outcome (A : Type) : Type :=
| Ok (a : A)
| Reply (r : Response)
| Throw.
Arguments Ok {A} a.
Arguments Reply {A} r.
Arguments Throw {A}.

Definition bind {A B} (m : outcome A) (k : A -> outcome B) : outcome B :=
  match m with
  | Ok a => k a
  | Reply r => Reply r
  | Throw => Throw
  end.

Declare Scope outcome_scope.
Delimit Scope outcome_scope with outcome.
Notation "x <- m ;; k" := (bind m (fun x => k))
  (at level 61, m at next level, right associativity) : outcome_scope.
Notation "m ;;; k" := (bind m (fun _ => k))
  (at level 61, right associativity) : outcome_scope.

(** [return res.status(code).json({ error: msg })] *)
Definition reject {A} (code : Z) (msg : string) : outcome A :=
  Reply (mkResponse code (Error msg)).

(** A value the query layer needs; NaN or an ill-typed value throws. *)
Definition need {A} (o : option A) : outcome A :=
  match o with Some a => Ok a | None => Throw end.

Definition guard (ok : bool) (code : Z) (msg : string) : outcome unit :=
  if ok then Ok tt else reject code msg.

Definition len {A} (l : list A) : Z := Z.of_nat (length l).

(** [if (categoryId) { findUnique ...; if (!categoryExists) return 400 }] *)
Definition validate_ref (exists_ : Z -> bool) (v : option json) (msg : string)
    : outcome unit :=
  if truthy_opt v then
    (id <- need (match v with Some x => parseInt x | None => None end) ;;
     guard (exists_ id) 400 msg)%outcome
  else Ok tt.

(** [if (xs.length > 0) { count({ id: { in: xs.map(parseInt) } });
    if (count !== xs.length) return 400 }] *)
Definition validate_ids (count_in : list Z -> Z) (xs : list json) (msg : string)
    : outcome unit :=
  match xs with
  | [] => Ok tt
  | _ =>
      (ids <- need (parseInts xs) ;;
       guard (count_in ids =? len xs) 400 msg)%outcome
  end.

(** [v ? parseInt(v) : null] as the value of a nullable integer column; a
    NaN reaches the store as [null]. *)
Definition ref_or_null (v : option json) : option (option Z) :=
  match v with
  | Some x => if truthy x then Some (parseInt x) else Some None
  | None => Some None
  end.

(** [v || d] *)
Definition js_or (v : option json) (d : json) : json :=
  match v with
  | Some x => if truthy x then x else d
  | None => d
  end.

(** Values checked against the column type by the query layer. *)
Definition as_string (v : json) : option string :=
  match v with JStr s => Some s | _ => None end.

Definition as_nullable_string (v : json) : option (option string) :=
  match v with JStr s => Some (Some s) | JNull => Some None | _ => None end.

Definition as_bool (v : json) : option bool :=
  match v with JBool b => Some b | _ => None end.

Definition as_priority (v : json) : option Priority :=
  match v with JStr s => Priority_of_string s | _ => None end.

(** [if (v) count({ where: { col: parseInt(v) } })], else the initial [0]. *)
Definition count_ref (db : Db) (col : Todo.t -> option Z) (v : option json)
    : outcome Z :=
  if truthy_opt v then
    (id <- need (match v with Some x => parseInt x | None => None end) ;;
     Ok (todo_count db (fun t => opt_eqb (col t) (Some id))))%outcome
  else Ok 0.

(** ** POST /api/todos *)

(** Steps 1 to 8 of the handler: validation and the counts for [stats]. *)
Definition postTodo_checks (db : Db) (b : CreateBody.t) : outcome (Z * Z * Z) :=
  (guard (truthy_opt (CreateBody.title b)) 400 "Title is required" ;;;
   validate_ref (category_exists db) (CreateBody.categoryId b) "Category not found" ;;;
   validate_ref (user_exists db) (CreateBody.userId b) "User not found" ;;;
   validate_ids (tag_count_in db) (CreateBody.tagIds b) "Some tags not found" ;;;
   validate_ids (todo_count_in db) (CreateBody.dependencies b)
     "Some dependencies not found" ;;;
   userTodoCount <- count_ref db Todo.userId (CreateBody.userId b) ;;
   categoryTodoCount <- count_ref db Todo.categoryId (CreateBody.categoryId b) ;;
   p <- need (as_priority (js_or (CreateBody.priority b) (JStr "MEDIUM"))) ;;
   let priorityTodoCount := todo_count db (fun t => Priority_eqb (Todo.priority t) p) in
   let totalTodoCount := todo_count db (fun _ => true) in
   Ok (userTodoCount, categoryTodoCount, totalTodoCount))%outcome.

(** Step 9: the transaction. *)
Definition postTodo_tx (now : Z) (b : CreateBody.t) : Tx Todo.t :=
  (title <- tx_lift (match CreateBody.title b with
                     | Some v => as_string v | None => None end) ;;
   description <- tx_lift (as_nullable_string (js_or (CreateBody.description b) JNull)) ;;
   priority <- tx_lift (as_priority (js_or (CreateBody.priority b) (JStr "MEDIUM"))) ;;
   userId <- tx_lift (ref_or_null (CreateBody.userId b)) ;;
   categoryId <- tx_lift (ref_or_null (CreateBody.categoryId b)) ;;
   deps <- tx_lift (parseInts (CreateBody.dependencies b)) ;;
   todo <- todo_create now title description priority userId categoryId ;;
   connect (Todo.id todo) deps ;;;
   tx_for (CreateBody.tagIds b) (fun tagId =>
     parsed <- tx_lift (parseInt tagId) ;;
     tagsOnTodos_create now (Todo.id todo) parsed) ;;;
   tx_for (CreateBody.notes b) (fun noteContent =>
     content <- tx_lift (as_string noteContent) ;;
     note_create now (Todo.id todo) content) ;;;
   todoHistory_create now (Todo.id todo) "CREATED" "Todo was created" ;;;
   tx_ret todo)%tx.

Definition server_error (msg : string) : Response := mkResponse 500 (Error msg).

Definition postTodo (now : Z) (b : CreateBody.t) (db : Db) : Db * Response :=
  match postTodo_checks db b with
  | Reply r => (db, r)
  | Throw => (db, server_error "Failed to create todo")
  | Ok (userTodoCount, categoryTodoCount, totalTodoCount) =>
      match postTodo_tx now b db with
      | Failed d => (rollback db d, server_error "Failed to create todo")
      | Done (result, db') =>
          (* step 10: re-read the created todo with its relations *)
          match findUnique db' (Todo.id result) with
          | None => (db', server_error "Failed to create todo")
          | Some createdTodo =>
              (db', mkResponse 201
                      (Created (view db' createdTodo) (userTodoCount + 1)
                         (categoryTodoCount + 1) (totalTodoCount + 1)))
          end
      end
  end.

(** ** PUT /api/todos/:id *)

(** [v !== existing] for the change log, [existing] shown as a JSON value. *)
Definition differs (v : option json) (existing : json) : bool :=
  match v with
  | Some x => negb (strict_eq x existing)
  | None => false
  end.

Definition json_of_opt_string (o : option string) : json :=
  match o with Some s => JStr s | None => JNull end.

Definition json_of_opt_Z (o : option Z) : json :=
  match o with Some z => JNum z | None => JNull end.

Definition nonempty {A} (l : list A) : bool :=
  match l with [] => false | _ => true end.

(** Step 4: the names of the fields that the request changes. *)
Definition putTodo_changes (existingTodo : Todo.t) (b : UpdateBody.t) : list string :=
  (if differs (UpdateBody.title b) (JStr (Todo.title existingTodo))
   then ["title"] else []) ++
  (if differs (UpdateBody.description b)
        (json_of_opt_string (Todo.description existingTodo))
   then ["description"] else []) ++
  (if differs (UpdateBody.completed b) (JBool (Todo.completed existingTodo))
   then ["completed"] else []) ++
  (if differs (UpdateBody.priority b)
        (JStr (Priority_to_string (Todo.priority existingTodo)))
   then ["priority"] else []) ++
  (if differs (UpdateBody.categoryId b) (json_of_opt_Z (Todo.categoryId existingTodo))
   then ["category"] else []) ++
  (if differs (UpdateBody.userId b) (json_of_opt_Z (Todo.userId existingTodo))
   then ["user"] else []) ++
  (if nonempty (UpdateBody.tagIds b) then ["tags"] else []) ++
  (if nonempty (UpdateBody.notes b) then ["notes"] else []) ++
  (if nonempty (UpdateBody.dependencies b) then ["dependencies"] else []).

(** Step 7: the self-dependency test and the test for a direct reverse
    edge. *)
Definition check_circular (db : Db) (id : Z) (dependencies : list json)
    : outcome unit :=
  match dependencies with
  | [] => Ok tt
  | _ =>
      (guard (negb (includes_json dependencies id)) 400
         "A todo cannot depend on itself" ;;;
       let dependentIds := map Todo.id (todos_depending_on db id) in
       let hasCircularDep :=
         existsb (fun depId =>
                    match parseInt depId with
                    | Some d => includes dependentIds d
                    | None => false
                    end) dependencies in
       guard (negb hasCircularDep) 400 "Circular dependency detected")%outcome
  end.

(** Steps 1 to 6: existence of the todo and of what the request refers to. *)
Definition putTodo_prechecks (db : Db) (idParam : string) (b : UpdateBody.t)
    : outcome (Z * list string) :=
  (id <- need (parseInt_string idParam) ;;
   existingTodo <- match findUnique db id with
                   | Some t => Ok t
                   | None => reject 404 "Todo not found"
                   end ;;
   validate_ref (category_exists db) (UpdateBody.categoryId b) "Category not found" ;;;
   validate_ref (user_exists db) (UpdateBody.userId b) "User not found" ;;;
   let changes := putTodo_changes existingTodo b in
   validate_ids (tag_count_in db) (UpdateBody.tagIds b) "Some tags not found" ;;;
   validate_ids (todo_count_in db) (UpdateBody.dependencies b)
     "Some dependencies not found" ;;;
   Ok (id, changes))%outcome.

(** Steps 1 to 8. *)
Definition putTodo_checks (db : Db) (idParam : string) (b : UpdateBody.t)
    : outcome (Z * list string) :=
  (found <- putTodo_prechecks db idParam b ;;
   check_circular db (fst found) (UpdateBody.dependencies b) ;;;
   validate_ids (fun ids => note_count_in db ids (fst found))
     (UpdateBody.removeNotes b) "Some notes to remove not found" ;;;
   Ok found)%outcome.

(** [field !== undefined ? conv(field) : undefined] as a value of [data]. *)
Definition field {A} (conv : json -> option A) (v : option json)
    : option (option A) :=
  match v with
  | Some x => option_map Some (conv x)
  | None => Some None
  end.

(** [parseInt(v)] as the value of a nullable integer column: a number, or
    [null] for NaN (so for [null], [false] and strings without digits). *)
Definition number_or_null (v : json) : option (option Z) := Some (parseInt v).

Definition putTodo_data (b : UpdateBody.t) : option TodoUpdateInput :=
  match field as_string (UpdateBody.title b),
        field as_nullable_string (UpdateBody.description b),
        field as_bool (UpdateBody.completed b),
        field as_priority (UpdateBody.priority b),
        field number_or_null (UpdateBody.categoryId b),
        field number_or_null (UpdateBody.userId b) with
  | Some t, Some d, Some c, Some p, Some cat, Some u =>
      Some (mkInput t d c p cat u)
  | _, _, _, _, _, _ => None
  end.

Definition no_fields : TodoUpdateInput := mkInput None None None None None None.

Definition tx_when (c : bool) (m : Tx unit) : Tx unit :=
  if c then m else tx_ret tt.

(** [tx.tagsOnTodos.findMany({ where: { todoId }, select: { tagId } })] *)
Definition tx_tagIds_of (todoId : Z) : Tx (list Z) :=
  fun db => Done (tagIds_of db todoId, db).

(** Step 9: the transaction. *)
Definition putTodo_tx (now : Z) (id : Z) (changes : list string) (b : UpdateBody.t)
    : Tx Todo.t :=
  (data <- tx_lift (putTodo_data b) ;;
   todo <- todo_update now id data ;;
   tx_when (nonempty (UpdateBody.removeTags b))
     (ids <- tx_lift (parseInts (UpdateBody.removeTags b)) ;;
      tagsOnTodos_deleteMany id ids) ;;;
   tx_when (nonempty (UpdateBody.tagIds b))
     (existingTagIds <- tx_tagIds_of id ;;
      tx_for (UpdateBody.tagIds b) (fun tagId =>
        parsedId <- tx_lift (parseInt tagId) ;;
        if includes existingTagIds parsedId then tx_ret tt
        else tagsOnTodos_create now id parsedId)) ;;;
   tx_for (UpdateBody.notes b) (fun noteContent =>
     content <- tx_lift (as_string noteContent) ;;
     note_create now id content) ;;;
   tx_when (nonempty (UpdateBody.removeNotes b))
     (ids <- tx_lift (parseInts (UpdateBody.removeNotes b)) ;;
      note_deleteMany ids) ;;;
   tx_when (nonempty (UpdateBody.dependencies b))
     (ids <- tx_lift (parseInts (UpdateBody.dependencies b)) ;;
      todo_update now id no_fields ;;;
      connect id ids) ;;;
   tx_when (nonempty (UpdateBody.removeDependencies b))
     (ids <- tx_lift (parseInts (UpdateBody.removeDependencies b)) ;;
      todo_update now id no_fields ;;;
      disconnect id ids) ;;;
   todoHistory_create now id "UPDATED"
     ("Updated fields: " ++ String.concat ", " changes) ;;;
   tx_ret todo)%tx.

Definition putTodo (now : Z) (idParam : string) (b : UpdateBody.t) (db : Db)
    : Db * Response :=
  match putTodo_checks db idParam b with
  | Reply r => (db, r)
  | Throw => (db, server_error "Failed to update todo")
  | Ok (id, changes) =>
      match putTodo_tx now id changes b db with
      | Failed d => (rollback db d, server_error "Failed to update todo")
      | Done (_, db') =>
          (* step 10: re-read the updated todo with its relations *)
          match findUnique db' id with
          | None => (db', server_error "Failed to update todo")
          | Some updatedTodo =>
              (db', mkResponse 200 (Updated (view db' updatedTodo) changes))
          end
      end
  end.

(** ** DELETE /api/todos/:id *)

Definition deleteTodo (idParam : string) (db : Db) : Db * Response :=
  match parseInt_string idParam with
  | None => (db, server_error "Failed to delete todo")
  | Some id =>
      match findUnique db id with
      | None => (db, mkResponse 404 (Error "Todo not found"))
      | Some existingTodo =>
          let dependentTodos := todos_depending_on db id in
          let tagCount := len (tagIds_of db id) in
          let noteCount := len (filter (fun n => Note.todoId n =? id) (notes db)) in
          let attachmentCount :=
            len (filter (fun a => Attachment.todoId a =? id) (attachments db)) in
          let historyCount :=
            len (filter (fun h => TodoHistory.todoId h =? id) (todoHistory db)) in
          let dependencyCount := len (dependencies_of db id) in
          match todo_delete id db with
          | Failed d => (rollback db d, server_error "Failed to delete todo")
          | Done (_, db') =>
              (db', mkResponse 200
                      (Deleted id tagCount noteCount attachmentCount historyCount
                         dependencyCount (len dependentTodos)
                         (map Todo.id dependentTodos)))
          end
      end
  end.

(** ** PATCH /api/todos/:id/toggle *)

(** Step 10: the transaction. *)
Definition toggleTodo_tx (now : Z) (id : Z) (existingTodo : Todo.t) : Tx Todo.t :=
  (let newCompletionStatus := negb (Todo.completed existingTodo) in
   todo <- todo_update now id
             (mkInput None None (Some newCompletionStatus) None None None) ;;
   todoHistory_create now id
     (if newCompletionStatus then "COMPLETED" else "REOPENED")
     (if newCompletionStatus then "Todo was marked as completed"
      else "Todo was reopened") ;;;
   tx_ret todo)%tx.

Definition toggleTodo (now : Z) (idParam : string) (db : Db) : Db * Response :=
  match parseInt_string idParam with
  | None => (db, server_error "Failed to toggle todo")
  | Some id =>
      match findUnique db id with
      | None => (db, mkResponse 404 (Error "Todo not found"))
      | Some existingTodo =>
          (* step 2: the dependencies are inspected for the response only *)
          let uncompletedDependencies :=
            if Todo.completed existingTodo then []
            else filter (fun d => negb (Todo.completed d)) (dependencies_of db id) in
          let dependentTodosCount := len (todos_depending_on db id) in
          let blockedTodos :=
            filter (fun t =>
                      negb (existsb (fun d => negb (Todo.id d =? id)
                                              && negb (Todo.completed d))
                              (dependencies_of db (Todo.id t))))
              (todos_depending_on db id) in
          match toggleTodo_tx now id existingTodo db with
          | Failed d => (rollback db d, server_error "Failed to toggle todo")
          | Done (result, db') =>
              (db', mkResponse 200
                      (Toggled result (map Todo.id uncompletedDependencies)
                         dependentTodosCount
                         (if Todo.completed result then map Todo.id blockedTodos
                          else [])))
          end
      end
  end.

(** ** GET /api/todos *)

Inductive TextFilter : Type :=
| title_contains (s : string)
| description_contains (s : string).

(** The [where] object of step 5; a key that is not set is [None].  An id
    holds the result of [parseInt], [None] for NaN, which reaches the query
    layer as [null]. *)
Record TodoWhere : Type := mkWhere {
  where_completed : option bool;
  where_OR : option (list TextFilter);
  where_priority : option string;
  where_categoryId : option (option Z);
  where_userId : option (option Z);
  where_tags_some_tagId : option (option Z)
}.

(** A query parameter that is present and not the empty string. *)
Definition given (p : option string) : option string :=
  match p with
  | Some s => if (s =? "")%string then None else Some s
  | None => None
  end.

Definition build_where (q : ListQuery.t) : TodoWhere :=
  mkWhere
    (option_map (fun c => (c =? "true")%string) (ListQuery.completed q))
    (option_map (fun s => [title_contains s; description_contains s])
       (given (ListQuery.search q)))
    (given (ListQuery.priority q))
    (option_map parseInt_string (given (ListQuery.category q)))
    (option_map parseInt_string (given (ListQuery.user q)))
    (option_map parseInt_string (given (ListQuery.tag q))).

Definition text_matches (t : Todo.t) (f : TextFilter) : bool :=
  match f with
  | title_contains s => contains_insensitive (Todo.title t) s
  | description_contains s =>
      match Todo.description t with
      | Some d => contains_insensitive d s
      | None => false
      end
  end.

(** One key of a [where] object: absent keys hold of every row. *)
Definition key {A} (k : option A) (test : A -> bool) : bool :=
  match k with Some a => test a | None => true end.

(** What the query layer accepts: a priority of the enum, and a number for
    [tagId], a column that cannot be null.  [categoryId] and [userId] are
    nullable columns: for them [null] is a value to compare with. *)
Definition where_valid (w : TodoWhere) : bool :=
  key (where_priority w)
    (fun s => match Priority_of_string s with Some _ => true | None => false end)
  && key (where_tags_some_tagId w)
       (fun o => match o with Some _ => true | None => false end).

(** The rows selected by a [where] object: its keys are conjoined, the
    members of [OR] are alternatives. *)
Definition where_matches (db : Db) (w : TodoWhere) (t : Todo.t) : bool :=
  key (where_completed w) (fun c => Bool.eqb (Todo.completed t) c)
  && key (where_OR w) (fun fs => existsb (text_matches t) fs)
  && key (where_priority w)
       (fun s => match Priority_of_string s with
                 | Some p => Priority_eqb (Todo.priority t) p
                 | None => false
                 end)
  && key (where_categoryId w) (fun c => opt_eqb (Todo.categoryId t) c)
  && key (where_userId w) (fun u => opt_eqb (Todo.userId t) u)
  && key (where_tags_some_tagId w)
       (fun g => match g with
                 | Some tagId => includes (tagIds_of db (Todo.id t)) tagId
                 | None => false
                 end).

(** [orderBy: { createdAt: 'desc' }]; rows of equal time keep storage order
    (the store promises no order among them). *)
Fixpoint insert_desc (t : Todo.t) (l : list Todo.t) : list Todo.t :=
  match l with
  | [] => [t]
  | x :: r =>
      if Todo.createdAt x <=? Todo.createdAt t then t :: l
      else x :: insert_desc t r
  end.

Definition sort_desc (l : list Todo.t) : list Todo.t :=
  fold_right insert_desc [] l.

(** [skip] and [take] on the ordered rows; a negative [take] counts from the
    end, a negative [skip] is refused. *)
Definition page_of (skip take : Z) (rows : list Todo.t) : option (list Todo.t) :=
  if skip <? 0 then None
  else if 0 <=? take
       then Some (firstn (Z.to_nat take) (skipn (Z.to_nat skip) rows))
       else Some (rev (firstn (Z.to_nat (- take))
                         (skipn (Z.to_nat skip) (rev rows)))).

(** [prisma.todo.findMany({ where, orderBy, skip, take })] *)
Definition findMany (db : Db) (w : TodoWhere) (skip take : Z)
    : outcome (list Todo.t) :=
  if where_valid w
  then need (page_of skip take (sort_desc (filter (where_matches db w) (todos db))))
  else Throw.

Definition getTodos_read (db : Db) (q : ListQuery.t) : outcome Response :=
  (page <- need (match ListQuery.page q with
                 | Some s => parseInt_string s | None => Some 1 end) ;;
   take <- need (match ListQuery.limit q with
                 | Some s => parseInt_string s | None => Some 10 end) ;;
   let skip := (page - 1) * take in
   let totalTodosCount := todo_count db (fun _ => true) in
   let where_ := build_where q in
   todos <- findMany db where_ skip take ;;
   let filteredCount := todo_count db (where_matches db where_) in
   let completedCount := todo_count db (fun t => Bool.eqb (Todo.completed t) true) in
   Ok (mkResponse 200
         (TodoList (map (view db) todos) filteredCount page take
            totalTodosCount completedCount)))%outcome.

Definition getTodos (q : ListQuery.t) (db : Db) : Db * Response :=
  match getTodos_read db q with
  | Ok r | Reply r => (db, r)
  | Throw => (db, server_error "Failed to fetch todos")
  end.

(** ** The service as a transition system *)

Inductive Request : Type :=
| GET_todos (q : ListQuery.t)
| POST_todos (b : CreateBody.t)
| PUT_todo (idParam : string) (b : UpdateBody.t)
| DELETE_todo (idParam : string)
| PATCH_toggle (idParam : string).

(** One request served at time [now]. *)
Definition handle (now : Z) (r : Request) (db : Db) : Db * Response :=
  match r with
  | GET_todos q => getTodos q db
  | POST_todos b => postTodo now b db
  | PUT_todo idParam b => putTodo now idParam b db
  | DELETE_todo idParam => deleteTodo idParam db
  | PATCH_toggle idParam => toggleTodo now idParam db
  end.

(** The store after a sequence of timed requests. *)
Fixpoint run (rs : list (Z * Request)) (db : Db) : Db :=
  match rs with
  | [] => db
  | (now, r) :: rest => run rest (fst (handle now r db))
  end.

(** ** Integrity of the store *)

Fixpoint distinctb {A} (eqb : A -> A -> bool) (l : list A) : bool :=
  match l with
  | [] => true
  | x :: r => negb (existsb (eqb x) r) && distinctb eqb r
  end.

Definition key_eqb (a b : Z * Z) : bool := (fst a =? fst b) && (snd a =? snd b).

(** The composite primary key of a row of tags_on_todos. *)
Definition join_key (r : TagsOnTodos.t) : Z * Z :=
  (TagsOnTodos.todoId r, TagsOnTodos.tagId r).

(** What the schema's keys and sequences guarantee of every store the
    handlers see: todo ids are unique and below the serial counter, tag ids
    are unique, the composite key of tags_on_todos is unique, and both ends
    of a dependency edge are todos. *)
Definition well_formed (db : Db) : bool :=
  distinctb Z.eqb (map Todo.id (todos db))
  && forallb (fun t => Todo.id t <? todos_id_seq db) (todos db)
  && distinctb Z.eqb (map Tag.id (tags db))
  && distinctb key_eqb (map join_key (tagsOnTodos db))
  && forallb (fun e => todo_exists db (fst e) && todo_exists db (snd e))
       (todoDependencies db).

(** The same integrity conditions as propositions. *)
Record wf (db : Db) : Prop := {
  wf_todo_ids : NoDup (map Todo.id (todos db));
  wf_todo_seq : forall t, In t (todos db) -> Todo.id t < todos_id_seq db;
  wf_tag_ids : NoDup (map Tag.id (tags db));
  wf_join_keys : NoDup (map join_key (tagsOnTodos db));
  wf_edges : forall a b, In (a, b) (todoDependencies db) ->
               todo_exists db a = true /\ todo_exists db b = true
}.

(** ** Sample stores and requests *)

Definition empty_store : Db := mkDb [] [] [] [] [] [] [] [] [] 1 1 1.

Definition sample_todo (id : Z) (title : string) (completed : bool)
    (priority : Priority) : Todo.t :=
  Todo.mk id title None completed priority (1000 + id) (1000 + id) None None.

(** Three todos, [1] depends on [2] and [2] depends on [3]; todo [1] carries
    tag [1], a note, a history row and an attachment. *)
Definition chain_store : Db :=
  mkDb
    [sample_todo 1 "Write API documentation" false LOW;
     sample_todo 2 "Add input validation" false MEDIUM;
     sample_todo 3 "Build REST API endpoints" true HIGH]
    [] []
    [Tag.mk 1 "urgent"; Tag.mk 2 "api"]
    [TagsOnTodos.mk 1 1 1001]
    [Note.mk 1 "Note 1" 1 1001]
    [TodoHistory.mk 1 1 "CREATED" "Todo was created" 1001]
    [Attachment.mk 1 "1_notes.txt" "/uploads/notes.txt" "text/plain" 1]
    [(1, 2); (2, 3)]
    4 2 2.

Definition no_update : UpdateBody.t :=
  UpdateBody.mk None None None None None None [] [] [] [] [] [].

(** [{ "dependencies": deps }] *)
Definition update_dependencies (deps : list json) : UpdateBody.t :=
  UpdateBody.mk None None None None None None [] [] deps [] [] [].

(** [{ "tagIds": ids }] *)
Definition update_tagIds (ids : list json) : UpdateBody.t :=
  UpdateBody.mk None None None None None None ids [] [] [] [] [].

(** [{ "title": title }] *)
Definition create_titled (title : string) : CreateBody.t :=
  CreateBody.mk (Some (JStr title)) None None None None None [] [] [].

Definition no_filter : ListQuery.t :=
  ListQuery.mk None None None None None None None None.

(** ** Notions used in the statements *)

(** Every early reply of a read phase is a 400 or a 404. *)
Definition client_error {A} (m : outcome A) : Prop :=
  forall r, m = Reply r -> status r = 400 \/ status r = 404.

(** [P] is an invariant of the statement [m]. *)
Definition preserves {A} (P : Db -> Prop) (m : Tx A) : Prop :=
  forall db a db', P db -> m db = Done (a, db') -> P db'.

(** The store in which a statement ends, whether it returns or throws. *)
Definition tx_state {A} (r : TxResult A) : Db :=
  match r with Done (_, d) => d | Failed d => d end.

(** The serial counters of [d'] are at those of [d] or beyond. *)
Definition counters_le (d d' : Db) : Prop :=
  todos_id_seq d <= todos_id_seq d'
  /\ notes_id_seq d <= notes_id_seq d'
  /\ todo_history_id_seq d <= todo_history_id_seq d'.

(** The statement [m] never turns a serial counter back. *)
Definition draws {A} (m : Tx A) : Prop :=
  forall db, counters_le db (tx_state (m db)).

(** The two stores hold the same rows. *)
Definition same_rows (d d' : Db) : Prop :=
  todos d' = todos d /\ users d' = users d /\ categories d' = categories d
  /\ tags d' = tags d /\ tagsOnTodos d' = tagsOnTodos d /\ notes d' = notes d
  /\ todoHistory d' = todoHistory d /\ attachments d' = attachments d
  /\ todoDependencies d' = todoDependencies d.

(** Rewriting the rows of one id by a function that keeps the id. *)
Definition rewrite_rows (id : Z) (g : Todo.t -> Todo.t) (l : list Todo.t) :=
  map (fun x => if Todo.id x =? id then g x else x) l.

(** The row, the history entry and the store after a toggle of the
    existing todo [t]. *)
Definition toggled_row (now : Z) (t : Todo.t) : Todo.t :=
  apply_update now (mkInput None None (Some (negb (Todo.completed t))) None None None) t.

Definition toggle_history (now : Z) (id : Z) (t : Todo.t) (db : Db) : TodoHistory.t :=
  TodoHistory.mk (todo_history_id_seq db) id
    (if negb (Todo.completed t) then "COMPLETED" else "REOPENED")
    (if negb (Todo.completed t) then "Todo was marked as completed"
     else "Todo was reopened")
    now.

Definition toggled_store (now : Z) (id : Z) (t : Todo.t) (db : Db) : Db :=
  with_todoHistory
    (with_todos db
       (rewrite_rows id
          (apply_update now
             (mkInput None None (Some (negb (Todo.completed t))) None None None))
          (todos db))
       (todos_id_seq db))
    (todoHistory db ++ [toggle_history now id t db])
    (todo_history_id_seq db + 1).




(** Each of the six scalar fields that the body does not mention has the
    same value in [t'] as in [t]. *)
Definition absent_fields_kept (b : UpdateBody.t) (t t' : Todo.t) : Prop :=
  (UpdateBody.title b = None -> Todo.title t' = Todo.title t)
  /\ (UpdateBody.description b = None -> Todo.description t' = Todo.description t)
  /\ (UpdateBody.completed b = None -> Todo.completed t' = Todo.completed t)
  /\ (UpdateBody.priority b = None -> Todo.priority t' = Todo.priority t)
  /\ (UpdateBody.categoryId b = None -> Todo.categoryId t' = Todo.categoryId t)
  /\ (UpdateBody.userId b = None -> Todo.userId t' = Todo.userId t).

(** The integrity conditions together with the existence of todo [a], the
    todo that the statements of a transaction write to. *)
Definition Inv (a : Z) (db : Db) : Prop := wf db /\ todo_exists db a = true.

(** The rows that the tag loop of an update appends: one for each listed
    tag that is not among [existingTagIds]. *)
Definition new_tag_rows (now id : Z) (existingTagIds tagIds : list Z)
    : list TagsOnTodos.t :=
  map (fun g => TagsOnTodos.mk id g now)
    (filter (fun g => negb (includes existingTagIds g)) tagIds).

(** The rows that [deleteMany] of step 9 leaves. *)
Definition remaining_tag_rows (id : Z) (removed : list Z) (rows : list TagsOnTodos.t)
    : list TagsOnTodos.t :=
  filter (fun r => negb ((TagsOnTodos.todoId r =? id)
                         && includes removed (TagsOnTodos.tagId r))) rows.

Definition tagIds_in (rows : list TagsOnTodos.t) (todoId : Z) : list Z :=
  map TagsOnTodos.tagId (filter (fun r => TagsOnTodos.todoId r =? todoId) rows).

(** ** GET /api/todos/:id *)

(** [orderBy: { createdAt: 'desc' }] on history rows; rows of equal time
    keep storage order. *)
Fixpoint insert_history_desc (h : TodoHistory.t) (l : list TodoHistory.t)
    : list TodoHistory.t :=
  match l with
  | [] => [h]
  | x :: r =>
      if TodoHistory.createdAt x <=? TodoHistory.createdAt h then h :: l
      else x :: insert_history_desc h r
  end.

Definition sort_history_desc (l : list TodoHistory.t) : list TodoHistory.t :=
  fold_right insert_history_desc [] l.

(** The body of a 200 answer of [GET /api/todos/:id]: the todo, the three
    [related] lists, the [stats] block and [recentChanges]. *)
Record TodoDetail : Type := mkDetail {
  detail_todo : TodoView;
  similarTodos : list Todo.t;
  userTodos : list Todo.t;
  relatedByTags : list Todo.t;
  historyCount : Z;
  notesCount : Z;
  attachmentsCount : Z;
  dependenciesCount : Z;
  allDependenciesCompleted : bool;
  samePriorityCount : Z;
  recentChanges : list TodoHistory.t
}.

Inductive DetailResponse : Type :=
| DetailError (code : Z) (error : string)
| Detail (d : TodoDetail).

(** [{ id: { not: id } }] *)
Definition other_than (id : Z) (t : Todo.t) : bool := negb (Todo.id t =? id).

(** [{ tags: { some: { tagId: { in: tagIds } } } }] *)
Definition shares_tag (db : Db) (tagIds : list Z) (t : Todo.t) : bool :=
  existsb (fun g => includes tagIds g) (tagIds_of db (Todo.id t)).

Definition getTodo (idParam : string) (db : Db) : DetailResponse :=
  match parseInt_string idParam with
  | None => DetailError 500 "Failed to fetch todo"
  | Some id =>
      match findUnique db id with
      | None => DetailError 404 "Todo not found"
      | Some todo =>
          (* 2. same category, [categoryId] possibly null *)
          let similarTodos :=
            firstn 5 (filter (fun t => opt_eqb (Todo.categoryId t) (Todo.categoryId todo)
                                      && other_than id t) (todos db)) in
          (* 3. [todo.userId ? findMany(...) : []] *)
          let userTodos :=
            match Todo.userId todo with
            | Some u =>
                if u =? 0 then []
                else firstn 5 (filter (fun t => opt_eqb (Todo.userId t) (Some u)
                                               && other_than id t) (todos db))
            | None => []
            end in
          (* 4. [tagIds.length > 0 ? findMany(...) : []] *)
          let tagIds := tagIds_of db id in
          let relatedByTags :=
            match tagIds with
            | [] => []
            | _ => firstn 5 (filter (fun t => other_than id t && shares_tag db tagIds t)
                               (todos db))
            end in
          let historyCount :=
            len (filter (fun h => TodoHistory.todoId h =? id) (todoHistory db)) in
          let notesCount := len (filter (fun n => Note.todoId n =? id) (notes db)) in
          let attachmentsCount :=
            len (filter (fun a => Attachment.todoId a =? id) (attachments db)) in
          let dependenciesCount := len (dependencies_of db id) in
          let uncompletedDependencies :=
            len (filter (fun d => Bool.eqb (Todo.completed d) false)
                   (dependencies_of db id)) in
          let recentChanges :=
            firstn 10 (sort_history_desc
                         (filter (fun h => TodoHistory.todoId h =? id) (todoHistory db))) in
          let samePriorityCount :=
            todo_count db (fun t => Priority_eqb (Todo.priority t) (Todo.priority todo)
                                    && other_than id t) in
          Detail (mkDetail (view db todo) similarTodos userTodos relatedByTags
                    historyCount notesCount attachmentsCount dependenciesCount
                    (uncompletedDependencies =? 0) samePriorityCount recentChanges)
      end
  end.

(** ** Start of the HTTP server *)

(** What [server.listen(port)] leads to: the 'listening' event, an 'error'
    event with code EADDRINUSE, or an 'error' event with another code. *)
Inductive ListenEvent : Type := listening | EADDRINUSE | other_error.

Inductive StartResult : Type :=
| Running (port : Z)
| NoPortFound (attempts : Z)
| ServerError (port : Z)
| Unfinished.

(** [tryBinding] together with the 'error' handler that calls it again.
    [fuel] bounds the number of calls; [startServer] hands over enough. *)
Fixpoint tryBinding (listen : Z -> ListenEvent) (maxAttempts : Z) (fuel : nat)
    (currentPort attempts : Z) : StartResult :=
  match listen currentPort with
  | listening => Running currentPort
  | other_error => ServerError currentPort
  | EADDRINUSE =>
      let attempts := attempts + 1 in
      if attempts <? maxAttempts then
        match fuel with
        | O => Unfinished
        | S fuel' => tryBinding listen maxAttempts fuel' (currentPort + 1) attempts
        end
      else NoPortFound attempts
  end.

Definition startServer (listen : Z -> ListenEvent) (initialPort maxAttempts : Z)
    : StartResult :=
  tryBinding listen maxAttempts (Z.to_nat maxAttempts) initialPort 0.

(** [parseInt(process.env.PORT) || 3000] *)
Definition PORT (env_PORT : option string) : Z :=
  match env_PORT with
  | Some s =>
      match parseInt_string s with
      | Some p => if p =? 0 then 3000 else p
      | None => 3000
      end
  | None => 3000
  end.

(** ** Further conditions on the store *)

(** Every foreign key of the schema points at a stored row: the [todoId] of
    notes, history rows, attachments and tag joins, the [tagId] of tag
    joins, and the nullable [userId] and [categoryId] of todos. *)
Definition references_live (db : Db) : bool :=
  forallb (fun n => todo_exists db (Note.todoId n)) (notes db)
  && forallb (fun h => todo_exists db (TodoHistory.todoId h)) (todoHistory db)
  && forallb (fun a => todo_exists db (Attachment.todoId a)) (attachments db)
  && forallb (fun r => todo_exists db (TagsOnTodos.todoId r)
                       && tag_exists db (TagsOnTodos.tagId r)) (tagsOnTodos db)
  && forallb (fun t => fk_ok (user_exists db) (Todo.userId t)
                       && fk_ok (category_exists db) (Todo.categoryId t)) (todos db).

(** No two different todos depend on each other directly. *)
Definition no_mutual_dependency (db : Db) : bool :=
  forallb (fun e => (fst e =? snd e) || negb (has_edge db (snd e) (fst e)))
    (todoDependencies db).

(** Note ids are unique (the primary key of notes). *)
Definition note_ids_unique (db : Db) : bool :=
  distinctb Z.eqb (map Note.id (notes db)).


(** The body gives at least one of the six scalar fields. *)
Definition gives_field (b : UpdateBody.t) : bool :=
  match UpdateBody.title b, UpdateBody.description b, UpdateBody.completed b,
        UpdateBody.priority b, UpdateBody.categoryId b, UpdateBody.userId b with
  | None, None, None, None, None, None => false
  | _, _, _, _, _, _ => true
  end.


(** * Properties *)

Example parseInt_examples :
  parseInt (JStr "42") = Some 42 /\ parseInt (JStr " -7px") = Some (-7) /\
  parseInt (JStr "0x1f") = Some 31 /\ parseInt (JStr "abc") = None /\
  parseInt (JStr "") = None /\ parseInt (JNum 5) = Some 5.
Proof. repeat split; reflexivity. Qed.

Example chain_store_well_formed : well_formed chain_store = true.
Proof. reflexivity. Qed.

(** ** C1: self-dependency *)

(** The numeric form of the todo's own id is refused by step 7. *)
Lemma check_circular_self db id deps :
  includes_json deps id = true ->
  check_circular db id deps = reject 400 "A todo cannot depend on itself".
Proof.
  intros H. unfold check_circular.
  destruct deps as [|d deps]; [discriminate|].
  rewrite H. reflexivity.
Qed.

(** C1 (fails on the code): an update of todo 1 whose dependency list holds
    the todo's own id as the string "1" passes the self-dependency test,
    which compares without [parseInt], answers 200 and commits the self-loop
    [(1, 1)] to the dependency relation. *)
Theorem C1_string_id_commits_self_loop :
  let '(db', r) := putTodo 2000 "1" (update_dependencies [JStr "1"]) chain_store in
  status r = 200 /\ In (1, 1) (todoDependencies db')
  /\ well_formed chain_store = true
  /\ ~ In (1, 1) (todoDependencies chain_store).
Proof.
  vm_compute. repeat split; auto.
  intros [H|[H|[]]]; discriminate.
Qed.

(** ** Lists, lookups and the two monads *)

Lemma includes_In ids z : includes ids z = true <-> In z ids.
Proof.
  unfold includes. rewrite existsb_exists. split.
  - intros [x [Hin Heq]]. apply Z.eqb_eq in Heq. now subst.
  - intros Hin. exists z. split; [assumption | apply Z.eqb_refl].
Qed.

Lemma includes_false ids z : includes ids z = false <-> ~ In z ids.
Proof.
  rewrite <- includes_In. destruct (includes ids z); intuition congruence.
Qed.

Lemma todo_exists_In db id :
  todo_exists db id = true <-> exists t, In t (todos db) /\ Todo.id t = id.
Proof.
  unfold todo_exists. rewrite existsb_exists.
  split; intros [t [Hin Heq]]; exists t; split; auto; now apply Z.eqb_eq.
Qed.

Lemma findUnique_Some db id t :
  findUnique db id = Some t -> In t (todos db) /\ Todo.id t = id.
Proof.
  unfold findUnique. intros H. apply find_some in H.
  destruct H as [Hin Heq]. apply Z.eqb_eq in Heq. auto.
Qed.

Lemma findUnique_exists db id :
  todo_exists db id = true <-> exists t, findUnique db id = Some t.
Proof.
  split.
  - intros H. apply todo_exists_In in H. destruct H as [t [Hin Heq]].
    unfold findUnique. destruct (find _ _) eqn:E; [eauto|].
    eapply find_none in E; [|eassumption]. simpl in E.
    apply Z.eqb_neq in E. contradiction.
  - intros [t H]. apply findUnique_Some in H. apply todo_exists_In. eauto.
Qed.

Lemma has_edge_In db a b :
  has_edge db a b = true <-> In (a, b) (todoDependencies db).
Proof.
  unfold has_edge. rewrite existsb_exists. split.
  - intros [[x y] [Hin Heq]]. simpl in Heq.
    apply andb_true_iff in Heq. destruct Heq as [H1 H2].
    apply Z.eqb_eq in H1, H2. now subst.
  - intros Hin. exists (a, b). split; [assumption|].
    simpl. now rewrite !Z.eqb_refl.
Qed.

Lemma bind_Ok {A B} (m : outcome A) (k : A -> outcome B) b :
  bind m k = Ok b -> exists a, m = Ok a /\ k a = Ok b.
Proof. destruct m; simpl; intros H; try discriminate. eauto. Qed.

Lemma tx_bind_Done {A B} (m : Tx A) (k : A -> Tx B) db r :
  tx_bind m k db = Done r ->
  exists a db1, m db = Done (a, db1) /\ k a db1 = Done r.
Proof.
  unfold tx_bind. destruct (m db) as [[a db1]|]; [eauto | discriminate].
Qed.

Lemma tx_lift_Done {A} (o : option A) db a db' :
  tx_lift o db = Done (a, db') -> o = Some a /\ db' = db.
Proof.
  unfold tx_lift. destruct o; intros H; inversion H; auto.
Qed.

Lemma tx_ret_Done {A} (x : A) db a db' :
  tx_ret x db = Done (a, db') -> a = x /\ db' = db.
Proof. unfold tx_ret. intros H; inversion H; auto. Qed.

(** Splits a successful run of a transaction into its statements. *)
Ltac tx_split H :=
  repeat match type of H with
  | tx_bind _ _ _ = Done _ =>
      let a := fresh "a" in let db1 := fresh "db" in
      let H1 := fresh "Hstep" in
      apply tx_bind_Done in H; destruct H as [a [db1 [H1 H]]]
  end.

(** An invariant of the statements of a loop is an invariant of the loop. *)
Lemma tx_for_invariant {A} (P : Db -> Prop) (xs : list A) (body : A -> Tx unit) :
  (forall x db u db', In x xs -> P db -> body x db = Done (u, db') -> P db') ->
  forall db u db', P db -> tx_for xs body db = Done (u, db') -> P db'.
Proof.
  induction xs as [|x r IH]; intros Hbody db u db' HP H; simpl in H.
  - apply tx_ret_Done in H. destruct H as [_ ->]. assumption.
  - apply tx_bind_Done in H. destruct H as [u1 [db1 [H1 H2]]].
    eapply IH; [| |exact H2].
    + intros y d v d' Hy. apply Hbody. now right.
    + eapply Hbody; [now left | exact HP | exact H1].
Qed.

Lemma tx_when_invariant (P : Db -> Prop) c (m : Tx unit) db u db' :
  (forall d v d', P d -> m d = Done (v, d') -> P d') ->
  P db -> tx_when c m db = Done (u, db') -> P db'.
Proof.
  intros Hm HP H. destruct c; simpl in H.
  - eapply Hm; eassumption.
  - apply tx_ret_Done in H. destruct H as [_ ->]. assumption.
Qed.

(** ** Integrity as propositions *)

Section Distinct.
Context {A : Type} (eqb : A -> A -> bool).
Hypothesis eqb_spec : forall x y, eqb x y = true <-> x = y.

Lemma existsb_eqb_In x l : existsb (eqb x) l = true <-> In x l.
Proof.
  rewrite existsb_exists. split.
  - intros [y [Hin Heq]]. apply eqb_spec in Heq. now subst.
  - intros Hin. exists x. split; [assumption | now apply eqb_spec].
Qed.

Lemma distinctb_NoDup l : distinctb eqb l = true <-> NoDup l.
Proof.
  induction l as [|x r IH]; simpl.
  - split; [constructor | reflexivity].
  - rewrite andb_true_iff, negb_true_iff, IH. split.
    + intros [Hx Hr]. constructor; [|assumption].
      intros Hin. apply existsb_eqb_In in Hin. congruence.
    + intros H. inversion H as [|? ? Hx Hr]; subst. split; [|assumption].
      destruct (existsb (eqb x) r) eqn:E; [|reflexivity].
      apply existsb_eqb_In in E. contradiction.
Qed.
End Distinct.

Lemma key_eqb_spec x y : key_eqb x y = true <-> x = y.
Proof.
  destruct x as [a b], y as [c d]. unfold key_eqb. simpl.
  rewrite andb_true_iff, !Z.eqb_eq. split.
  - intros [-> ->]. reflexivity.
  - intros H. inversion H. auto.
Qed.

Lemma well_formed_wf db : well_formed db = true <-> wf db.
Proof.
  unfold well_formed. rewrite !andb_true_iff, !forallb_forall.
  rewrite !(distinctb_NoDup Z.eqb Z.eqb_eq), (distinctb_NoDup key_eqb key_eqb_spec).
  split.
  - intros [[[[H1 H2] H3] H4] H5]. constructor; auto.
    + intros t Ht. apply Z.ltb_lt. auto.
    + intros a b Hin. specialize (H5 _ Hin). simpl in H5.
      now apply andb_true_iff in H5.
  - intros [H1 H2 H3 H4 H5]. repeat split; auto.
    + intros t Ht. apply Z.ltb_lt. auto.
    + intros [a b] Hin. simpl. apply andb_true_iff. auto.
Qed.

(** In a well-formed store the next serial id belongs to no todo. *)
Lemma next_id_fresh db : wf db -> todo_exists db (todos_id_seq db) = false.
Proof.
  intros Hwf. destruct (todo_exists db (todos_id_seq db)) eqn:E; [|reflexivity].
  apply todo_exists_In in E. destruct E as [t [Hin Heq]].
  apply (wf_todo_seq db Hwf) in Hin. lia.
Qed.

(** ** C2: the direct reverse edge *)

Lemma putTodo_prechecks_id db idParam b found :
  putTodo_prechecks db idParam b = Ok found ->
  parseInt_string idParam = Some (fst found)
  /\ exists t, findUnique db (fst found) = Some t.
Proof.
  unfold putTodo_prechecks. intros H.
  apply bind_Ok in H. destruct H as [id [Hid H]].
  apply bind_Ok in H. destruct H as [t [Ht H]].
  repeat (apply bind_Ok in H; destruct H as [? [_ H]]).
  inversion H; subst; simpl.
  destruct (parseInt_string idParam); [|discriminate]. inversion Hid; subst.
  split; [reflexivity|].
  destruct (findUnique db id); [eauto | discriminate].
Qed.

(** Step 7 finds a proposed dependency that already depends on the todo. *)
Lemma check_circular_reverse_edge db A B d deps :
  todo_exists db B = true ->
  In (B, A) (todoDependencies db) ->
  In d deps -> parseInt d = Some B ->
  check_circular db A deps =
    (if includes_json deps A
     then reject 400 "A todo cannot depend on itself"
     else reject 400 "Circular dependency detected").
Proof.
  intros HB Hedge Hd Hparse. unfold check_circular.
  destruct deps as [|d0 deps0] eqn:Edeps; [contradiction|].
  rewrite <- Edeps in *. clear Edeps.
  destruct (includes_json deps A); [reflexivity|]. simpl.
  assert (Hcirc : existsb (fun depId =>
            match parseInt depId with
            | Some d1 => includes (map Todo.id (todos_depending_on db A)) d1
            | None => false
            end) deps = true).
  { apply existsb_exists. exists d. split; [assumption|].
    rewrite Hparse. apply includes_In.
    apply todo_exists_In in HB. destruct HB as [t [Hin Hid]].
    apply in_map_iff. exists t. split; [assumption|].
    unfold todos_depending_on. apply filter_In. split; [assumption|].
    apply has_edge_In. now rewrite Hid. }
  rewrite Hcirc. reflexivity.
Qed.

(** ** Invariants of transactions *)

Lemma preserves_bind {A B} P (m : Tx A) (k : A -> Tx B) :
  preserves P m -> (forall a, preserves P (k a)) -> preserves P (tx_bind m k).
Proof.
  intros Hm Hk db b db' HP H.
  apply tx_bind_Done in H. destruct H as [a [db1 [H1 H2]]].
  eapply Hk; [|exact H2]. eapply Hm; eassumption.
Qed.

Lemma preserves_ret {A} P (x : A) : preserves P (tx_ret x).
Proof. intros db a db' HP H. apply tx_ret_Done in H. now destruct H as [_ ->]. Qed.

Lemma preserves_lift {A} P (o : option A) : preserves P (tx_lift o).
Proof. intros db a db' HP H. apply tx_lift_Done in H. now destruct H as [_ ->]. Qed.

Lemma preserves_for {A} P (xs : list A) (body : A -> Tx unit) :
  (forall x, preserves P (body x)) -> preserves P (tx_for xs body).
Proof.
  intros Hbody db u db' HP H.
  eapply (tx_for_invariant P); [|exact HP|exact H].
  intros x d v d' _. apply Hbody.
Qed.

Lemma preserves_when P c (m : Tx unit) :
  preserves P m -> preserves P (tx_when c m).
Proof. intros Hm. destruct c; simpl; [assumption | apply preserves_ret]. Qed.

(** Opens a statement of the query layer that succeeded. *)
Ltac prim_inv H :=
  unfold todo_create, todo_update, tagsOnTodos_create, tagsOnTodos_deleteMany,
    note_create, note_deleteMany, todoHistory_create, todo_delete, disconnect,
    tx_tagIds_of in H;
  repeat match type of H with
  | (if ?c then _ else _) = _ => destruct c eqn:?
  | match ?x with _ => _ end = _ => destruct x eqn:?
  end;
  try discriminate; inversion H; subst; clear H.

(** A property that only reads a table is kept by the statements that do
    not write it. *)
Ltac frame :=
  repeat first
    [ apply preserves_ret
    | apply preserves_lift
    | apply preserves_bind; [|intros ?]
    | apply preserves_for; intros ?
    | apply preserves_when
    | match goal with |- preserves _ (if ?c then _ else _) => destruct c end
    | match goal with |- preserves _ (connect _ _) => unfold connect end
    | let db := fresh "db" in let H := fresh "H" in let HP := fresh "HP" in
      intros db ? ? HP H; prim_inv H; simpl; first [exact HP | reflexivity] ].

(** Carries a fact [HP] about the store before a run [H] of a transaction
    over to the store after it, leaving the invariance as a goal. *)
Ltac carry HP H :=
  match type of H with
  | ?m ?d = Done (?a, ?d') =>
      pattern d in HP;
      match type of HP with
      | ?P d =>
          let K := fresh "K" in
          assert (K : preserves P m);
          [ clear HP H | specialize (K d a d' HP H); cbv beta in K, HP ]
      end
  end.

Lemma add_edge_In edges a b x :
  In x (add_edge edges a b) <-> In x edges \/ x = (a, b).
Proof.
  unfold add_edge.
  destruct (existsb _ edges) eqn:E.
  - split; [auto|]. intros [H| ->]; [assumption|].
    apply existsb_exists in E. destruct E as [[u v] [Hin Heq]]. simpl in Heq.
    apply andb_true_iff in Heq. destruct Heq as [H1 H2].
    apply Z.eqb_eq in H1, H2. now subst.
  - rewrite in_app_iff. simpl. intuition.
Qed.

(** [connect a ids] only adds edges from [a] to a member of [ids]. *)
Lemma connect_edges a ids (Q : Z * Z -> Prop) :
  (forall b, In b ids -> Q (a, b)) ->
  preserves (fun db => forall e, In e (todoDependencies db) -> Q e) (connect a ids).
Proof.
  intros HQ. unfold connect. intros db u db' HP H.
  refine (tx_for_invariant
            (fun d => forall e, In e (todoDependencies d) -> Q e) ids _ _ db u db' HP H).
  clear db u db' HP H. intros b db u db' Hb HP H.
  destruct (todo_exists db b); [|discriminate]. inversion H; subst; clear H.
  simpl. intros e He. apply add_edge_In in He. destruct He as [He| ->]; auto.
Qed.

(** The transaction of a create takes the next serial id and adds only
    edges from the new todo to the listed dependencies. *)
Lemma postTodo_tx_edges now b db todo db' :
  postTodo_tx now b db = Done (todo, db') ->
  exists ids,
    parseInts (CreateBody.dependencies b) = Some ids
    /\ Todo.id todo = todos_id_seq db
    /\ forall e, In e (todoDependencies db') ->
         In e (todoDependencies db)
         \/ (fst e = todos_id_seq db /\ In (snd e) ids).
Proof.
  unfold postTodo_tx. intros H.
  do 6 (apply tx_bind_Done in H; destruct H as [? [? [Hl H]]];
        apply tx_lift_Done in Hl; destruct Hl as [? ->]).
  apply tx_bind_Done in H. destruct H as [t [db1 [Hc H]]].
  assert (Hid : Todo.id t = todos_id_seq db /\ todoDependencies db1 = todoDependencies db).
  { prim_inv Hc. simpl. auto. }
  destruct Hid as [Hid Hdeps].
  apply tx_bind_Done in H. destruct H as [u [db2 [Hconn H]]].
  pose (Q := fun e : Z * Z =>
               In e (todoDependencies db)
               \/ (fst e = todos_id_seq db /\ In (snd e) x4)).
  assert (HP2 : forall e, In e (todoDependencies db2) -> Q e).
  { refine (connect_edges (Todo.id t) x4 Q _ db1 u db2 _ Hconn).
    - intros c Hc'. right. simpl. auto.
    - rewrite Hdeps. intros e He. now left. }
  assert (Hret : todo = t).
  { clear HP2. tx_split H. apply tx_ret_Done in H. now destruct H. }
  subst todo. exists x4. split; [assumption|]. split; [exact Hid|].
  carry HP2 H; [frame | exact K].
Qed.

Lemma client_error_bind {A B} (m : outcome A) (k : A -> outcome B) :
  client_error m -> (forall a, client_error (k a)) -> client_error (bind m k).
Proof.
  intros Hm Hk r. destruct m; simpl; intros H; try discriminate.
  - eapply Hk; eassumption.
  - inversion H; subst. now apply Hm.
Qed.

Lemma client_error_need {A} (o : option A) : client_error (need o).
Proof. intros r H. destruct o; discriminate H. Qed.

Lemma client_error_Ok {A} (a : A) : client_error (Ok a).
Proof. intros r H. discriminate H. Qed.

Lemma client_error_guard c msg : client_error (guard c 400 msg).
Proof.
  intros r H. unfold guard, reject in H. destruct c; inversion H. now left.
Qed.

Lemma client_error_validate_ref ex v msg : client_error (validate_ref ex v msg).
Proof.
  unfold validate_ref. destruct (truthy_opt v); [|apply client_error_Ok].
  apply client_error_bind; [apply client_error_need|].
  intros a. apply client_error_guard.
Qed.

Lemma client_error_validate_ids cnt xs msg : client_error (validate_ids cnt xs msg).
Proof.
  unfold validate_ids. destruct xs; [apply client_error_Ok|].
  apply client_error_bind; [apply client_error_need|].
  intros a. apply client_error_guard.
Qed.

Lemma client_error_putTodo_prechecks db idParam b :
  client_error (putTodo_prechecks db idParam b).
Proof.
  unfold putTodo_prechecks.
  apply client_error_bind; [apply client_error_need|]. intros id.
  apply client_error_bind.
  { intros r H. destruct (findUnique db id); [discriminate H|].
    unfold reject in H. inversion H. now right. }
  intros t.
  repeat (apply client_error_bind;
          [first [apply client_error_validate_ref | apply client_error_validate_ids]
          | intros ?]).
  apply client_error_Ok.
Qed.

(** C2: when todo B already depends on todo A, an update of A that lists B
    among its dependencies changes nothing in the store and is not answered
    200.  A request that passes the checks before step 7 (the todo, the
    category, the user, the tags and the dependencies exist) is answered
    400: "Circular dependency detected", or "A todo cannot depend on itself"
    when the list holds the number A as well.  No create request adds the
    edge from A to B either: a create only adds edges that leave the new
    todo. *)
Theorem C2_reverse_edge_is_refused now idParam b db A B d :
  well_formed db = true ->
  parseInt_string idParam = Some A ->
  In (B, A) (todoDependencies db) ->
  In d (UpdateBody.dependencies b) ->
  parseInt d = Some B ->
  (fst (putTodo now idParam b db) = db
   /\ status (snd (putTodo now idParam b db)) <> 200
   /\ (forall found,
         putTodo_prechecks db idParam b = Ok found ->
         snd (putTodo now idParam b db)
         = mkResponse 400
             (Error (if includes_json (UpdateBody.dependencies b) A
                     then "A todo cannot depend on itself"
                     else "Circular dependency detected"))))
  /\ (forall now' body,
        In (A, B) (todoDependencies (fst (postTodo now' body db))) ->
        In (A, B) (todoDependencies db)).
Proof.
  intros Hwf Hid Hedge Hd Hparse.
  apply well_formed_wf in Hwf.
  destruct (wf_edges db Hwf _ _ Hedge) as [HB HA].
  split.
  - unfold putTodo, putTodo_checks.
    destruct (putTodo_prechecks db idParam b) as [found|r|] eqn:E; simpl.
    + destruct (putTodo_prechecks_id _ _ _ _ E) as [Hfound _].
      rewrite Hid in Hfound. inversion Hfound as [HA']. rewrite <- HA'.
      rewrite (check_circular_reverse_edge db A B d) by assumption.
      destruct (includes_json (UpdateBody.dependencies b) A); simpl;
        repeat split; try discriminate; intros; reflexivity.
    + split; [reflexivity|]. split.
      * destruct (client_error_putTodo_prechecks db idParam b r E) as [H|H];
          rewrite H; discriminate.
      * intros found Hf. discriminate.
    + split; [reflexivity|]. split; [discriminate|]. intros found Hf. discriminate.
  - intros now' body Hin. unfold postTodo in Hin.
    destruct (postTodo_checks db body) as [[[u c] n]|r|]; simpl in Hin; auto.
    destruct (postTodo_tx now' body db) as [[todo db']|] eqn:E; simpl in Hin; auto.
    assert (Hin' : In (A, B) (todoDependencies db')).
    { destruct (findUnique db' (Todo.id todo)); exact Hin. }
    destruct (postTodo_tx_edges _ _ _ _ _ E) as [ids [_ [_ Hedges]]].
    destruct (Hedges _ Hin') as [H|[H _]]; [assumption|]. simpl in H.
    pose proof (next_id_fresh db Hwf) as Hfresh. congruence.
Qed.

(** Todo 1 of [chain_store] depends on todo 2; the update makes todo 2
    depend on todo 1, given as the string "1". *)
Lemma C2_reverse_edge_is_refused_witness :
  (fst (putTodo 2000 "2" (update_dependencies [JStr "1"]) chain_store) = chain_store
   /\ status (snd (putTodo 2000 "2" (update_dependencies [JStr "1"]) chain_store))
      <> 200
   /\ (forall found,
         putTodo_prechecks chain_store "2" (update_dependencies [JStr "1"]) = Ok found ->
         snd (putTodo 2000 "2" (update_dependencies [JStr "1"]) chain_store)
         = mkResponse 400
             (Error (if includes_json
                          (UpdateBody.dependencies (update_dependencies [JStr "1"])) 2
                     then "A todo cannot depend on itself"
                     else "Circular dependency detected"))))
  /\ (forall now' body,
        In (2, 1) (todoDependencies (fst (postTodo now' body chain_store))) ->
        In (2, 1) (todoDependencies chain_store)).
Proof.
  apply (C2_reverse_edge_is_refused 2000 "2" (update_dependencies [JStr "1"])
           chain_store 2 1 (JStr "1")).
  - reflexivity.
  - reflexivity.
  - simpl. left. reflexivity.
  - simpl. left. reflexivity.
  - reflexivity.
Defined.

Example reverse_edge_answer :
  putTodo 2000 "2" (update_dependencies [JStr "1"]) chain_store
  = (chain_store, mkResponse 400 (Error "Circular dependency detected")).
Proof. reflexivity. Qed.

(** ** C3: the check is local *)

(** Step 7 only looks at the edges that enter the updated todo: it passes
    as soon as no proposed dependency is the todo's own number and none
    directly depends on the todo, whatever longer paths the store holds. *)
Lemma check_circular_local db id deps :
  includes_json deps id = false ->
  (forall d z, In d deps -> parseInt d = Some z ->
               ~ In (z, id) (todoDependencies db)) ->
  check_circular db id deps = Ok tt.
Proof.
  intros Hself Hdirect. unfold check_circular.
  destruct deps as [|d0 deps0] eqn:Edeps; [reflexivity|].
  rewrite <- Edeps in *. clear Edeps. rewrite Hself. simpl.
  assert (Hnone : existsb (fun depId =>
            match parseInt depId with
            | Some d1 => includes (map Todo.id (todos_depending_on db id)) d1
            | None => false
            end) deps = false).
  { destruct (existsb _ deps) eqn:E; [|reflexivity]. exfalso.
    apply existsb_exists in E. destruct E as [d [Hd Hinc]].
    destruct (parseInt d) as [z|] eqn:Hp; [|discriminate].
    apply includes_In in Hinc. apply in_map_iff in Hinc.
    destruct Hinc as [t [Ht Hin]]. unfold todos_depending_on in Hin.
    apply filter_In in Hin. destruct Hin as [_ Hedge].
    apply has_edge_In in Hedge. rewrite Ht in Hedge.
    exact (Hdirect d z Hd Hp Hedge). }
  rewrite Hnone. reflexivity.
Qed.

(** C3: there is a well-formed store in which A depends on B and B depends
    on C, and the update that makes C depend on A is answered 200 and
    commits the edge, which closes the cycle A, B, C. *)
Theorem C3_cycle_of_length_three_is_accepted :
  exists db A B C idParam,
    well_formed db = true
    /\ parseInt_string idParam = Some C
    /\ In (A, B) (todoDependencies db)
    /\ In (B, C) (todoDependencies db)
    /\ ~ In (C, A) (todoDependencies db)
    /\ let '(db', r) := putTodo 2000 idParam (update_dependencies [JNum A]) db in
       status r = 200
       /\ In (C, A) (todoDependencies db')
       /\ In (A, B) (todoDependencies db')
       /\ In (B, C) (todoDependencies db').
Proof.
  exists chain_store, 1, 2, 3, "3". vm_compute.
  repeat split; auto.
  intros [H|[H|[]]]; discriminate.
Qed.

(** ** C4: defaults of a created todo *)

Lemma find_app_fresh {A} (f : A -> bool) (l : list A) (x : A) :
  existsb f l = false -> f x = true -> find f (l ++ [x]) = Some x.
Proof.
  induction l as [|y r IH]; simpl; intros Hl Hx.
  - now rewrite Hx.
  - apply orb_false_iff in Hl. destruct Hl as [Hy Hr].
    rewrite Hy. now apply IH.
Qed.

(** The row that the transaction of a create inserts, and the todo table
    after it. *)
Lemma postTodo_tx_row now b db todo db' :
  postTodo_tx now b db = Done (todo, db') ->
  exists title description priority userId categoryId,
    as_priority (js_or (CreateBody.priority b) (JStr "MEDIUM")) = Some priority
    /\ todo = Todo.mk (todos_id_seq db) title description false priority
                now now userId categoryId
    /\ todos db' = (todos db ++ [todo])%list.
Proof.
  unfold postTodo_tx. intros H.
  do 6 (apply tx_bind_Done in H; destruct H as [? [? [Hl H]]];
        apply tx_lift_Done in Hl; destruct Hl as [? ->]).
  apply tx_bind_Done in H. destruct H as [t [db1 [Hc H]]].
  assert (Ht : t = Todo.mk (todos_id_seq db) x x0 false x1 now now x2 x3
               /\ todos db1 = (todos db ++ [t])%list).
  { prim_inv Hc. simpl. auto. }
  destruct Ht as [Ht Htodos].
  assert (Hret : todo = t).
  { clear Htodos. tx_split H. apply tx_ret_Done in H. now destruct H. }
  subst todo. exists x, x0, x1, x2, x3. repeat split; try assumption.
  carry Htodos H; [frame | exact K].
Qed.

Lemma client_error_postTodo_checks db b : client_error (postTodo_checks db b).
Proof.
  unfold postTodo_checks.
  repeat (apply client_error_bind;
          [first [apply client_error_validate_ref | apply client_error_validate_ids
                 | apply client_error_guard | apply client_error_need]
          | intros ?]).
  apply client_error_bind.
  { unfold count_ref. destruct (truthy_opt _); [|apply client_error_Ok].
    apply client_error_bind; [apply client_error_need|].
    intros ?. apply client_error_Ok. }
  intros ?. apply client_error_bind.
  { unfold count_ref. destruct (truthy_opt _); [|apply client_error_Ok].
    apply client_error_bind; [apply client_error_need|].
    intros ?. apply client_error_Ok. }
  intros ?. apply client_error_bind; [apply client_error_need|].
  intros ?. apply client_error_Ok.
Qed.

(** C4: a create request without [completed] and without [priority] that
    is answered 201 has inserted, under the next serial id, a row with
    [completed = false] and [priority = MEDIUM], and the response shows that
    row. *)
Theorem C4_create_defaults now b db db' r :
  well_formed db = true ->
  CreateBody.completed b = None ->
  CreateBody.priority b = None ->
  postTodo now b db = (db', r) ->
  status r = 201 ->
  exists stored u c n,
    body r = Created (view db' stored) u c n
    /\ Todo.id stored = todos_id_seq db
    /\ findUnique db (Todo.id stored) = None
    /\ findUnique db' (Todo.id stored) = Some stored
    /\ Todo.completed stored = false
    /\ Todo.priority stored = MEDIUM.
Proof.
  intros Hwf _ Hprio Hpost Hstatus. apply well_formed_wf in Hwf.
  pose proof (next_id_fresh db Hwf) as Hfresh.
  unfold postTodo in Hpost.
  destruct (postTodo_checks db b) as [[[u c] n]|r0|] eqn:Echk;
    [| |inversion Hpost; subst; discriminate].
  - destruct (postTodo_tx now b db) as [[todo db1]|] eqn:Etx;
      [|inversion Hpost; subst; discriminate].
    destruct (postTodo_tx_row _ _ _ _ _ Etx)
      as [ti [de [pr [us [ca [Hpr [Htodo Htodos]]]]]]].
    rewrite Hprio in Hpr. simpl in Hpr. inversion Hpr; subst pr.
    assert (Hfind : findUnique db1 (Todo.id todo) = Some todo).
    { unfold findUnique. rewrite Htodos. apply find_app_fresh.
      - rewrite Htodo. simpl. exact Hfresh.
      - apply Z.eqb_refl. }
    rewrite Hfind in Hpost. inversion Hpost; subst db' r.
    exists todo, (u + 1), (c + 1), (n + 1).
    split; [reflexivity|]. split; [now rewrite Htodo|].
    split; [|split; [exact Hfind | now rewrite Htodo]].
    destruct (findUnique db (Todo.id todo)) as [t0|] eqn:E; [|reflexivity].
    assert (Hex : todo_exists db (Todo.id todo) = true)
      by (apply findUnique_exists; eauto).
    rewrite Htodo in Hex. simpl in Hex. congruence.
  - destruct (client_error_postTodo_checks db b r0 Echk) as [H|H];
      inversion Hpost; subst; rewrite H in Hstatus; discriminate.
Qed.

Lemma C4_create_defaults_witness :
  exists stored u c n,
    body (snd (postTodo 2000 (create_titled "A") chain_store))
    = Created (view (fst (postTodo 2000 (create_titled "A") chain_store)) stored) u c n
    /\ Todo.id stored = todos_id_seq chain_store
    /\ findUnique chain_store (Todo.id stored) = None
    /\ findUnique (fst (postTodo 2000 (create_titled "A") chain_store)) (Todo.id stored)
       = Some stored
    /\ Todo.completed stored = false
    /\ Todo.priority stored = MEDIUM.
Proof.
  apply (C4_create_defaults 2000 (create_titled "A") chain_store); reflexivity.
Defined.

(** The handler does not read [completed]: a body that carries
    [completed: true] is stored with [completed = false] all the same. *)
Example create_ignores_completed :
  option_map Todo.completed
    (findUnique
       (fst (postTodo 2000
               (CreateBody.mk (Some (JStr "A")) None (Some (JBool true)) None None
                  None [] [] [])
               chain_store)) 4)
  = Some false.
Proof. reflexivity. Qed.

(** ** C5 and C6: toggle *)

Lemma apply_update_id now d t : Todo.id (apply_update now d t) = Todo.id t.
Proof. reflexivity. Qed.

Lemma rewrite_rows_ids id g l :
  (forall t, Todo.id (g t) = Todo.id t) ->
  map Todo.id (rewrite_rows id g l) = map Todo.id l.
Proof.
  intros Hg. unfold rewrite_rows. rewrite map_map. apply map_ext.
  intros x. destruct (Todo.id x =? id); auto.
Qed.

Lemma find_rewrite_rows id k g l :
  (forall t, Todo.id (g t) = Todo.id t) ->
  find (fun t => Todo.id t =? k) (rewrite_rows id g l)
  = option_map (fun x => if Todo.id x =? id then g x else x)
      (find (fun t => Todo.id t =? k) l).
Proof.
  intros Hg. induction l as [|x r IH]; simpl; [reflexivity|].
  destruct (Todo.id x =? id) eqn:E.
  - rewrite Hg. destruct (Todo.id x =? k); [simpl; now rewrite E | exact IH].
  - destruct (Todo.id x =? k); [simpl; now rewrite E | exact IH].
Qed.

Lemma existsb_rewrite_rows id k g l :
  (forall t, Todo.id (g t) = Todo.id t) ->
  existsb (fun t => Todo.id t =? k) (rewrite_rows id g l)
  = existsb (fun t => Todo.id t =? k) l.
Proof.
  intros Hg. induction l as [|x r IH]; simpl; [reflexivity|].
  rewrite IH. destruct (Todo.id x =? id); [now rewrite Hg | reflexivity].
Qed.

(** The transaction of a toggle cannot fail on an existing todo. *)
Lemma toggleTodo_tx_ok now id t db :
  findUnique db id = Some t ->
  toggleTodo_tx now id t db = Done (toggled_row now t, toggled_store now id t db).
Proof.
  intros Hfind. unfold toggleTodo_tx, tx_bind, todo_update. rewrite Hfind. simpl.
  unfold todoHistory_create, todo_exists. simpl.
  fold (rewrite_rows id
          (apply_update now
             (mkInput None None (Some (negb (Todo.completed t))) None None None))
          (todos db)).
  rewrite existsb_rewrite_rows by apply apply_update_id.
  assert (Hex : todo_exists db id = true) by (apply findUnique_exists; eauto).
  unfold todo_exists in Hex. rewrite Hex. reflexivity.
Qed.

Lemma findUnique_toggled_store now id t db :
  findUnique db id = Some t ->
  findUnique (toggled_store now id t db) id = Some (toggled_row now t).
Proof.
  intros Hfind. unfold findUnique, toggled_store. simpl.
  rewrite find_rewrite_rows by apply apply_update_id.
  unfold findUnique in Hfind. rewrite Hfind. simpl.
  apply find_some in Hfind. destruct Hfind as [_ ->]. reflexivity.
Qed.

Lemma toggleTodo_ok now idParam id t db :
  parseInt_string idParam = Some id ->
  findUnique db id = Some t ->
  fst (toggleTodo now idParam db) = toggled_store now id t db
  /\ exists deps count blocked,
       snd (toggleTodo now idParam db)
       = mkResponse 200 (Toggled (toggled_row now t) deps count blocked)
       /\ deps = map Todo.id
                   (if Todo.completed t then []
                    else filter (fun d => negb (Todo.completed d))
                           (dependencies_of db id)).
Proof.
  intros Hid Hfind. unfold toggleTodo. rewrite Hid, Hfind.
  rewrite (toggleTodo_tx_ok now id t db Hfind). simpl. split; [reflexivity|].
  do 3 eexists. split; reflexivity.
Qed.

(** C5: two toggles of an existing todo leave its [completed] flag as it
    was and append exactly two rows to the history, both for that todo: a
    COMPLETED and a REOPENED row, in the order of the two transitions. *)
Theorem C5_toggle_twice now1 now2 idParam id t db :
  parseInt_string idParam = Some id ->
  findUnique db id = Some t ->
  let db1 := fst (toggleTodo now1 idParam db) in
  let db2 := fst (toggleTodo now2 idParam db1) in
  (exists t2, findUnique db2 id = Some t2
              /\ Todo.completed t2 = Todo.completed t)
  /\ exists h1 h2,
       todoHistory db2 = (todoHistory db ++ [h1; h2])%list
       /\ TodoHistory.todoId h1 = id /\ TodoHistory.todoId h2 = id
       /\ (TodoHistory.action h1, TodoHistory.action h2)
          = (if Todo.completed t then ("REOPENED", "COMPLETED")
             else ("COMPLETED", "REOPENED")).
Proof.
  intros Hid Hfind db1 db2.
  destruct (toggleTodo_ok now1 idParam id t db Hid Hfind) as [E1 _].
  pose proof (findUnique_toggled_store now1 id t db Hfind) as Hfind1.
  fold db1 in E1. rewrite <- E1 in Hfind1.
  destruct (toggleTodo_ok now2 idParam id _ db1 Hid Hfind1) as [E2 _].
  pose proof (findUnique_toggled_store now2 id _ db1 Hfind1) as Hfind2.
  fold db2 in E2. rewrite <- E2 in Hfind2.
  split.
  - eexists. split; [exact Hfind2|]. simpl. apply negb_involutive.
  - exists (toggle_history now1 id t db),
           (toggle_history now2 id (toggled_row now1 t) db1).
    split; [|split; [reflexivity | split; [reflexivity|]]].
    + rewrite E2. simpl. rewrite E1. simpl. rewrite <- app_assoc. reflexivity.
    + simpl. destruct (Todo.completed t); reflexivity.
Qed.

Lemma C5_toggle_twice_witness :
  let db1 := fst (toggleTodo 2000 "1" chain_store) in
  let db2 := fst (toggleTodo 3000 "1" db1) in
  (exists t2, findUnique db2 1 = Some t2
              /\ Todo.completed t2
                 = Todo.completed (sample_todo 1 "Write API documentation" false LOW))
  /\ exists h1 h2,
       todoHistory db2 = (todoHistory chain_store ++ [h1; h2])%list
       /\ TodoHistory.todoId h1 = 1 /\ TodoHistory.todoId h2 = 1
       /\ (TodoHistory.action h1, TodoHistory.action h2)
          = (if Todo.completed (sample_todo 1 "Write API documentation" false LOW)
             then ("REOPENED", "COMPLETED")
             else ("COMPLETED", "REOPENED")).
Proof.
  apply (C5_toggle_twice 2000 3000 "1" 1
           (sample_todo 1 "Write API documentation" false LOW) chain_store);
    reflexivity.
Defined.

(** C6: a toggle of an existing todo is answered 200 and flips [completed]
    in the stored row and in the response without any condition on the
    todo's dependencies; the dependencies that are not completed are only
    listed in the response (when the todo is being completed). *)
Theorem C6_toggle_is_unconditional now idParam id t db :
  parseInt_string idParam = Some id ->
  findUnique db id = Some t ->
  let '(db', r) := toggleTodo now idParam db in
  status r = 200
  /\ (exists t', findUnique db' id = Some t'
                 /\ Todo.completed t' = negb (Todo.completed t))
  /\ exists result uncompletedDependencies count blocked,
       body r = Toggled result uncompletedDependencies count blocked
       /\ Todo.completed result = negb (Todo.completed t)
       /\ uncompletedDependencies
          = map Todo.id
              (if Todo.completed t then []
               else filter (fun d => negb (Todo.completed d))
                      (dependencies_of db id)).
Proof.
  intros Hid Hfind.
  destruct (toggleTodo_ok now idParam id t db Hid Hfind)
    as [E1 [deps [count [blocked [E2 Hdeps]]]]].
  destruct (toggleTodo now idParam db) as [db' r]. simpl in E1, E2. subst db' r.
  split; [reflexivity|]. split.
  - eexists. split; [apply findUnique_toggled_store; exact Hfind | reflexivity].
  - exists (toggled_row now t), deps, count, blocked. simpl. auto.
Qed.

(** Todo 1 of [chain_store] depends on todo 2, which is not completed: the
    toggle completes todo 1 all the same and reports todo 2. *)
Lemma C6_toggle_is_unconditional_witness :
  let '(db', r) := toggleTodo 2000 "1" chain_store in
  status r = 200
  /\ (exists t', findUnique db' 1 = Some t'
                 /\ Todo.completed t'
                    = negb (Todo.completed
                              (sample_todo 1 "Write API documentation" false LOW)))
  /\ exists result uncompletedDependencies count blocked,
       body r = Toggled result uncompletedDependencies count blocked
       /\ Todo.completed result
          = negb (Todo.completed (sample_todo 1 "Write API documentation" false LOW))
       /\ uncompletedDependencies
          = map Todo.id
              (if Todo.completed (sample_todo 1 "Write API documentation" false LOW)
               then []
               else filter (fun d => negb (Todo.completed d))
                      (dependencies_of chain_store 1)).
Proof.
  apply (C6_toggle_is_unconditional 2000 "1" 1
           (sample_todo 1 "Write API documentation" false LOW) chain_store);
    reflexivity.
Defined.

(** ** C7: the filters of the list request *)


Lemma opt_eqb_Some o z : opt_eqb o (Some z) = true <-> o = Some z.
Proof.
  destruct o as [y|]; simpl; [|split; discriminate].
  rewrite Z.eqb_eq. split; [now intros -> | now inversion 1].
Qed.


Lemma In_insert_desc t x l : In x (insert_desc t l) <-> x = t \/ In x l.
Proof.
  induction l as [|y r IH]; simpl.
  - intuition.
  - destruct (Todo.createdAt y <=? Todo.createdAt t); simpl; [intuition|].
    rewrite IH. intuition.
Qed.

Lemma In_sort_desc x l : In x (sort_desc l) <-> In x l.
Proof.
  induction l as [|y r IH]; simpl; [reflexivity|].
  rewrite In_insert_desc, IH. intuition.
Qed.

Lemma In_firstn_skipn {A} n m (l : list A) x :
  In x (firstn n (skipn m l)) -> In x l.
Proof.
  intros H.
  assert (Hs : In x (skipn m l)).
  { rewrite <- (firstn_skipn n (skipn m l)). apply in_or_app. now left. }
  rewrite <- (firstn_skipn m l). apply in_or_app. now right.
Qed.


Lemma filter_all {Row} (rows : list Row) : filter (fun _ => true) rows = rows.
Proof. induction rows as [|row rest IH]; simpl; [reflexivity | now rewrite IH]. Qed.




Example list_total_is_filtered_count :
  body (snd (getTodos
               (ListQuery.mk None None (Some "true") None None None None None)
               chain_store))
  = TodoList [view chain_store (sample_todo 3 "Build REST API endpoints" true HIGH)]
      1 1 10 3 1.
Proof. reflexivity. Qed.


(** ** C8: a partial update leaves the absent fields alone *)

Lemma field_absent {A} (conv : json -> option A) v o :
  field conv v = Some o -> v = None -> o = None.
Proof. intros H ->. simpl in H. now inversion H. Qed.

Lemma putTodo_data_absent b d t t' :
  putTodo_data b = Some d ->
  absent_fields_kept b t t' ->
  forall now, absent_fields_kept b t (apply_update now d t').
Proof.
  unfold putTodo_data. intros H.
  destruct (field as_string _) as [ti|] eqn:E1; [|discriminate].
  destruct (field as_nullable_string _) as [de|] eqn:E2; [|discriminate].
  destruct (field as_bool _) as [co|] eqn:E3; [|discriminate].
  destruct (field as_priority _) as [pr|] eqn:E4; [|discriminate].
  destruct (field number_or_null (UpdateBody.categoryId b)) as [ca|] eqn:E5; [|discriminate].
  destruct (field number_or_null (UpdateBody.userId b)) as [us|] eqn:E6; [|discriminate].
  inversion H; subst d; clear H.
  intros (K1 & K2 & K3 & K4 & K5 & K6).
  intros now. unfold absent_fields_kept, apply_update. simpl.
  repeat split; intros Habs.
  - rewrite (field_absent _ _ _ E1 Habs). simpl. auto.
  - rewrite (field_absent _ _ _ E2 Habs). simpl. auto.
  - rewrite (field_absent _ _ _ E3 Habs). simpl. auto.
  - rewrite (field_absent _ _ _ E4 Habs). simpl. auto.
  - rewrite (field_absent _ _ _ E5 Habs). simpl. auto.
  - rewrite (field_absent _ _ _ E6 Habs). simpl. auto.
Qed.

(** [tx.todo.update] on todo [id] keeps what its [data] keeps. *)
Lemma todo_update_row now id d (Q : Todo.t -> Prop) :
  (forall x, Q x -> Q (apply_update now d x)) ->
  preserves (fun db => exists t', find (fun t => Todo.id t =? id) (todos db) = Some t'
                                  /\ Q t')
    (todo_update now id d).
Proof.
  intros HQ db a db' [t' [Hfind Ht']] H.
  prim_inv H. simpl.
  fold (rewrite_rows id (apply_update now d) (todos db)).
  rewrite find_rewrite_rows by apply apply_update_id.
  rewrite Hfind. simpl.
  apply find_some in Hfind. destruct Hfind as [_ E]. rewrite E.
  eexists. split; [reflexivity | now apply HQ].
Qed.

(** C8: whatever a PUT request does, the todo it addresses is still stored
    afterwards and each of title, description, completed, priority,
    categoryId and userId that the body does not mention has kept its
    value. *)
Theorem C8_absent_fields_untouched now idParam id b db t :
  parseInt_string idParam = Some id ->
  findUnique db id = Some t ->
  exists t', findUnique (fst (putTodo now idParam b db)) id = Some t'
             /\ absent_fields_kept b t t'.
Proof.
  intros Hid Hfind.
  assert (Hrefl : absent_fields_kept b t t) by (unfold absent_fields_kept; tauto).
  unfold putTodo.
  destruct (putTodo_checks db idParam b) as [[id' changes]|r|] eqn:Echk; simpl; eauto.
  assert (id' = id) as ->.
  { unfold putTodo_checks in Echk. apply bind_Ok in Echk.
    destruct Echk as [found [Hpre Echk]].
    apply putTodo_prechecks_id in Hpre. destruct Hpre as [Hpre _].
    repeat (apply bind_Ok in Echk; destruct Echk as [? [_ Echk]]).
    inversion Echk; subst found. simpl in Hpre. congruence. }
  destruct (putTodo_tx now id changes b db) as [[res db1]|] eqn:Etx; simpl; eauto.
  assert (HP : exists t', find (fun x => Todo.id x =? id) (todos db1) = Some t'
                          /\ absent_fields_kept b t t').
  { unfold putTodo_tx in Etx.
    apply tx_bind_Done in Etx. destruct Etx as [data [db0 [Hdata Etx]]].
    apply tx_lift_Done in Hdata. destruct Hdata as [Hdata ->].
    assert (HP0 : exists t', find (fun x => Todo.id x =? id) (todos db) = Some t'
                             /\ absent_fields_kept b t t') by eauto.
    carry HP0 Etx; [|exact K].
    frame.
    - apply todo_update_row. intros x Hx.
      exact (putTodo_data_absent b data t x Hdata Hx now).
    - apply todo_update_row. intros x Hx. revert Hx.
      unfold absent_fields_kept, apply_update. simpl. tauto.
    - apply todo_update_row. intros x Hx. revert Hx.
      unfold absent_fields_kept, apply_update. simpl. tauto. }
  destruct HP as [t' [Hfind' Hkept]]. fold (findUnique db1 id) in Hfind'.
  rewrite Hfind'. simpl. eauto.
Qed.

Lemma C8_absent_fields_untouched_witness :
  exists t',
    findUnique
      (fst (putTodo 2000 "1"
              (UpdateBody.mk (Some (JStr "Write the API documentation")) None None
                 None None None [] [] [] [] [] [])
              chain_store)) 1 = Some t'
    /\ absent_fields_kept
         (UpdateBody.mk (Some (JStr "Write the API documentation")) None None
            None None None [] [] [] [] [] [])
         (sample_todo 1 "Write API documentation" false LOW) t'.
Proof.
  apply (C8_absent_fields_untouched 2000 "1" 1
           (UpdateBody.mk (Some (JStr "Write the API documentation")) None None
              None None None [] [] [] [] [] [])
           chain_store (sample_todo 1 "Write API documentation" false LOW));
    reflexivity.
Defined.

Example update_title_only :
  findUnique
    (fst (putTodo 2000 "1"
            (UpdateBody.mk (Some (JStr "Write the API documentation")) None None
               None None None [] [] [] [] [] [])
            chain_store)) 1
  = Some (Todo.mk 1 "Write the API documentation" None false LOW 1001 2000 None None).
Proof. reflexivity. Qed.

(** ** C9: delete cascades *)

Lemma filter_excluded {A} (p : A -> bool) (l : list A) :
  filter p (filter (fun x => negb (p x)) l) = [].
Proof.
  induction l as [|x r IH]; simpl; [reflexivity|].
  destruct (p x) eqn:E; simpl; [exact IH | now rewrite E].
Qed.

(** C9: after a delete that is answered 200 the todo is gone, no note, no
    history row, no attachment and no row of tags_on_todos refers to it, and
    no dependency edge starts or ends at it. *)
Theorem C9_delete_cascades idParam id db db' r :
  parseInt_string idParam = Some id ->
  deleteTodo idParam db = (db', r) ->
  status r = 200 ->
  findUnique db' id = None
  /\ len (filter (fun n => Note.todoId n =? id) (notes db')) = 0
  /\ len (filter (fun h => TodoHistory.todoId h =? id) (todoHistory db')) = 0
  /\ len (filter (fun a => Attachment.todoId a =? id) (attachments db')) = 0
  /\ len (filter (fun j => TagsOnTodos.todoId j =? id) (tagsOnTodos db')) = 0
  /\ (forall a b, In (a, b) (todoDependencies db') -> a <> id /\ b <> id).
Proof.
  intros Hid Hdel Hstatus. unfold deleteTodo in Hdel. rewrite Hid in Hdel.
  destruct (findUnique db id) as [t|];
    [|inversion Hdel; subst; discriminate].
  destruct (todo_delete id db) as [[u db1]|] eqn:E;
    [|inversion Hdel; subst; discriminate].
  inversion Hdel; subst db' r; clear Hdel.
  prim_inv E. unfold findUnique. simpl.
  rewrite (filter_excluded (fun n => Note.todoId n =? id)),
    (filter_excluded (fun h => TodoHistory.todoId h =? id)),
    (filter_excluded (fun a => Attachment.todoId a =? id)),
    (filter_excluded (fun j => TagsOnTodos.todoId j =? id)).
  repeat split; try reflexivity.
  - destruct (find _ _) as [x|] eqn:F; [|reflexivity].
    apply find_some in F. destruct F as [Hin Hx].
    apply filter_In in Hin. destruct Hin as [_ Hneg]. rewrite Hx in Hneg.
    discriminate.
  - apply filter_In in H. destruct H as [_ H]. simpl in H.
    apply andb_true_iff in H. destruct H as [H _].
    apply negb_true_iff, Z.eqb_neq in H. exact H.
  - apply filter_In in H. destruct H as [_ H]. simpl in H.
    apply andb_true_iff in H. destruct H as [_ H].
    apply negb_true_iff, Z.eqb_neq in H. exact H.
Qed.

Lemma C9_delete_cascades_witness :
  findUnique (fst (deleteTodo "1" chain_store)) 1 = None
  /\ len (filter (fun n => Note.todoId n =? 1)
            (notes (fst (deleteTodo "1" chain_store)))) = 0
  /\ len (filter (fun h => TodoHistory.todoId h =? 1)
            (todoHistory (fst (deleteTodo "1" chain_store)))) = 0
  /\ len (filter (fun a => Attachment.todoId a =? 1)
            (attachments (fst (deleteTodo "1" chain_store)))) = 0
  /\ len (filter (fun j => TagsOnTodos.todoId j =? 1)
            (tagsOnTodos (fst (deleteTodo "1" chain_store)))) = 0
  /\ (forall a b, In (a, b) (todoDependencies (fst (deleteTodo "1" chain_store))) ->
                  a <> 1 /\ b <> 1).
Proof.
  apply (C9_delete_cascades "1" 1 chain_store _ (snd (deleteTodo "1" chain_store)));
    reflexivity.
Defined.

(** Deleting the middle of the chain removes the edge that enters it and
    the edge that leaves it. *)
Example delete_removes_both_edges :
  todoDependencies chain_store = [(1, 2); (2, 3)]
  /\ todoDependencies (fst (deleteTodo "2" chain_store)) = [].
Proof. split; reflexivity. Qed.

(** ** Every request keeps the store well formed *)

Lemma NoDup_map_filter {Row Key} (key_of : Row -> Key) (keep : Row -> bool) rows :
  NoDup (map key_of rows) -> NoDup (map key_of (filter keep rows)).
Proof.
  induction rows as [|row rest IH]; simpl; intros Hnd; [constructor|].
  inversion Hnd as [|? ? Hfresh Hrest]; subst.
  destruct (keep row); simpl; [|now apply IH].
  constructor; [|now apply IH].
  intros Hin. apply Hfresh. apply in_map_iff in Hin. destruct Hin as [y [Hy Hin]].
  apply filter_In in Hin. apply in_map_iff. exists y. tauto.
Qed.

Lemma NoDup_snoc {A} (l : list A) (x : A) :
  NoDup l -> ~ In x l -> NoDup (l ++ [x]).
Proof.
  intros Hl Hx. apply NoDup_app; [assumption | repeat constructor; intros [] |].
  intros y Hy [<-|[]]. contradiction.
Qed.

Lemma In_tagIds_of db todoId g :
  In g (tagIds_of db todoId) <-> In (todoId, g) (map join_key (tagsOnTodos db)).
Proof.
  unfold tagIds_of. rewrite !in_map_iff. split.
  - intros [r [Hg Hr]]. apply filter_In in Hr. destruct Hr as [Hin Ht].
    apply Z.eqb_eq in Ht. exists r. split; [|assumption].
    unfold join_key. now rewrite Ht, Hg.
  - intros [r [Hk Hin]]. unfold join_key in Hk. inversion Hk; subst.
    exists r. split; [reflexivity|]. apply filter_In. split; [assumption|].
    apply Z.eqb_refl.
Qed.

Lemma Inv_todo_update a now id d : preserves (Inv a) (todo_update now id d).
Proof.
  intros db r db' [[W1 W2 W3 W4 W5] Ha] H. prim_inv H.
  fold (rewrite_rows id (apply_update now d) (todos db)).
  assert (Hex : forall k,
            todo_exists (with_todos db (rewrite_rows id (apply_update now d) (todos db))
                           (todos_id_seq db)) k
            = todo_exists db k).
  { intros k. unfold todo_exists. simpl.
    apply existsb_rewrite_rows, apply_update_id. }
  split; [constructor; simpl|]; auto.
  - rewrite rewrite_rows_ids by apply apply_update_id. assumption.
  - intros x Hx. unfold rewrite_rows in Hx. apply in_map_iff in Hx.
    destruct Hx as [y [<- Hy]]. destruct (Todo.id y =? id); simpl; auto.
  - intros x y Hxy. rewrite !Hex. auto.
  - rewrite Hex. assumption.
Qed.

Lemma Inv_tagsOnTodos_create a now todoId tagId :
  preserves (Inv a) (tagsOnTodos_create now todoId tagId).
Proof.
  intros db r db' [[W1 W2 W3 W4 W5] Ha] H. prim_inv H.
  split; [constructor; simpl|]; auto.
  rewrite map_app. simpl. apply NoDup_snoc; [assumption|].
  unfold join_key at 1. simpl. rewrite <- In_tagIds_of.
  apply andb_true_iff in Heqb. destruct Heqb as [_ Hnew].
  apply negb_true_iff in Hnew. now apply includes_false.
Qed.

Lemma Inv_tagsOnTodos_deleteMany a todoId ids :
  preserves (Inv a) (tagsOnTodos_deleteMany todoId ids).
Proof.
  intros db r db' [[W1 W2 W3 W4 W5] Ha] H. prim_inv H.
  split; [constructor; simpl|]; auto. now apply NoDup_map_filter.
Qed.

Lemma Inv_note_create a now todoId content :
  preserves (Inv a) (note_create now todoId content).
Proof.
  intros db r db' [[W1 W2 W3 W4 W5] Ha] H. prim_inv H.
  split; [constructor; simpl|]; auto.
Qed.

Lemma Inv_note_deleteMany a ids : preserves (Inv a) (note_deleteMany ids).
Proof.
  intros db r db' [[W1 W2 W3 W4 W5] Ha] H. prim_inv H.
  split; [constructor; simpl|]; auto.
Qed.

Lemma Inv_todoHistory_create a now todoId action description :
  preserves (Inv a) (todoHistory_create now todoId action description).
Proof.
  intros db r db' [[W1 W2 W3 W4 W5] Ha] H. prim_inv H.
  split; [constructor; simpl|]; auto.
Qed.

Lemma Inv_connect a ids : preserves (Inv a) (connect a ids).
Proof.
  unfold connect. apply preserves_for. intros b db r db' [[W1 W2 W3 W4 W5] Ha] H.
  destruct (todo_exists db b) eqn:Hb; [|discriminate]. inversion H; subst; clear H.
  split; [constructor; simpl|]; auto.
  intros x y Hxy. apply add_edge_In in Hxy.
  destruct Hxy as [Hxy|Hxy]; [exact (W5 _ _ Hxy)|].
  inversion Hxy; subst. split; assumption.
Qed.

Lemma Inv_disconnect a b ids : preserves (Inv a) (disconnect b ids).
Proof.
  intros db r db' [[W1 W2 W3 W4 W5] Ha] H. prim_inv H.
  split; [constructor; simpl|]; auto.
  intros x y Hxy. apply filter_In in Hxy. destruct Hxy as [Hxy _].
  exact (W5 _ _ Hxy).
Qed.

Lemma preserves_tx_tagIds_of P todoId : preserves P (tx_tagIds_of todoId).
Proof. intros db r db' HP H. prim_inv H. assumption. Qed.

Lemma todo_exists_app db l next k :
  todo_exists (with_todos db (todos db ++ l) next) k
  = todo_exists db k || existsb (fun t => Todo.id t =? k) l.
Proof. unfold todo_exists. simpl. apply existsb_app. Qed.

(** [tx.todo.create] keeps the store well formed and the new todo exists. *)
Lemma todo_create_Inv now title description priority userId categoryId db t db' :
  wf db ->
  todo_create now title description priority userId categoryId db = Done (t, db') ->
  Inv (Todo.id t) db'.
Proof.
  intros [W1 W2 W3 W4 W5] H. prim_inv H.
  split; [constructor; simpl|]; auto.
  - rewrite map_app. simpl. apply NoDup_snoc; [assumption|].
    intros Hin. apply in_map_iff in Hin. destruct Hin as [x [Hx Hin]].
    apply W2 in Hin. lia.
  - intros x Hx. apply in_app_iff in Hx. destruct Hx as [Hx|[<-|[]]].
    + apply W2 in Hx. lia.
    + simpl. lia.
  - intros x y Hxy. rewrite !todo_exists_app.
    destruct (W5 _ _ Hxy) as [-> ->]. auto.
  - rewrite todo_exists_app. simpl. rewrite Z.eqb_refl. apply orb_true_r.
Qed.

Lemma existsb_filter_other (id k : Z) (l : list Todo.t) :
  k <> id ->
  existsb (fun t => Todo.id t =? k) (filter (fun t => negb (Todo.id t =? id)) l)
  = existsb (fun t => Todo.id t =? k) l.
Proof.
  intros Hk. induction l as [|x r IH]; simpl; [reflexivity|].
  destruct (Todo.id x =? id) eqn:E; simpl; rewrite IH; [|reflexivity].
  apply Z.eqb_eq in E. rewrite E.
  destruct (id =? k) eqn:E'; [|reflexivity].
  apply Z.eqb_eq in E'. congruence.
Qed.

(** [tx.todo.delete] with its cascades keeps the store well formed. *)
Lemma todo_delete_wf id db u db' :
  wf db -> todo_delete id db = Done (u, db') -> wf db'.
Proof.
  intros [W1 W2 W3 W4 W5] H. prim_inv H. constructor; simpl; auto.
  - now apply NoDup_map_filter.
  - intros x Hx. apply filter_In in Hx. destruct Hx as [Hx _]. auto.
  - now apply NoDup_map_filter.
  - intros x y Hxy. apply filter_In in Hxy. destruct Hxy as [Hxy Hne].
    simpl in Hne. apply andb_true_iff in Hne. destruct Hne as [Hx Hy].
    apply negb_true_iff, Z.eqb_neq in Hx. apply negb_true_iff, Z.eqb_neq in Hy.
    unfold todo_exists. simpl. rewrite !existsb_filter_other by assumption.
    exact (W5 _ _ Hxy).
Qed.

(** The statements of a transaction keep [Inv]. *)
Ltac inv_frame :=
  repeat first
    [ apply Inv_connect
    | apply Inv_disconnect
    | apply Inv_todo_update
    | apply Inv_tagsOnTodos_create
    | apply Inv_tagsOnTodos_deleteMany
    | apply Inv_note_create
    | apply Inv_note_deleteMany
    | apply Inv_todoHistory_create
    | apply preserves_ret
    | apply preserves_lift
    | apply preserves_tx_tagIds_of
    | apply preserves_bind; [|intros ?]
    | apply preserves_for; intros ?
    | apply preserves_when
    | match goal with |- preserves _ (if ?c then _ else _) => destruct c end ].

(** ** Sequences are not rolled back *)

Lemma counters_le_refl d : counters_le d d.
Proof. unfold counters_le. lia. Qed.

Lemma counters_le_trans a b c : counters_le a b -> counters_le b c -> counters_le a c.
Proof. unfold counters_le. lia. Qed.

Lemma draws_ret {A} (a : A) : draws (tx_ret a).
Proof. intros db. apply counters_le_refl. Qed.

Lemma draws_lift {A} (o : option A) : draws (tx_lift o).
Proof. intros db. unfold tx_lift. destruct o; apply counters_le_refl. Qed.

Lemma draws_bind {A B} (m : Tx A) (k : A -> Tx B) :
  draws m -> (forall a, draws (k a)) -> draws (tx_bind m k).
Proof.
  intros Hm Hk db. unfold tx_bind. specialize (Hm db).
  destruct (m db) as [[a db1]|d]; simpl in Hm; [|exact Hm].
  eapply counters_le_trans; [exact Hm | apply Hk].
Qed.

Lemma draws_for {A} (xs : list A) (body : A -> Tx unit) :
  (forall x, draws (body x)) -> draws (tx_for xs body).
Proof.
  intros Hbody. induction xs as [|x r IH]; simpl.
  - apply draws_ret.
  - apply draws_bind; [apply Hbody | intros _; exact IH].
Qed.

Lemma draws_when c (m : Tx unit) : draws m -> draws (tx_when c m).
Proof. intros Hm. destruct c; simpl; [exact Hm | apply draws_ret]. Qed.

(** Every statement of the query layer leaves the counters or moves them
    forward. *)
Ltac draws_prim :=
  let db := fresh "db" in
  intros db;
  unfold todo_create, todo_update, tagsOnTodos_create, tagsOnTodos_deleteMany,
    note_create, note_deleteMany, todoHistory_create, todo_delete, disconnect,
    tx_tagIds_of;
  repeat match goal with
  | |- context [if ?c then _ else _] => destruct c
  | |- context [match ?x with _ => _ end] => destruct x
  end;
  unfold counters_le; simpl; lia.

Ltac draws_frame :=
  repeat first
    [ apply draws_ret
    | apply draws_lift
    | apply draws_bind; [|intros ?]
    | apply draws_for; intros ?
    | apply draws_when
    | match goal with |- draws (if ?c then _ else _) => destruct c end
    | match goal with |- draws (connect _ _) => unfold connect end
    | draws_prim ].

Lemma draws_postTodo_tx now b : draws (postTodo_tx now b).
Proof. unfold postTodo_tx. draws_frame. Qed.

Lemma draws_putTodo_tx now id changes b : draws (putTodo_tx now id changes b).
Proof. unfold putTodo_tx. draws_frame. Qed.

Lemma draws_toggleTodo_tx now id t : draws (toggleTodo_tx now id t).
Proof. unfold toggleTodo_tx. draws_frame. Qed.

Lemma draws_todo_delete id : draws (todo_delete id).
Proof. draws_prim. Qed.

(** What a statement that threw leaves behind. *)
Lemma draws_Failed {A} (m : Tx A) db d :
  draws m -> m db = Failed d -> counters_le db d.
Proof. intros Hm E. specialize (Hm db). now rewrite E in Hm. Qed.

Lemma same_rows_rollback db d : same_rows db (rollback db d).
Proof. unfold same_rows. simpl. repeat split. Qed.

Lemma wf_rollback db d : wf db -> counters_le db d -> wf (rollback db d).
Proof.
  intros [H1 H2 H3 H4 H5] [Hc _]. constructor; simpl; auto.
  intros t Ht. specialize (H2 t Ht). lia.
Qed.

Lemma postTodo_wf now b db : wf db -> wf (fst (postTodo now b db)).
Proof.
  intros Hwf. unfold postTodo.
  destruct (postTodo_checks db b) as [[[u c] n]|r|]; simpl; auto.
  destruct (postTodo_tx now b db) as [[todo db1]|d] eqn:E; simpl;
    [|apply wf_rollback;
      [exact Hwf | exact (draws_Failed _ _ _ (draws_postTodo_tx now b) E)]].
  assert (Hwf1 : wf db1).
  { unfold postTodo_tx in E.
    do 6 (apply tx_bind_Done in E; destruct E as [? [? [Hl E]]];
          apply tx_lift_Done in Hl; destruct Hl as [? ->]).
    apply tx_bind_Done in E. destruct E as [t [db0 [Hc E]]].
    pose proof (todo_create_Inv _ _ _ _ _ _ _ _ _ Hwf Hc) as HI.
    carry HI E; [inv_frame | exact (proj1 K)]. }
  destruct (findUnique db1 (Todo.id todo)); exact Hwf1.
Qed.

Lemma putTodo_checks_found db idParam b id changes :
  putTodo_checks db idParam b = Ok (id, changes) ->
  parseInt_string idParam = Some id /\ exists t, findUnique db id = Some t.
Proof.
  unfold putTodo_checks. intros H.
  apply bind_Ok in H. destruct H as [found [Hpre H]].
  apply putTodo_prechecks_id in Hpre.
  repeat (apply bind_Ok in H; destruct H as [? [_ H]]).
  inversion H; subst found. exact Hpre.
Qed.

Lemma putTodo_wf now idParam b db : wf db -> wf (fst (putTodo now idParam b db)).
Proof.
  intros Hwf. unfold putTodo.
  destruct (putTodo_checks db idParam b) as [[id changes]|r|] eqn:Echk; simpl; auto.
  destruct (putTodo_tx now id changes b db) as [[res db1]|d] eqn:E; simpl;
    [|apply wf_rollback;
      [exact Hwf | exact (draws_Failed _ _ _ (draws_putTodo_tx now id changes b) E)]].
  assert (Hwf1 : wf db1).
  { apply putTodo_checks_found in Echk. destruct Echk as [_ Hex].
    apply findUnique_exists in Hex.
    assert (HI : Inv id db) by (split; assumption).
    unfold putTodo_tx in E. carry HI E; [inv_frame | exact (proj1 K)]. }
  destruct (findUnique db1 id); exact Hwf1.
Qed.

Lemma deleteTodo_wf idParam db : wf db -> wf (fst (deleteTodo idParam db)).
Proof.
  intros Hwf. unfold deleteTodo.
  destruct (parseInt_string idParam) as [id|]; simpl; auto.
  destruct (findUnique db id); simpl; auto.
  destruct (todo_delete id db) as [[u db1]|d] eqn:E; simpl;
    [|apply wf_rollback;
      [exact Hwf | exact (draws_Failed _ _ _ (draws_todo_delete id) E)]].
  eapply todo_delete_wf; eassumption.
Qed.

Lemma toggleTodo_wf now idParam db : wf db -> wf (fst (toggleTodo now idParam db)).
Proof.
  intros Hwf. unfold toggleTodo.
  destruct (parseInt_string idParam) as [id|]; simpl; auto.
  destruct (findUnique db id) as [t|] eqn:Hfind; simpl; auto.
  destruct (toggleTodo_tx now id t db) as [[res db1]|d] eqn:E; simpl;
    [|apply wf_rollback;
      [exact Hwf | exact (draws_Failed _ _ _ (draws_toggleTodo_tx now id t) E)]].
  assert (HI : Inv id db).
  { split; [assumption|]. apply findUnique_exists. eauto. }
  unfold toggleTodo_tx in E. carry HI E; [inv_frame | exact (proj1 K)].
Qed.

(** Every request leaves a well-formed store well formed. *)
Lemma handle_wf now r db : wf db -> wf (fst (handle now r db)).
Proof.
  intros Hwf. destruct r as [q|b|idParam b|idParam|idParam]; simpl.
  - unfold getTodos. destruct (getTodos_read db q); exact Hwf.
  - now apply postTodo_wf.
  - now apply putTodo_wf.
  - now apply deleteTodo_wf.
  - now apply toggleTodo_wf.
Qed.

Lemma run_wf rs db : wf db -> wf (run rs db).
Proof.
  revert db. induction rs as [|[now r] rest IH]; intros db Hwf; simpl.
  - exact Hwf.
  - apply IH. now apply handle_wf.
Qed.

(** ** C10: the tag join *)

Lemma tag_loop_rows now id existingTagIds xs :
  forall db u db',
    tx_for xs (fun tagId =>
      tx_bind (tx_lift (parseInt tagId)) (fun parsedId =>
        if includes existingTagIds parsedId then tx_ret tt
        else tagsOnTodos_create now id parsedId)) db = Done (u, db') ->
    exists T, parseInts xs = Some T
              /\ tagsOnTodos db'
                 = (tagsOnTodos db ++ new_tag_rows now id existingTagIds T)%list.
Proof.
  induction xs as [|x r IH]; intros db u db' H; simpl in H.
  - apply tx_ret_Done in H. destruct H as [_ ->]. exists []. split; [reflexivity|].
    unfold new_tag_rows. simpl. now rewrite app_nil_r.
  - apply tx_bind_Done in H. destruct H as [u1 [db1 [Hbody H]]].
    apply tx_bind_Done in Hbody. destruct Hbody as [g [db0 [Hg Hbody]]].
    apply tx_lift_Done in Hg. destruct Hg as [Hg ->].
    destruct (IH _ _ _ H) as [T [HT Hrows]].
    exists (g :: T). simpl. rewrite Hg, HT. split; [reflexivity|].
    rewrite Hrows. unfold new_tag_rows. simpl.
    destruct (includes existingTagIds g) eqn:E; simpl.
    + apply tx_ret_Done in Hbody. destruct Hbody as [_ ->]. reflexivity.
    + prim_inv Hbody. simpl. rewrite <- app_assoc. reflexivity.
Qed.

Lemma remaining_tag_rows_nil id rows : remaining_tag_rows id [] rows = rows.
Proof.
  unfold remaining_tag_rows. rewrite <- (filter_all rows) at 2.
  apply filter_ext. intros r. simpl. now rewrite andb_false_r.
Qed.

(** The rows of tags_on_todos after the transaction of an update. *)
Lemma putTodo_tx_tags now id changes b db res db' :
  putTodo_tx now id changes b db = Done (res, db') ->
  exists R T,
    parseInts (UpdateBody.removeTags b) = Some R
    /\ parseInts (UpdateBody.tagIds b) = Some T
    /\ tagsOnTodos db'
       = (remaining_tag_rows id R (tagsOnTodos db)
          ++ new_tag_rows now id
               (tagIds_in (remaining_tag_rows id R (tagsOnTodos db)) id) T)%list.
Proof.
  unfold putTodo_tx. intros H.
  apply tx_bind_Done in H. destruct H as [data [db0 [Hdata H]]].
  apply tx_lift_Done in Hdata. destruct Hdata as [_ ->].
  apply tx_bind_Done in H. destruct H as [t [db1 [Hupd H]]].
  assert (E1 : tagsOnTodos db1 = tagsOnTodos db) by (prim_inv Hupd; reflexivity).
  apply tx_bind_Done in H. destruct H as [u2 [db2 [Hrem H]]].
  assert (E2 : exists R, parseInts (UpdateBody.removeTags b) = Some R
                         /\ tagsOnTodos db2 = remaining_tag_rows id R (tagsOnTodos db)).
  { destruct (UpdateBody.removeTags b) as [|y ys] eqn:Eb.
    - simpl in Hrem. apply tx_ret_Done in Hrem. destruct Hrem as [_ ->].
      exists []. split; [reflexivity|]. now rewrite remaining_tag_rows_nil.
    - cbn [nonempty tx_when] in Hrem.
      apply tx_bind_Done in Hrem. destruct Hrem as [R [db3 [HR Hrem]]].
      apply tx_lift_Done in HR. destruct HR as [HR ->].
      exists R. split; [exact HR|]. prim_inv Hrem. simpl. now rewrite E1. }
  destruct E2 as [R [HR E2]].
  apply tx_bind_Done in H. destruct H as [u3 [db3 [Hadd H]]].
  assert (E3 : exists T, parseInts (UpdateBody.tagIds b) = Some T
                         /\ tagsOnTodos db3
                            = (tagsOnTodos db2
                               ++ new_tag_rows now id (tagIds_in (tagsOnTodos db2) id) T)%list).
  { destruct (UpdateBody.tagIds b) as [|y ys] eqn:Eb.
    - simpl in Hadd. apply tx_ret_Done in Hadd. destruct Hadd as [_ ->].
      exists []. split; [reflexivity|]. unfold new_tag_rows. simpl.
      now rewrite app_nil_r.
    - cbn [nonempty tx_when] in Hadd.
      apply tx_bind_Done in Hadd. destruct Hadd as [E [db4 [HE Hadd]]].
      prim_inv HE. apply tag_loop_rows in Hadd. exact Hadd. }
  destruct E3 as [T [HT E3]].
  exists R, T. split; [exact HR|]. split; [exact HT|].
  assert (E4 : tagsOnTodos db' = tagsOnTodos db3).
  { clear E3. remember (tagsOnTodos db3) as X eqn:EX. symmetry in EX.
    carry EX H; [frame | exact K]. }
  rewrite E4, E3, E2. reflexivity.
Qed.

Lemma In_tagIds_in rows todo g :
  In g (tagIds_in rows todo)
  <-> exists r, In r rows /\ TagsOnTodos.todoId r = todo /\ TagsOnTodos.tagId r = g.
Proof.
  unfold tagIds_in. rewrite in_map_iff. split.
  - intros [r [Hg Hr]]. apply filter_In in Hr. destruct Hr as [Hin Ht].
    apply Z.eqb_eq in Ht. eauto.
  - intros [r [Hin [Ht Hg]]]. exists r. split; [assumption|].
    apply filter_In. split; [assumption | now apply Z.eqb_eq].
Qed.

Lemma In_remaining_tag_rows id R rows todo g :
  In g (tagIds_in (remaining_tag_rows id R rows) todo)
  <-> In g (tagIds_in rows todo) /\ ~ (todo = id /\ In g R).
Proof.
  rewrite !In_tagIds_in. unfold remaining_tag_rows. split.
  - intros [r [Hin [Ht Hg]]]. apply filter_In in Hin. destruct Hin as [Hin Hkeep].
    split; [eauto|]. intros [Hid HR].
    apply negb_true_iff, andb_false_iff in Hkeep. destruct Hkeep as [Hk|Hk].
    + apply Z.eqb_neq in Hk. congruence.
    + apply includes_false in Hk. congruence.
  - intros [[r [Hin [Ht Hg]]] Hnot]. exists r. repeat split; try assumption.
    apply filter_In. split; [assumption|].
    apply negb_true_iff, andb_false_iff.
    destruct (TagsOnTodos.todoId r =? id) eqn:E; [right | now left].
    apply Z.eqb_eq in E. apply includes_false. intros HR. apply Hnot.
    split; congruence.
Qed.

Lemma In_new_tag_rows now id existing T todo g :
  In g (tagIds_in (new_tag_rows now id existing T) todo)
  <-> todo = id /\ In g T /\ ~ In g existing.
Proof.
  rewrite In_tagIds_in. unfold new_tag_rows. split.
  - intros [r [Hin [Ht Hg]]]. apply in_map_iff in Hin.
    destruct Hin as [g' [<- Hin]]. simpl in *. subst.
    apply filter_In in Hin. destruct Hin as [Hin Hnew].
    apply negb_true_iff, includes_false in Hnew. auto.
  - intros [-> [Hin Hnew]]. exists (TagsOnTodos.mk id g now). simpl.
    repeat split. apply in_map_iff. exists g. split; [reflexivity|].
    apply filter_In. split; [assumption|].
    now apply negb_true_iff, includes_false.
Qed.

Lemma tagIds_in_app rows1 rows2 todo g :
  In g (tagIds_in (rows1 ++ rows2) todo)
  <-> In g (tagIds_in rows1 todo) \/ In g (tagIds_in rows2 todo).
Proof.
  unfold tagIds_in. rewrite filter_app, map_app. apply in_app_iff.
Qed.

(** The tag set of every todo after the transaction of an update: the tags
    that were joined and are not removed, and the listed tags. *)
Lemma putTodo_tx_tag_set now id changes b db res db' :
  putTodo_tx now id changes b db = Done (res, db') ->
  exists R T,
    parseInts (UpdateBody.removeTags b) = Some R
    /\ parseInts (UpdateBody.tagIds b) = Some T
    /\ forall todo g,
         In g (tagIds_of db' todo)
         <-> (In g (tagIds_of db todo) /\ ~ (todo = id /\ In g R))
             \/ (todo = id /\ In g T).
Proof.
  intros H. destruct (putTodo_tx_tags _ _ _ _ _ _ _ H) as [R [T [HR [HT Hrows]]]].
  exists R, T. split; [exact HR|]. split; [exact HT|].
  intros todo g. change (tagIds_of db' todo) with (tagIds_in (tagsOnTodos db') todo).
  change (tagIds_of db todo) with (tagIds_in (tagsOnTodos db) todo).
  rewrite Hrows, tagIds_in_app, In_new_tag_rows, !In_remaining_tag_rows.
  split.
  - intros [Hl|[Hid [Hin _]]]; [now left | now right].
  - intros [Hl|[Hid Hin]]; [now left|].
    destruct (includes (tagIds_in (tagsOnTodos db) id) g) eqn:E1.
    + apply includes_In in E1.
      destruct (includes R g) eqn:E2.
      * apply includes_In in E2. right. repeat split; try assumption.
        intros [_ Hno]. apply Hno. auto.
      * apply includes_false in E2. left. subst todo. split; [assumption|].
        intros [_ HRg]. contradiction.
    + apply includes_false in E1. right. repeat split; try assumption.
      intros [Hold _]. contradiction.
Qed.

Lemma same_rows_refl db : same_rows db db.
Proof. unfold same_rows. repeat split. Qed.


Lemma parseInts_In l : forall R g,
  parseInts l = Some R -> In g R -> exists y, In y l /\ parseInt y = Some g.
Proof.
  induction l as [|x r IH]; intros R g H Hg; simpl in H.
  - inversion H; subst. contradiction.
  - destruct (parseInt x) as [z|] eqn:Ex; [|discriminate].
    destruct (parseInts r) as [zs|]; [|discriminate].
    inversion H; subst R. destruct Hg as [<-|Hg].
    + exists x. split; [now left | assumption].
    + destruct (IH _ _ eq_refl Hg) as [y [Hy Hp]]. exists y. split; [now right | assumption].
Qed.


Lemma filter_none {A} (p : A -> bool) (l : list A) :
  (forall x, In x l -> p x = false) -> filter p l = [].
Proof.
  induction l as [|x r IH]; simpl; intros H; [reflexivity|].
  rewrite (H x (or_introl eq_refl)). apply IH. auto.
Qed.

Lemma client_error_putTodo_checks db idParam b :
  client_error (putTodo_checks db idParam b).
Proof.
  unfold putTodo_checks.
  apply client_error_bind; [apply client_error_putTodo_prechecks | intros found].
  apply client_error_bind.
  { unfold check_circular. destruct (UpdateBody.dependencies b); [apply client_error_Ok|].
    apply client_error_bind; [apply client_error_guard | intros ?].
    apply client_error_guard. }
  intros ?. apply client_error_bind; [apply client_error_validate_ids | intros ?].
  apply client_error_Ok.
Qed.

(** A PUT that is answered 200 has committed its transaction. *)
Lemma putTodo_200 now idParam b db :
  status (snd (putTodo now idParam b db)) = 200 ->
  exists id changes res,
    parseInt_string idParam = Some id
    /\ putTodo_tx now id changes b db = Done (res, fst (putTodo now idParam b db)).
Proof.
  unfold putTodo.
  destruct (putTodo_checks db idParam b) as [[id changes]|r|] eqn:Echk; simpl;
    try discriminate.
  - destruct (putTodo_tx now id changes b db) as [[res db1]|] eqn:E; simpl;
      try discriminate.
    destruct (findUnique db1 id); simpl; try discriminate.
    intros _. exists id, changes, res.
    apply putTodo_checks_found in Echk. destruct Echk as [Hid _]. auto.
  - intros Hr. destruct (client_error_putTodo_checks db idParam b r Echk) as [H|H];
      rewrite H in Hr; discriminate.
Qed.


(** Tag 1 is already joined to todo 1 of [chain_store]; the update lists it
    again. *)
Example update_skips_joined_tag :
  tagsOnTodos (fst (putTodo 2000 "1" (update_tagIds [JNum 1; JStr "2"]) chain_store))
  = [TagsOnTodos.mk 1 1 1001; TagsOnTodos.mk 1 2 2000].
Proof. reflexivity. Qed.

(** ** Where a self-loop cannot come from *)

(** The numeric form of the todo's own id never gets past step 7 of an
    update. *)
Lemma putTodo_numeric_self_refused now idParam id b db :
  parseInt_string idParam = Some id ->
  includes_json (UpdateBody.dependencies b) id = true ->
  fst (putTodo now idParam b db) = db
  /\ status (snd (putTodo now idParam b db)) <> 200
  /\ (forall found,
        putTodo_prechecks db idParam b = Ok found ->
        snd (putTodo now idParam b db)
        = mkResponse 400 (Error "A todo cannot depend on itself")).
Proof.
  intros Hid Hself. unfold putTodo, putTodo_checks.
  destruct (putTodo_prechecks db idParam b) as [found|r|] eqn:E; simpl.
  - destruct (putTodo_prechecks_id _ _ _ _ E) as [Hfound _].
    rewrite Hid in Hfound. inversion Hfound as [Hf]. rewrite <- Hf.
    rewrite (check_circular_self db id _ Hself). simpl.
    repeat split; intros; try discriminate; reflexivity.
  - split; [reflexivity|]. split.
    + destruct (client_error_putTodo_prechecks db idParam b r E) as [H|H];
        rewrite H; discriminate.
    + intros found Hf. discriminate.
  - split; [reflexivity|]. split; [discriminate|]. intros found Hf. discriminate.
Qed.

(** When as many rows carry a listed id as there are listed ids, and ids
    are unique among the rows, every listed id belongs to a row. *)
Lemma counted_ids_exist {Row} (id_of : Row -> Z) (rows : list Row) (ids : list Z) :
  NoDup (map id_of rows) ->
  length (filter (fun r => includes ids (id_of r)) rows) = length ids ->
  forall z, In z ids -> In z (map id_of rows).
Proof.
  intros Hnd Hlen z Hz.
  set (found := map id_of (filter (fun r => includes ids (id_of r)) rows)).
  assert (Hnd' : NoDup found) by (now apply NoDup_map_filter).
  assert (Hincl : incl found ids).
  { intros y Hy. unfold found in Hy. apply in_map_iff in Hy.
    destruct Hy as [r [<- Hr]]. apply filter_In in Hr. destruct Hr as [_ Hr].
    now apply includes_In. }
  assert (Hle : (length ids <= length found)%nat).
  { unfold found. rewrite length_map, Hlen. lia. }
  pose proof (NoDup_length_incl Hnd' Hle Hincl) as Hback.
  specialize (Hback z Hz). unfold found in Hback. apply in_map_iff in Hback.
  destruct Hback as [r [<- Hr]]. apply filter_In in Hr. destruct Hr as [Hr _].
  now apply in_map.
Qed.

(** Step 4 of a create or step 6 of an update: the listed dependencies
    exist once the count matches. *)
Lemma validated_dependencies_exist db xs msg ids :
  wf db ->
  validate_ids (todo_count_in db) xs msg = Ok tt ->
  parseInts xs = Some ids ->
  forall z, In z ids -> todo_exists db z = true.
Proof.
  intros Hwf Hval Hparse z Hz. unfold validate_ids in Hval.
  destruct xs as [|x xs']; [simpl in Hparse; inversion Hparse; subst; contradiction|].
  rewrite Hparse in Hval. simpl in Hval. unfold guard in Hval.
  destruct (todo_count_in db ids =? len (x :: xs')) eqn:E; [|discriminate].
  apply Z.eqb_eq in E. unfold todo_count_in, todo_count, len in E.
  apply Nat2Z.inj in E.
  assert (Hlen : length (x :: xs') = length ids).
  { clear -Hparse. revert ids Hparse. generalize (x :: xs') as l.
    induction l as [|y l IH]; intros ids H; simpl in H.
    - now inversion H.
    - destruct (parseInt y); [|discriminate].
      destruct (parseInts l) as [zs|]; [|discriminate].
      inversion H; subst. simpl. f_equal. now apply IH. }
  rewrite Hlen in E.
  pose proof (counted_ids_exist Todo.id (todos db) ids (wf_todo_ids db Hwf) E z Hz) as Hin.
  apply in_map_iff in Hin. destruct Hin as [t [Ht Hin]].
  apply todo_exists_In. eauto.
Qed.

(** A create never commits a self-loop: the new todo's id is not the id of
    a stored todo, and a dependency that is not stored is refused. *)
Lemma postTodo_adds_no_self_loop now b db a :
  well_formed db = true ->
  In (a, a) (todoDependencies (fst (postTodo now b db))) ->
  In (a, a) (todoDependencies db).
Proof.
  intros Hwf Hin. apply well_formed_wf in Hwf. unfold postTodo in Hin.
  destruct (postTodo_checks db b) as [[[u c] n]|r|] eqn:Echk; simpl in Hin; auto.
  destruct (postTodo_tx now b db) as [[todo db']|] eqn:E; simpl in Hin; auto.
  assert (Hin' : In (a, a) (todoDependencies db')).
  { destruct (findUnique db' (Todo.id todo)); exact Hin. }
  destruct (postTodo_tx_edges _ _ _ _ _ E) as [ids [Hids [_ Hedges]]].
  destruct (Hedges _ Hin') as [H|[Ha Hdep]]; [assumption|]. simpl in Ha, Hdep.
  exfalso. unfold postTodo_checks in Echk.
  do 4 (apply bind_Ok in Echk; destruct Echk as [? [_ Echk]]).
  apply bind_Ok in Echk. destruct Echk as [[] [Hval _]].
  pose proof (validated_dependencies_exist _ _ _ _ Hwf Hval Hids a Hdep) as Hex.
  pose proof (next_id_fresh db Hwf) as Hfresh. congruence.
Qed.

(** ** The local check in general *)

Lemma count_of_stored_id (rows : list Todo.t) (A : Z) :
  NoDup (map Todo.id rows) ->
  existsb (fun t => Todo.id t =? A) rows = true ->
  length (filter (fun t => includes [A] (Todo.id t)) rows) = 1%nat.
Proof.
  induction rows as [|row rest IH]; simpl; intros Hnd Hex; [discriminate|].
  inversion Hnd as [|? ? Hfresh Hrest]; subst.
  rewrite orb_false_r.
  destruct (Todo.id row =? A) eqn:E; simpl.
  - f_equal. rewrite filter_none; [reflexivity|].
    intros x Hx. simpl. rewrite orb_false_r.
    destruct (Todo.id x =? A) eqn:E'; [|reflexivity].
    exfalso. apply Hfresh. apply Z.eqb_eq in E, E'. rewrite E, <- E'.
    now apply in_map.
  - apply IH; assumption.
Qed.

Lemma tx_bind_run {A B} (m : Tx A) (k : A -> Tx B) db a db1 :
  m db = Done (a, db1) -> tx_bind m k db = k a db1.
Proof. intros H. unfold tx_bind. now rewrite H. Qed.

Lemma todo_update_no_fields_ok now id t db :
  findUnique db id = Some t ->
  todo_update now id no_fields db
  = Done (apply_update now no_fields t,
          with_todos db (rewrite_rows id (apply_update now no_fields) (todos db))
            (todos_id_seq db)).
Proof. intros H. unfold todo_update. rewrite H. reflexivity. Qed.

(** An update that makes C depend on A is answered 200 and commits the edge
    whenever both are stored todos, A is not C and A does not directly
    depend on C; whether A reaches C over longer paths plays no part. *)
Lemma putTodo_accepts_indirect_cycle now idParam db A C :
  well_formed db = true ->
  parseInt_string idParam = Some C ->
  todo_exists db C = true ->
  todo_exists db A = true ->
  A <> C ->
  ~ In (A, C) (todoDependencies db) ->
  status (snd (putTodo now idParam (update_dependencies [JNum A]) db)) = 200
  /\ todoDependencies (fst (putTodo now idParam (update_dependencies [JNum A]) db))
     = add_edge (todoDependencies db) C A.
Proof.
  intros Hwf Hid HC HA Hne Hdirect. apply well_formed_wf in Hwf.
  destruct (proj1 (findUnique_exists db C) HC) as [t Hfind].
  assert (Hcount : todo_count_in db [A] = 1).
  { unfold todo_count_in, todo_count.
    rewrite (count_of_stored_id (todos db) A (wf_todo_ids db Hwf) HA). reflexivity. }
  assert (Hpre : putTodo_prechecks db idParam (update_dependencies [JNum A])
                 = Ok (C, ["dependencies"])).
  { unfold putTodo_prechecks. rewrite Hid. simpl. rewrite Hfind. simpl.
    rewrite Hcount. reflexivity. }
  assert (Hcirc : check_circular db C [JNum A] = Ok tt).
  { apply check_circular_local.
    - simpl. rewrite orb_false_r. now apply Z.eqb_neq.
    - intros d z [<-|[]] Hz. simpl in Hz. inversion Hz; subst. exact Hdirect. }
  assert (Hchk : putTodo_checks db idParam (update_dependencies [JNum A])
                 = Ok (C, ["dependencies"])).
  { unfold putTodo_checks. rewrite Hpre. cbn [bind fst].
    change (UpdateBody.dependencies (update_dependencies [JNum A])) with [JNum A].
    rewrite Hcirc. reflexivity. }
  set (touch := rewrite_rows C (apply_update now no_fields)).
  set (db1 := with_todos db (touch (todos db)) (todos_id_seq db)).
  set (db2 := with_todos db1 (touch (todos db1)) (todos_id_seq db1)).
  set (db3 := with_todoDependencies db2 (add_edge (todoDependencies db2) C A)).
  assert (Hfind1 : findUnique db1 C = Some (apply_update now no_fields t)).
  { unfold findUnique, db1, touch. simpl.
    rewrite find_rewrite_rows by apply apply_update_id.
    unfold findUnique in Hfind. rewrite Hfind. simpl.
    apply find_some in Hfind. destruct Hfind as [_ ->]. reflexivity. }
  assert (Hex3 : forall k, todo_exists db3 k = todo_exists db k).
  { intros k. unfold todo_exists, db3, db2, db1, touch. simpl.
    rewrite !existsb_rewrite_rows by apply apply_update_id. reflexivity. }
  assert (Hdeps : tx_when true
                    (tx_bind (tx_lift (parseInts [JNum A])) (fun ids =>
                       tx_bind (todo_update now C no_fields) (fun _ => connect C ids)))
                    db1 = Done (tt, db3)).
  { cbn [tx_when].
    rewrite (tx_bind_run _ _ db1 [A] db1) by reflexivity. cbv beta.
    rewrite (tx_bind_run _ _ db1 _ db2 (todo_update_no_fields_ok now C _ db1 Hfind1)).
    unfold connect. cbn [tx_for].
    rewrite (tx_bind_run _ _ db2 tt db3); [reflexivity|].
    change (todo_exists db2 A) with (todo_exists db3 A).
    rewrite (Hex3 A), HA. reflexivity. }
  assert (Htx : exists res db',
             putTodo_tx now C ["dependencies"] (update_dependencies [JNum A]) db
             = Done (res, db')
             /\ todoDependencies db' = add_edge (todoDependencies db) C A
             /\ todo_exists db' C = true).
  { unfold putTodo_tx.
    rewrite (tx_bind_run _ _ db no_fields db) by reflexivity. cbv beta.
    rewrite (tx_bind_run _ _ db _ db1 (todo_update_no_fields_ok now C t db Hfind)).
    do 4 (rewrite (tx_bind_run _ _ db1 tt db1) by reflexivity).
    rewrite (tx_bind_run _ _ db1 tt db3 Hdeps).
    rewrite (tx_bind_run _ _ db3 tt db3) by reflexivity.
    unfold todoHistory_create at 1. unfold tx_bind at 1.
    rewrite (Hex3 C), HC.
    do 2 eexists. split; [reflexivity|]. split; [reflexivity|].
    change (todo_exists db3 C = true). now rewrite Hex3. }
  destruct Htx as [res [db' [Htx [Hedges Hex']]]].
  unfold putTodo. rewrite Hchk, Htx.
  destruct (proj1 (findUnique_exists db' C) Hex') as [t' Hfind'].
  rewrite Hfind'. simpl. split; [reflexivity | exact Hedges].
Qed.

(** * Further properties of the code *)

(** ** Start of the server: the port retry loop *)

(** What a run of [tryBinding] ends in, for any fuel that covers the
    attempts that are left. *)
Lemma tryBinding_result listen maxAttempts :
  forall fuel currentPort attempts,
    0 <= attempts ->
    maxAttempts - attempts - 1 <= Z.of_nat fuel ->
    let tries := Z.max 1 (maxAttempts - attempts) in
    match tryBinding listen maxAttempts fuel currentPort attempts with
    | Running p =>
        currentPort <= p < currentPort + tries
        /\ listen p = listening
        /\ forall q, currentPort <= q < p -> listen q = EADDRINUSE
    | ServerError p =>
        currentPort <= p < currentPort + tries
        /\ listen p = other_error
        /\ forall q, currentPort <= q < p -> listen q = EADDRINUSE
    | NoPortFound n =>
        n = attempts + tries
        /\ forall q, currentPort <= q < currentPort + tries -> listen q = EADDRINUSE
    | Unfinished => False
    end.
Proof.
  induction fuel as [|fuel IH]; intros port attempts Hatt Hfuel; simpl.
  - destruct (listen port) eqn:E.
    + repeat split; first [lia | assumption].
    + destruct (attempts + 1 <? maxAttempts) eqn:Elt.
      * apply Z.ltb_lt in Elt. simpl in Hfuel. lia.
      * apply Z.ltb_ge in Elt. split; [lia|].
        intros q Hq. assert (q = port) by lia. now subst.
    + repeat split; first [lia | assumption].
  - destruct (listen port) eqn:E.
    + repeat split; first [lia | assumption].
    + destruct (attempts + 1 <? maxAttempts) eqn:Elt.
      * apply Z.ltb_lt in Elt.
        assert (Hfuel' : maxAttempts - (attempts + 1) - 1 <= Z.of_nat fuel) by lia.
        specialize (IH (port + 1) (attempts + 1) ltac:(lia) Hfuel'). simpl in IH.
        destruct (tryBinding listen maxAttempts fuel (port + 1) (attempts + 1)).
        -- destruct IH as [Hr [Hl Hbusy]]. repeat split; try lia; try assumption.
           intros q Hq. destruct (Z.eq_dec q port) as [->|Hne];
             [assumption | apply Hbusy; lia].
        -- destruct IH as [Hn Hbusy]. split; [lia|].
           intros q Hq. destruct (Z.eq_dec q port) as [->|Hne];
             [assumption | apply Hbusy; lia].
        -- destruct IH as [Hr [Hl Hbusy]]. repeat split; try lia; try assumption.
           intros q Hq. destruct (Z.eq_dec q port) as [->|Hne];
             [assumption | apply Hbusy; lia].
        -- contradiction.
      * apply Z.ltb_ge in Elt. split; [lia|].
        intros q Hq. assert (q = port) by lia. now subst.
    + repeat split; first [lia | assumption].
Qed.

(** X1: [startServer] always comes to an end.  It tries the ports from
    [initialPort] upwards, at most [maxAttempts] of them and at least one:
    it runs on the first port that is not in use, stops at the first port
    that fails for another reason, and gives up when all the ports it may
    try are in use. *)
Theorem X1_startServer_result listen initialPort maxAttempts :
  let tries := Z.max 1 maxAttempts in
  match startServer listen initialPort maxAttempts with
  | Running p =>
      initialPort <= p < initialPort + tries
      /\ listen p = listening
      /\ forall q, initialPort <= q < p -> listen q = EADDRINUSE
  | ServerError p =>
      initialPort <= p < initialPort + tries
      /\ listen p = other_error
      /\ forall q, initialPort <= q < p -> listen q = EADDRINUSE
  | NoPortFound n =>
      n = tries
      /\ forall q, initialPort <= q < initialPort + tries -> listen q = EADDRINUSE
  | Unfinished => False
  end.
Proof.
  unfold startServer.
  pose proof (tryBinding_result listen maxAttempts (Z.to_nat maxAttempts)
                initialPort 0 ltac:(lia) ltac:(lia)) as H.
  simpl in H. rewrite Z.sub_0_r in H.
  destruct (tryBinding listen maxAttempts (Z.to_nat maxAttempts) initialPort 0);
    exact H.
Qed.

(** X2: when the first [k] ports from [initialPort] are in use, the next one
    is free and [k] is below the number of ports that may be tried, the
    server runs on port [initialPort + k]. *)
Theorem X2_startServer_first_free_port listen initialPort maxAttempts k :
  0 <= k < Z.max 1 maxAttempts ->
  (forall q, initialPort <= q < initialPort + k -> listen q = EADDRINUSE) ->
  listen (initialPort + k) = listening ->
  startServer listen initialPort maxAttempts = Running (initialPort + k).
Proof.
  intros Hk Hbusy Hfree.
  pose proof (tryBinding_result listen maxAttempts (Z.to_nat maxAttempts)
                initialPort 0 ltac:(lia) ltac:(lia)) as H.
  simpl in H. rewrite Z.sub_0_r in H. unfold startServer.
  destruct (tryBinding listen maxAttempts (Z.to_nat maxAttempts) initialPort 0)
    as [p|n|p|].
  - destruct H as [Hr [Hl Hb]]. f_equal.
    destruct (Z.lt_trichotomy p (initialPort + k)) as [Hlt|[Heq|Hgt]];
      [|assumption|].
    + rewrite (Hbusy p) in Hl by lia. discriminate.
    + rewrite (Hb (initialPort + k)) in Hfree by lia. discriminate.
  - destruct H as [_ Hb]. rewrite (Hb (initialPort + k)) in Hfree by lia.
    discriminate.
  - destruct H as [Hr [Hl Hb]].
    destruct (Z.lt_trichotomy p (initialPort + k)) as [Hlt|[Heq|Hgt]].
    + rewrite (Hbusy p) in Hl by lia. discriminate.
    + subst p. rewrite Hfree in Hl. discriminate.
    + rewrite (Hb (initialPort + k)) in Hfree by lia. discriminate.
  - contradiction.
Qed.

Lemma X2_startServer_first_free_port_witness :
  startServer (fun q => if q <? 3002 then EADDRINUSE else listening) 3000 10
  = Running (3000 + 2).
Proof.
  apply (X2_startServer_first_free_port
           (fun q => if q <? 3002 then EADDRINUSE else listening) 3000 10 2).
  - simpl. lia.
  - intros q Hq. destruct (q <? 3002) eqn:E; [reflexivity|].
    apply Z.ltb_ge in E. lia.
  - reflexivity.
Defined.

(** ** Invariants of the store under every request *)

(** X3: the keys of the schema hold in every store that a sequence of
    requests reaches from a well-formed store: todo ids stay unique and below
    the serial counter, tag ids and the composite key of tags_on_todos stay
    unique, and both ends of every dependency edge stay stored todos. *)
Theorem X3_requests_keep_store_well_formed rs db :
  well_formed db = true -> well_formed (run rs db) = true.
Proof.
  intros H. apply well_formed_wf. apply run_wf. now apply well_formed_wf.
Qed.

Lemma X3_requests_keep_store_well_formed_witness :
  well_formed
    (run [(2000, POST_todos (create_titled "A"));
          (2001, PUT_todo "4" (update_dependencies [JNum 1]));
          (2002, DELETE_todo "2");
          (2003, PATCH_toggle "4")] chain_store) = true.
Proof.
  apply (X3_requests_keep_store_well_formed
           [(2000, POST_todos (create_titled "A"));
            (2001, PUT_todo "4" (update_dependencies [JNum 1]));
            (2002, DELETE_todo "2");
            (2003, PATCH_toggle "4")] chain_store).
  reflexivity.
Defined.

Lemma references_live_spec db :
  references_live db = true <->
  (forall n, In n (notes db) -> todo_exists db (Note.todoId n) = true)
  /\ (forall h, In h (todoHistory db) -> todo_exists db (TodoHistory.todoId h) = true)
  /\ (forall a, In a (attachments db) -> todo_exists db (Attachment.todoId a) = true)
  /\ (forall r, In r (tagsOnTodos db) ->
        todo_exists db (TagsOnTodos.todoId r) = true
        /\ tag_exists db (TagsOnTodos.tagId r) = true)
  /\ (forall t, In t (todos db) ->
        fk_ok (user_exists db) (Todo.userId t) = true
        /\ fk_ok (category_exists db) (Todo.categoryId t) = true).
Proof.
  unfold references_live. rewrite !andb_true_iff, !forallb_forall.
  split.
  - intros [[[[H1 H2] H3] H4] H5].
    split; [exact H1|]. split; [exact H2|]. split; [exact H3|]. split.
    + intros r Hr. apply andb_true_iff. now apply H4.
    + intros t Ht. apply andb_true_iff. now apply H5.
  - intros (H1 & H2 & H3 & H4 & H5).
    split; [split; [split; [split|]|]|]; try assumption.
    + intros r Hr. apply andb_true_iff. now apply H4.
    + intros t Ht. apply andb_true_iff. now apply H5.
Qed.

(** The foreign keys as an invariant of a statement. *)
Ltac live_open HP :=
  apply references_live_spec in HP;
  destruct HP as (L1 & L2 & L3 & L4 & L5);
  apply references_live_spec.

Ltac live_split :=
  split; [|split; [|split; [|split]]];
  intros x Hx; simpl in Hx;
  try match goal with
      | L : forall _, In _ _ -> _ |- _ => now apply L
      end.

Lemma live_todo_update now id d :
  preserves (fun db => references_live db = true) (todo_update now id d).
Proof.
  intros db r db' HP H. live_open HP. prim_inv H.
  fold (rewrite_rows id (apply_update now d) (todos db)).
  assert (Hex : forall k,
            todo_exists (with_todos db (rewrite_rows id (apply_update now d) (todos db))
                           (todos_id_seq db)) k
            = todo_exists db k).
  { intros k. unfold todo_exists. simpl.
    apply existsb_rewrite_rows, apply_update_id. }
  apply andb_true_iff in Heqb. destruct Heqb as [Hu Hc].
  live_split; rewrite ?Hex; try first [now apply L1 | now apply L2 | now apply L3].
  - now apply L4.
  - unfold rewrite_rows in Hx. apply in_map_iff in Hx. destruct Hx as [y [<- Hy]].
    change (fk_ok (user_exists db) (Todo.userId
              (if Todo.id y =? id then apply_update now d y else y)) = true
            /\ fk_ok (category_exists db) (Todo.categoryId
              (if Todo.id y =? id then apply_update now d y else y)) = true).
    destruct (Todo.id y =? id); [|now apply L5]. simpl.
    destruct (L5 _ Hy) as [Hyu Hyc]. split.
    + destruct (in_userId d); [exact Hu | exact Hyu].
    + destruct (in_categoryId d); [exact Hc | exact Hyc].
Qed.

Lemma live_tagsOnTodos_create now todoId tagId :
  preserves (fun db => references_live db = true) (tagsOnTodos_create now todoId tagId).
Proof.
  intros db r db' HP H. live_open HP. prim_inv H.
  apply andb_true_iff in Heqb. destruct Heqb as [Hex _].
  apply andb_true_iff in Hex. destruct Hex as [Ht Hg].
  live_split.
  apply in_app_iff in Hx. destruct Hx as [Hx|[<-|[]]]; [now apply L4 | now split].
Qed.

Lemma live_tagsOnTodos_deleteMany todoId ids :
  preserves (fun db => references_live db = true) (tagsOnTodos_deleteMany todoId ids).
Proof.
  intros db r db' HP H. live_open HP. prim_inv H. live_split.
  apply filter_In in Hx. destruct Hx as [Hx _]. now apply L4.
Qed.

Lemma live_note_create now todoId content :
  preserves (fun db => references_live db = true) (note_create now todoId content).
Proof.
  intros db r db' HP H. live_open HP. prim_inv H. live_split.
  apply in_app_iff in Hx. destruct Hx as [Hx|[<-|[]]]; [now apply L1 | assumption].
Qed.

Lemma live_note_deleteMany ids :
  preserves (fun db => references_live db = true) (note_deleteMany ids).
Proof.
  intros db r db' HP H. live_open HP. prim_inv H. live_split.
  apply filter_In in Hx. destruct Hx as [Hx _]. now apply L1.
Qed.

Lemma live_todoHistory_create now todoId action description :
  preserves (fun db => references_live db = true)
    (todoHistory_create now todoId action description).
Proof.
  intros db r db' HP H. live_open HP. prim_inv H. live_split.
  apply in_app_iff in Hx. destruct Hx as [Hx|[<-|[]]]; [now apply L2 | assumption].
Qed.

Lemma live_connect a ids :
  preserves (fun db => references_live db = true) (connect a ids).
Proof.
  unfold connect. apply preserves_for. intros b db r db' HP H.
  destruct (todo_exists db b); [|discriminate]. inversion H; subst; clear H.
  exact HP.
Qed.

Lemma live_disconnect a ids :
  preserves (fun db => references_live db = true) (disconnect a ids).
Proof. intros db r db' HP H. prim_inv H. exact HP. Qed.

Lemma live_todo_create now title description priority userId categoryId :
  preserves (fun db => references_live db = true)
    (todo_create now title description priority userId categoryId).
Proof.
  intros db r db' HP H. live_open HP. prim_inv H.
  apply andb_true_iff in Heqb. destruct Heqb as [Hu Hc].
  assert (Hex : forall k, todo_exists db k = true ->
            todo_exists
              (with_todos db
                 (todos db ++ [Todo.mk (todos_id_seq db) title description false
                                 priority now now userId categoryId])
                 (todos_id_seq db + 1)) k = true).
  { intros k Hk. rewrite todo_exists_app, Hk. reflexivity. }
  split; [|split; [|split; [|split]]]; intros x Hx; simpl in Hx.
  - apply Hex. now apply L1.
  - apply Hex. now apply L2.
  - apply Hex. now apply L3.
  - destruct (L4 _ Hx) as [Ht Hg]. split; [now apply Hex | exact Hg].
  - apply in_app_iff in Hx. destruct Hx as [Hx|[<-|[]]]; [now apply L5|].
    split; assumption.
Qed.

Lemma live_todo_delete id :
  preserves (fun db => references_live db = true) (todo_delete id).
Proof.
  intros db r db' HP H. live_open HP. prim_inv H.
  assert (Hex : forall k, k <> id -> todo_exists db k = true ->
            existsb (fun t => Todo.id t =? k)
              (filter (fun t => negb (Todo.id t =? id)) (todos db)) = true).
  { intros k Hk Hx. rewrite existsb_filter_other by assumption. exact Hx. }
  split; [|split; [|split; [|split]]]; intros x Hx; simpl in Hx;
    apply filter_In in Hx; destruct Hx as [Hx Hkeep];
    apply negb_true_iff in Hkeep.
  - apply Hex; [now apply Z.eqb_neq | now apply L1].
  - apply Hex; [now apply Z.eqb_neq | now apply L2].
  - apply Hex; [now apply Z.eqb_neq | now apply L3].
  - destruct (L4 _ Hx) as [Ht Hg]. split; [|exact Hg].
    apply Hex; [now apply Z.eqb_neq | exact Ht].
  - now apply L5.
Qed.

Ltac live_frame :=
  repeat first
    [ apply live_connect
    | apply live_disconnect
    | apply live_todo_update
    | apply live_todo_create
    | apply live_tagsOnTodos_create
    | apply live_tagsOnTodos_deleteMany
    | apply live_note_create
    | apply live_note_deleteMany
    | apply live_todoHistory_create
    | apply preserves_ret
    | apply preserves_lift
    | apply preserves_tx_tagIds_of
    | apply preserves_bind; [|intros ?]
    | apply preserves_for; intros ?
    | apply preserves_when
    | match goal with |- preserves _ (if ?c then _ else _) => destruct c end ].

Lemma handle_references_live now r db :
  references_live db = true -> references_live (fst (handle now r db)) = true.
Proof.
  intros HP. destruct r as [q|b|idParam b|idParam|idParam]; simpl.
  - unfold getTodos. destruct (getTodos_read db q); exact HP.
  - unfold postTodo.
    destruct (postTodo_checks db b) as [[[u c] n]|r|]; simpl; auto.
    destruct (postTodo_tx now b db) as [[todo db1]|] eqn:E; simpl; auto.
    assert (H1 : references_live db1 = true).
    { unfold postTodo_tx in E. carry HP E; [live_frame | exact K]. }
    destruct (findUnique db1 (Todo.id todo)); exact H1.
  - unfold putTodo.
    destruct (putTodo_checks db idParam b) as [[id changes]|r|]; simpl; auto.
    destruct (putTodo_tx now id changes b db) as [[res db1]|] eqn:E; simpl; auto.
    assert (H1 : references_live db1 = true).
    { unfold putTodo_tx in E. carry HP E; [live_frame | exact K]. }
    destruct (findUnique db1 id); exact H1.
  - unfold deleteTodo.
    destruct (parseInt_string idParam) as [id|]; simpl; auto.
    destruct (findUnique db id); simpl; auto.
    destruct (todo_delete id db) as [[u db1]|] eqn:E; simpl; auto.
    exact (live_todo_delete id db u db1 HP E).
  - unfold toggleTodo.
    destruct (parseInt_string idParam) as [id|]; simpl; auto.
    destruct (findUnique db id) as [t|]; simpl; auto.
    destruct (toggleTodo_tx now id t db) as [[res db1]|] eqn:E; simpl; auto.
    unfold toggleTodo_tx in E. carry HP E; [live_frame | exact K].
Qed.

(** X4: referential integrity.  When every note, history row, attachment
    and tag join refers to a stored todo, every tag join to a stored tag,
    and every todo to a stored user and category (or to none), the same
    holds after any sequence of requests. *)
Theorem X4_requests_keep_references_live rs db :
  references_live db = true -> references_live (run rs db) = true.
Proof.
  revert db. induction rs as [|[now r] rest IH]; intros db H; simpl.
  - exact H.
  - apply IH. now apply handle_references_live.
Qed.

Lemma X4_requests_keep_references_live_witness :
  references_live
    (run [(2000, POST_todos (create_titled "A"));
          (2001, PUT_todo "4" (update_tagIds [JNum 2]));
          (2002, DELETE_todo "1")] chain_store) = true.
Proof.
  apply (X4_requests_keep_references_live
           [(2000, POST_todos (create_titled "A"));
            (2001, PUT_todo "4" (update_tagIds [JNum 2]));
            (2002, DELETE_todo "1")] chain_store).
  reflexivity.
Defined.

(** ** The dependency edges after an update *)

(** [connect a ids] adds exactly the edges from [a] to the members of [ids]. *)
Lemma connect_spec a ids :
  forall db u db',
    connect a ids db = Done (u, db') ->
    forall e, In e (todoDependencies db')
              <-> In e (todoDependencies db) \/ (fst e = a /\ In (snd e) ids).
Proof.
  unfold connect. induction ids as [|b rest IH]; intros db u db' H e; simpl in H.
  - apply tx_ret_Done in H. destruct H as [_ ->]. simpl. tauto.
  - apply tx_bind_Done in H. destruct H as [u1 [db1 [Hb H]]].
    destruct (todo_exists db b); [|discriminate]. inversion Hb; subst; clear Hb.
    rewrite (IH _ _ _ H e). simpl. rewrite add_edge_In.
    destruct e as [x y]. simpl. split.
    + intros [[Hold|Hnew]|[Hx Hy]]; auto. inversion Hnew; subst. auto.
    + intros [Hold|[Hx [Hy|Hy]]]; auto. subst. auto.
Qed.

(** The dependency relation after the transaction of an update: the edges
    it had and the edges to the listed dependencies, without the edges to
    the dependencies listed for removal. *)
Lemma putTodo_tx_dependencies now id changes b db res db' :
  putTodo_tx now id changes b db = Done (res, db') ->
  exists D Rm,
    parseInts (UpdateBody.dependencies b) = Some D
    /\ parseInts (UpdateBody.removeDependencies b) = Some Rm
    /\ forall e,
         In e (todoDependencies db')
         <-> (In e (todoDependencies db) \/ (fst e = id /\ In (snd e) D))
             /\ ~ (fst e = id /\ In (snd e) Rm).
Proof.
  unfold putTodo_tx. intros H.
  apply tx_bind_Done in H. destruct H as [data [db0 [Hdata H]]].
  apply tx_lift_Done in Hdata. destruct Hdata as [_ ->].
  remember (todoDependencies db) as edges eqn:Ee.
  assert (E0 : todoDependencies db = edges) by (now rewrite Ee). clear Ee.
  apply tx_bind_Done in H. destruct H as [t [db1 [Hs H]]].
  carry E0 Hs; [frame|]. clear E0 Hs.
  apply tx_bind_Done in H. destruct H as [u2 [db2 [Hs H]]].
  carry K Hs; [frame|]. clear K Hs. rename K0 into K.
  apply tx_bind_Done in H. destruct H as [u3 [db3 [Hs H]]].
  carry K Hs; [frame|]. clear K Hs. rename K0 into K.
  apply tx_bind_Done in H. destruct H as [u4 [db4 [Hs H]]].
  carry K Hs; [frame|]. clear K Hs. rename K0 into K.
  apply tx_bind_Done in H. destruct H as [u5 [db5 [Hs H]]].
  carry K Hs; [frame|]. clear K Hs. rename K0 into K.
  apply tx_bind_Done in H. destruct H as [u6 [db6 [Hconn H]]].
  assert (E6 : exists D, parseInts (UpdateBody.dependencies b) = Some D
                 /\ forall e, In e (todoDependencies db6)
                              <-> In e edges \/ (fst e = id /\ In (snd e) D)).
  { destruct (UpdateBody.dependencies b) as [|y ys] eqn:Eb.
    - simpl in Hconn. apply tx_ret_Done in Hconn. destruct Hconn as [_ ->].
      exists []. split; [reflexivity|]. intros e. rewrite K. simpl. tauto.
    - cbn [nonempty tx_when] in Hconn.
      apply tx_bind_Done in Hconn. destruct Hconn as [D [d1 [HD Hconn]]].
      apply tx_lift_Done in HD. destruct HD as [HD ->].
      apply tx_bind_Done in Hconn. destruct Hconn as [t1 [d2 [Hupd Hconn]]].
      carry K Hupd; [frame|]. exists D. split; [exact HD|].
      intros e. rewrite (connect_spec _ _ _ _ _ Hconn e), K0. reflexivity. }
  destruct E6 as [D [HD E6]]. clear K Hconn.
  apply tx_bind_Done in H. destruct H as [u7 [db7 [Hdisc H]]].
  assert (E7 : exists Rm, parseInts (UpdateBody.removeDependencies b) = Some Rm
                 /\ forall e, In e (todoDependencies db7)
                              <-> In e (todoDependencies db6)
                                  /\ ~ (fst e = id /\ In (snd e) Rm)).
  { destruct (UpdateBody.removeDependencies b) as [|y ys] eqn:Eb.
    - simpl in Hdisc. apply tx_ret_Done in Hdisc. destruct Hdisc as [_ ->].
      exists []. split; [reflexivity|]. intros e. simpl. tauto.
    - cbn [nonempty tx_when] in Hdisc.
      apply tx_bind_Done in Hdisc. destruct Hdisc as [Rm [d1 [HR Hdisc]]].
      apply tx_lift_Done in HR. destruct HR as [HR ->].
      apply tx_bind_Done in Hdisc. destruct Hdisc as [t1 [d2 [Hupd Hdisc]]].
      assert (Ed : todoDependencies d2 = todoDependencies db6)
        by (prim_inv Hupd; reflexivity).
      prim_inv Hdisc. exists Rm. split; [exact HR|]. intros e. simpl.
      rewrite filter_In, Ed, negb_true_iff, andb_false_iff.
      rewrite Z.eqb_neq, includes_false. split.
      + intros [Hin Hnot]. split; [exact Hin|]. tauto.
      + intros [Hin Hnot]. split; [exact Hin|].
        destruct (Z.eq_dec (fst e) id) as [He|He]; [right | now left].
        intros HRm. apply Hnot. auto. }
  destruct E7 as [Rm [HR E7]].
  exists D, Rm. split; [exact HD|]. split; [exact HR|].
  intros e.
  assert (E8 : todoDependencies db' = todoDependencies db7).
  { remember (todoDependencies db7) as X eqn:EX. symmetry in EX.
    clear E7. carry EX H; [frame | exact K]. }
  rewrite E8, E7, E6. reflexivity.
Qed.

(** X5: after an update that is answered 200, the dependency relation holds
    exactly the edges it held and the edges from the updated todo to the
    listed [dependencies], minus the edges from the updated todo to the
    listed [removeDependencies].  An id listed in both ends up removed, and
    no edge of another todo changes. *)
Theorem X5_update_dependency_set now idParam id b db :
  parseInt_string idParam = Some id ->
  status (snd (putTodo now idParam b db)) = 200 ->
  exists D Rm,
    parseInts (UpdateBody.dependencies b) = Some D
    /\ parseInts (UpdateBody.removeDependencies b) = Some Rm
    /\ forall x y,
         In (x, y) (todoDependencies (fst (putTodo now idParam b db)))
         <-> (In (x, y) (todoDependencies db) \/ (x = id /\ In y D))
             /\ ~ (x = id /\ In y Rm).
Proof.
  intros Hid H200.
  destruct (putTodo_200 _ _ _ _ H200) as [id' [changes [res [Hid' Htx]]]].
  assert (id' = id) by congruence. subst id'.
  destruct (putTodo_tx_dependencies _ _ _ _ _ _ _ Htx) as [D [Rm [HD [HR He]]]].
  exists D, Rm. split; [exact HD|]. split; [exact HR|].
  intros x y. exact (He (x, y)).
Qed.

Lemma X5_update_dependency_set_witness :
  exists D Rm,
    parseInts (UpdateBody.dependencies
                 (UpdateBody.mk None None None None None None [] []
                    [JNum 3; JStr "2"] [] [] [JNum 2])) = Some D
    /\ parseInts (UpdateBody.removeDependencies
                    (UpdateBody.mk None None None None None None [] []
                       [JNum 3; JStr "2"] [] [] [JNum 2])) = Some Rm
    /\ forall x y,
         In (x, y)
           (todoDependencies
              (fst (putTodo 2000 "1"
                      (UpdateBody.mk None None None None None None [] []
                         [JNum 3; JStr "2"] [] [] [JNum 2]) chain_store)))
         <-> (In (x, y) (todoDependencies chain_store) \/ (x = 1 /\ In y D))
             /\ ~ (x = 1 /\ In y Rm).
Proof.
  apply (X5_update_dependency_set 2000 "1" 1
           (UpdateBody.mk None None None None None None [] []
              [JNum 3; JStr "2"] [] [] [JNum 2]) chain_store); reflexivity.
Defined.

(** Todo 1 depends on 2; the update lists 3 and 2 and removes 2. *)
Example update_removal_wins :
  todoDependencies
    (fst (putTodo 2000 "1"
            (UpdateBody.mk None None None None None None [] []
               [JNum 3; JStr "2"] [] [] [JNum 2]) chain_store))
  = [(2, 3); (1, 3)].
Proof. reflexivity. Qed.

(** X6: after an update that is answered 200, the tags of the updated todo
    are the tags it had without the listed [removeTags], together with the
    listed [tagIds]; a tag listed in both ends up joined, and the tags of
    every other todo are as before. *)
Theorem X6_update_tag_set now idParam id b db :
  parseInt_string idParam = Some id ->
  status (snd (putTodo now idParam b db)) = 200 ->
  exists R T,
    parseInts (UpdateBody.removeTags b) = Some R
    /\ parseInts (UpdateBody.tagIds b) = Some T
    /\ forall todo g,
         In g (tagIds_of (fst (putTodo now idParam b db)) todo)
         <-> (In g (tagIds_of db todo) /\ ~ (todo = id /\ In g R))
             \/ (todo = id /\ In g T).
Proof.
  intros Hid H200.
  destruct (putTodo_200 _ _ _ _ H200) as [id' [changes [res [Hid' Htx]]]].
  assert (id' = id) by congruence. subst id'.
  exact (putTodo_tx_tag_set _ _ _ _ _ _ _ Htx).
Qed.

Lemma X6_update_tag_set_witness :
  exists R T,
    parseInts (UpdateBody.removeTags
                 (UpdateBody.mk None None None None None None [JNum 2; JNum 1] []
                    [] [JStr "1"] [] [])) = Some R
    /\ parseInts (UpdateBody.tagIds
                    (UpdateBody.mk None None None None None None [JNum 2; JNum 1] []
                       [] [JStr "1"] [] [])) = Some T
    /\ forall todo g,
         In g (tagIds_of
                 (fst (putTodo 2000 "1"
                         (UpdateBody.mk None None None None None None
                            [JNum 2; JNum 1] [] [] [JStr "1"] [] [])
                         chain_store)) todo)
         <-> (In g (tagIds_of chain_store todo) /\ ~ (todo = 1 /\ In g R))
             \/ (todo = 1 /\ In g T).
Proof.
  apply (X6_update_tag_set 2000 "1" 1
           (UpdateBody.mk None None None None None None [JNum 2; JNum 1] []
              [] [JStr "1"] [] []) chain_store); reflexivity.
Defined.

(** ** Direct mutual dependencies *)

Lemma no_mutual_dependency_spec db :
  no_mutual_dependency db = true <->
  forall a b, In (a, b) (todoDependencies db) -> In (b, a) (todoDependencies db) ->
              a = b.
Proof.
  unfold no_mutual_dependency. rewrite forallb_forall. split.
  - intros H a b Hab Hba. specialize (H _ Hab). simpl in H.
    apply orb_true_iff in H. destruct H as [H|H]; [now apply Z.eqb_eq|].
    apply negb_true_iff in H. apply has_edge_In in Hba. congruence.
  - intros H [a b] Hab. simpl. apply orb_true_iff.
    destruct (has_edge db b a) eqn:E; [left | now right].
    apply has_edge_In in E. apply Z.eqb_eq. now apply H.
Qed.

(** What step 7 has established when it lets an update pass. *)
Lemma check_circular_Ok db id deps :
  wf db ->
  check_circular db id deps = Ok tt ->
  forall x z, In x deps -> parseInt x = Some z ->
              ~ In (z, id) (todoDependencies db).
Proof.
  intros Hwf H x z Hx Hz Hedge. unfold check_circular in H.
  destruct deps as [|d0 deps0] eqn:Ed; [contradiction|]. rewrite <- Ed in *.
  clear Ed. unfold guard in H.
  destruct (negb (includes_json deps id)); [|discriminate]. simpl in H.
  destruct (existsb _ deps) eqn:E; [discriminate|].
  assert (Hcontra : existsb (fun depId =>
             match parseInt depId with
             | Some d => includes (map Todo.id (todos_depending_on db id)) d
             | None => false
             end) deps = true).
  { apply existsb_exists. exists x. split; [exact Hx|]. rewrite Hz.
    apply includes_In.
    destruct (wf_edges db Hwf _ _ Hedge) as [Hex _].
    apply todo_exists_In in Hex. destruct Hex as [t [Hin Hid]].
    apply in_map_iff. exists t. split; [exact Hid|].
    unfold todos_depending_on. apply filter_In. split; [exact Hin|].
    apply has_edge_In. now rewrite Hid. }
  congruence.
Qed.

(** A PUT either leaves the rows of the store as they are, or it has passed
    its checks and committed its transaction. *)
Lemma putTodo_committed now idParam b db :
  same_rows db (fst (putTodo now idParam b db))
  \/ exists id changes res,
       putTodo_checks db idParam b = Ok (id, changes)
       /\ putTodo_tx now id changes b db = Done (res, fst (putTodo now idParam b db)).
Proof.
  unfold putTodo.
  destruct (putTodo_checks db idParam b) as [[id changes]|r|] eqn:Echk; simpl;
    try (left; apply same_rows_refl).
  destruct (putTodo_tx now id changes b db) as [[res db1]|d] eqn:E; simpl;
    [|left; apply same_rows_rollback].
  right. exists id, changes, res. split; [reflexivity|].
  destruct (findUnique db1 id); exact E.
Qed.

Lemma putTodo_checks_circular db idParam b id changes :
  putTodo_checks db idParam b = Ok (id, changes) ->
  check_circular db id (UpdateBody.dependencies b) = Ok tt.
Proof.
  unfold putTodo_checks. intros H.
  apply bind_Ok in H. destruct H as [found [_ H]].
  apply bind_Ok in H. destruct H as [[] [Hc H]].
  apply bind_Ok in H. destruct H as [[] [_ H]].
  inversion H; subst found. exact Hc.
Qed.

Lemma handle_no_mutual_dependency now r db :
  wf db ->
  no_mutual_dependency db = true ->
  no_mutual_dependency (fst (handle now r db)) = true.
Proof.
  intros Hwf Hnm. pose proof (proj1 (no_mutual_dependency_spec db) Hnm) as Hold.
  destruct r as [q|b|idParam b|idParam|idParam]; simpl.
  - unfold getTodos. destruct (getTodos_read db q); exact Hnm.
  - unfold postTodo.
    destruct (postTodo_checks db b) as [[[u c] n]|r|]; simpl; auto.
    destruct (postTodo_tx now b db) as [[todo db1]|] eqn:E; simpl; auto.
    assert (H1 : no_mutual_dependency db1 = true).
    { apply no_mutual_dependency_spec. intros x y Hxy Hyx.
      destruct (postTodo_tx_edges _ _ _ _ _ E) as [ids [_ [_ Hedges]]].
      pose proof (next_id_fresh db Hwf) as Hfresh.
      destruct (Hedges _ Hxy) as [Hxy'|[Hx _]]; destruct (Hedges _ Hyx) as [Hyx'|[Hy _]];
        simpl in *.
      - now apply Hold.
      - destruct (wf_edges db Hwf _ _ Hxy') as [_ Hex]. congruence.
      - destruct (wf_edges db Hwf _ _ Hyx') as [_ Hex]. congruence.
      - congruence. }
    destruct (findUnique db1 (Todo.id todo)); exact H1.
  - destruct (putTodo_committed now idParam b db)
      as [Hsame|[id [changes [res [Hchk Htx]]]]].
    { destruct Hsame as [_ [_ [_ [_ [_ [_ [_ [_ He]]]]]]]].
      unfold no_mutual_dependency, has_edge in *. now rewrite He. }
    apply no_mutual_dependency_spec. intros x y Hxy Hyx.
    destruct (putTodo_tx_dependencies _ _ _ _ _ _ _ Htx) as [D [Rm [HD [_ He]]]].
    pose proof (check_circular_Ok db id _ Hwf (putTodo_checks_circular _ _ _ _ _ Hchk))
      as Hcheck.
    apply He in Hxy. apply He in Hyx. simpl in Hxy, Hyx.
    destruct Hxy as [[Hxy|[Hx HyD]] _]; destruct Hyx as [[Hyx|[Hy HxD]] _].
    + now apply Hold.
    + subst y. destruct (parseInts_In _ _ _ HD HxD) as [v [Hv Hp]].
      exfalso. exact (Hcheck v x Hv Hp Hxy).
    + subst x. destruct (parseInts_In _ _ _ HD HyD) as [v [Hv Hp]].
      exfalso. exact (Hcheck v y Hv Hp Hyx).
    + congruence.
  - unfold deleteTodo.
    destruct (parseInt_string idParam) as [id|]; simpl; auto.
    destruct (findUnique db id); simpl; auto.
    destruct (todo_delete id db) as [[u db1]|] eqn:E; simpl; auto.
    prim_inv E. apply no_mutual_dependency_spec. simpl. intros x y Hxy Hyx.
    apply filter_In in Hxy. apply filter_In in Hyx. apply Hold; tauto.
  - unfold toggleTodo.
    destruct (parseInt_string idParam) as [id|]; simpl; auto.
    destruct (findUnique db id) as [t|] eqn:Hfind; simpl; auto.
    rewrite (toggleTodo_tx_ok now id t db Hfind). simpl. exact Hnm.
Qed.

(** X7: two different todos never come to depend on each other directly.
    From a well-formed store without such a pair, no sequence of requests
    reaches a store that holds both the edge from A to B and the edge from
    B to A for different A and B. *)
Theorem X7_no_mutual_dependency_arises rs db :
  well_formed db = true ->
  no_mutual_dependency db = true ->
  no_mutual_dependency (run rs db) = true.
Proof.
  intros Hwf. apply well_formed_wf in Hwf. revert db Hwf.
  induction rs as [|[now r] rest IH]; intros db Hwf H; simpl.
  - exact H.
  - apply IH; [now apply handle_wf | now apply handle_no_mutual_dependency].
Qed.

Lemma X7_no_mutual_dependency_arises_witness :
  no_mutual_dependency
    (run [(2000, PUT_todo "3" (update_dependencies [JNum 1]));
          (2001, PUT_todo "2" (update_dependencies [JStr "1"]));
          (2002, PUT_todo "1" (update_dependencies [JStr "1"]))] chain_store) = true.
Proof.
  apply (X7_no_mutual_dependency_arises
           [(2000, PUT_todo "3" (update_dependencies [JNum 1]));
            (2001, PUT_todo "2" (update_dependencies [JStr "1"]));
            (2002, PUT_todo "1" (update_dependencies [JStr "1"]))] chain_store);
    reflexivity.
Defined.

(** ** Failed requests *)



(** The first note of this update is inserted before the second one is
    refused: the rollback removes the row and keeps the id drawn for it. *)
Example rolled_back_update :
  handle 2000
    (PUT_todo "1" (UpdateBody.mk None None None None None None []
                     [JStr "n"; JNum 7] [] [] [] [])) chain_store
  = (with_notes chain_store (notes chain_store) (notes_id_seq chain_store + 1),
     server_error "Failed to update todo").
Proof. reflexivity. Qed.

(** ** The history row of an update *)

(** Moves a fact [HP] that the first statement of the running transaction
    [H] keeps over to the store after that statement. *)
Ltac advance HP H :=
  match type of H with
  | tx_bind ?m ?k ?d = Done ?r =>
      let a := fresh "a" in
      let d1 := fresh "db" in
      let Hs := fresh "Hs" in
      apply tx_bind_Done in H; destruct H as [a [d1 [Hs H]]];
      pattern d in HP;
      match type of HP with
      | ?P d =>
          let K := fresh "K" in
          assert (K : preserves P m) by frame;
          specialize (K d a d1 HP Hs); cbv beta in K;
          clear HP Hs; rename K into HP
      end
  end.

Lemma putTodo_tx_history now id changes b db res db' :
  putTodo_tx now id changes b db = Done (res, db') ->
  todoHistory db'
  = (todoHistory db
     ++ [TodoHistory.mk (todo_history_id_seq db) id "UPDATED"
           ("Updated fields: " ++ String.concat ", " changes) now])%list.
Proof.
  unfold putTodo_tx. intros H.
  remember (todoHistory db) as rows eqn:Er.
  remember (todo_history_id_seq db) as next eqn:En.
  assert (HP : todoHistory db = rows /\ todo_history_id_seq db = next)
    by (subst; auto).
  clear Er En.
  do 8 advance HP H.
  apply tx_bind_Done in H. destruct H as [u [db9 [Hh H]]].
  apply tx_ret_Done in H. destruct H as [_ <-].
  destruct HP as [Hrows Hnext]. prim_inv Hh. reflexivity.
Qed.

(** X9: every update that is answered 200 appends exactly one row to the
    history, for the updated todo, with action UPDATED and a description
    that lists the [changedFields] of the response; this holds for an empty
    body and for a body that repeats the stored values as well, where the
    list is empty.  No other history row changes. *)
Theorem X9_update_appends_one_history_row now idParam id b db :
  parseInt_string idParam = Some id ->
  status (snd (putTodo now idParam b db)) = 200 ->
  exists shown changedFields,
    body (snd (putTodo now idParam b db)) = Updated shown changedFields
    /\ todoHistory (fst (putTodo now idParam b db))
       = (todoHistory db
          ++ [TodoHistory.mk (todo_history_id_seq db) id "UPDATED"
                ("Updated fields: " ++ String.concat ", " changedFields) now])%list.
Proof.
  intros Hid. unfold putTodo.
  destruct (putTodo_checks db idParam b) as [[id' changes]|r|] eqn:Echk; simpl;
    try discriminate.
  - destruct (putTodo_tx now id' changes b db) as [[res db1]|] eqn:E; simpl;
      try discriminate.
    destruct (findUnique db1 id') as [t|]; simpl; try discriminate.
    intros _. apply putTodo_checks_found in Echk. destruct Echk as [Hid' _].
    assert (id' = id) by congruence. subst id'.
    exists (view db1 t), changes. split; [reflexivity|].
    exact (putTodo_tx_history _ _ _ _ _ _ _ E).
  - intros Hr. exfalso.
    destruct (client_error_putTodo_checks db idParam b r Echk) as [H|H];
      rewrite H in Hr; discriminate.
Qed.

Lemma X9_update_appends_one_history_row_witness :
  exists shown changedFields,
    body (snd (putTodo 2000 "1"
                 (UpdateBody.mk (Some (JStr "Write API documentation")) None
                    (Some (JBool false)) None None None [] [] [] [] [] [])
                 chain_store)) = Updated shown changedFields
    /\ todoHistory
         (fst (putTodo 2000 "1"
                 (UpdateBody.mk (Some (JStr "Write API documentation")) None
                    (Some (JBool false)) None None None [] [] [] [] [] [])
                 chain_store))
       = (todoHistory chain_store
          ++ [TodoHistory.mk (todo_history_id_seq chain_store) 1 "UPDATED"
                ("Updated fields: " ++ String.concat ", " changedFields) 2000])%list.
Proof.
  apply (X9_update_appends_one_history_row 2000 "1" 1
           (UpdateBody.mk (Some (JStr "Write API documentation")) None
              (Some (JBool false)) None None None [] [] [] [] [] [])
           chain_store); reflexivity.
Defined.

(** A body that repeats the stored title and flag: nothing is listed, the
    row is written all the same. *)
Example update_without_change :
  todoHistory
    (fst (putTodo 2000 "1"
            (UpdateBody.mk (Some (JStr "Write API documentation")) None
               (Some (JBool false)) None None None [] [] [] [] [] [])
            chain_store))
  = [TodoHistory.mk 1 1 "CREATED" "Todo was created" 1001;
     TodoHistory.mk 2 1 "UPDATED" "Updated fields: " 2000].
Proof. reflexivity. Qed.

(** ** The notes after an update *)

Lemma note_loop_rows now id contents :
  forall db u db',
    tx_for contents (fun noteContent =>
      tx_bind (tx_lift (as_string noteContent))
        (fun content => note_create now id content)) db = Done (u, db') ->
    exists added,
      notes db' = (notes db ++ added)%list
      /\ length added = length contents
      /\ forall n, In n added -> Note.todoId n = id.
Proof.
  induction contents as [|c rest IH]; intros db u db' H; simpl in H.
  - apply tx_ret_Done in H. destruct H as [_ ->]. exists []. simpl.
    rewrite app_nil_r. repeat split. intros n [].
  - apply tx_bind_Done in H. destruct H as [u1 [db1 [Hbody H]]].
    apply tx_bind_Done in Hbody. destruct Hbody as [s [db0 [Hs Hbody]]].
    apply tx_lift_Done in Hs. destruct Hs as [_ ->].
    destruct (IH _ _ _ H) as [added [Hrows [Hlen Hall]]].
    prim_inv Hbody. simpl in Hrows.
    exists (Note.mk (notes_id_seq db) s id now :: added).
    rewrite Hrows, <- app_assoc. simpl. repeat split; [now rewrite Hlen|].
    intros n [<-|Hn]; [reflexivity | now apply Hall].
Qed.

(** The notes after the transaction of an update: the stored notes and one
    new note of the todo per listed content, without the notes whose id is
    listed for removal. *)
Lemma putTodo_tx_notes now id changes b db res db' :
  putTodo_tx now id changes b db = Done (res, db') ->
  exists Rm added,
    parseInts (UpdateBody.removeNotes b) = Some Rm
    /\ length added = length (UpdateBody.notes b)
    /\ (forall n, In n added -> Note.todoId n = id)
    /\ notes db'
       = filter (fun n => negb (includes Rm (Note.id n))) (notes db ++ added).
Proof.
  unfold putTodo_tx. intros H.
  remember (notes db) as rows eqn:Er.
  assert (HP : notes db = rows) by (now subst). clear Er.
  do 4 advance HP H.
  apply tx_bind_Done in H. destruct H as [u5 [db5 [Hloop H]]].
  destruct (note_loop_rows _ _ _ _ _ _ Hloop) as [added [Hrows [Hlen Hall]]].
  rewrite HP in Hrows. clear HP Hloop.
  apply tx_bind_Done in H. destruct H as [u6 [db6 [Hrem H]]].
  assert (E6 : exists Rm, parseInts (UpdateBody.removeNotes b) = Some Rm
                 /\ notes db6
                    = filter (fun n => negb (includes Rm (Note.id n))) (rows ++ added)).
  { destruct (UpdateBody.removeNotes b) as [|y ys] eqn:Eb.
    - simpl in Hrem. apply tx_ret_Done in Hrem. destruct Hrem as [_ ->].
      exists []. split; [reflexivity|]. rewrite Hrows. symmetry. apply filter_all.
    - cbn [nonempty tx_when] in Hrem.
      apply tx_bind_Done in Hrem. destruct Hrem as [Rm [d1 [HR Hrem]]].
      apply tx_lift_Done in HR. destruct HR as [HR ->].
      prim_inv Hrem. exists Rm. split; [exact HR|]. simpl. now rewrite Hrows. }
  destruct E6 as [Rm [HR E6]].
  exists Rm, added. split; [exact HR|]. split; [exact Hlen|]. split; [exact Hall|].
  rewrite <- E6. clear E6 Hrows.
  remember (notes db6) as X eqn:EX. symmetry in EX.
  carry EX H; [frame | exact K].
Qed.

Lemma filter_both {Row} (p q : Row -> bool) (rows : list Row) :
  filter (fun r => p r && q r) rows = filter p (filter q rows).
Proof.
  induction rows as [|row rest IH]; simpl; [reflexivity|].
  destruct (q row); simpl.
  - rewrite andb_true_r. destruct (p row); now rewrite IH.
  - rewrite andb_false_r. exact IH.
Qed.

Lemma same_key_same_row {Row} (key_of : Row -> Z) (rows : list Row) a b :
  NoDup (map key_of rows) -> In a rows -> In b rows -> key_of a = key_of b -> a = b.
Proof.
  induction rows as [|row rest IH]; simpl; intros Hnd Ha Hb Hk; [contradiction|].
  inversion Hnd as [|? ? Hfresh Hrest]; subst.
  destruct Ha as [<-|Ha]; destruct Hb as [<-|Hb]; auto.
  - exfalso. apply Hfresh. rewrite Hk. now apply in_map.
  - exfalso. apply Hfresh. rewrite <- Hk. now apply in_map.
Qed.

(** Step 8 of an update: the notes listed for removal are notes of the
    updated todo. *)
Lemma validated_notes_belong db id xs msg Rm :
  NoDup (map Note.id (notes db)) ->
  validate_ids (fun ids => note_count_in db ids id) xs msg = Ok tt ->
  parseInts xs = Some Rm ->
  forall n, In n (notes db) -> In (Note.id n) Rm -> Note.todoId n = id.
Proof.
  intros Hnd Hval Hparse n Hn Hin. unfold validate_ids in Hval.
  destruct xs as [|x xs']; [simpl in Hparse; inversion Hparse; subst; contradiction|].
  rewrite Hparse in Hval. simpl in Hval. unfold guard in Hval.
  destruct (note_count_in db Rm id =? len (x :: xs')) eqn:E; [|discriminate].
  apply Z.eqb_eq in E. unfold note_count_in, len in E. apply Nat2Z.inj in E.
  assert (Hlen : length (x :: xs') = length Rm).
  { clear -Hparse. revert Rm Hparse. generalize (x :: xs') as l.
    induction l as [|y l IH]; intros ids H; simpl in H.
    - now inversion H.
    - destruct (parseInt y); [|discriminate].
      destruct (parseInts l) as [zs|]; [|discriminate].
      inversion H; subst. simpl. f_equal. now apply IH. }
  rewrite Hlen in E.
  rewrite (filter_both (fun n => includes Rm (Note.id n))
             (fun n => Note.todoId n =? id)) in E.
  pose proof (counted_ids_exist Note.id
                (filter (fun n => Note.todoId n =? id) (notes db)) Rm
                (NoDup_map_filter _ _ _ Hnd) E (Note.id n) Hin) as Hm.
  apply in_map_iff in Hm. destruct Hm as [m [Hid Hm]].
  apply filter_In in Hm. destruct Hm as [Hm Hmine]. apply Z.eqb_eq in Hmine.
  rewrite (same_key_same_row Note.id (notes db) n m Hnd Hn Hm (eq_sym Hid)).
  exact Hmine.
Qed.

(** X10: an update never removes or adds a note of another todo.  With
    unique note ids, after an update of todo [id] that is answered 200 the
    notes of every other todo are as before, although the removal itself
    selects by note id only; the notes of the store are the old notes and
    one new note of [id] per listed content, minus the notes listed for
    removal. *)
Theorem X10_update_touches_own_notes_only now idParam id b db :
  note_ids_unique db = true ->
  parseInt_string idParam = Some id ->
  status (snd (putTodo now idParam b db)) = 200 ->
  (exists Rm added,
      parseInts (UpdateBody.removeNotes b) = Some Rm
      /\ length added = length (UpdateBody.notes b)
      /\ (forall n, In n added -> Note.todoId n = id)
      /\ notes (fst (putTodo now idParam b db))
         = filter (fun n => negb (includes Rm (Note.id n))) (notes db ++ added))
  /\ (forall n, Note.todoId n <> id ->
        (In n (notes (fst (putTodo now idParam b db))) <-> In n (notes db))).
Proof.
  intros Hu Hid H200.
  apply (distinctb_NoDup Z.eqb Z.eqb_eq) in Hu.
  destruct (putTodo_committed now idParam b db)
    as [Hsame|[id' [changes [res [Hchk Htx]]]]].
  - exfalso. destruct (putTodo_200 _ _ _ _ H200) as [i [c [r [_ Htx]]]].
    pose proof (putTodo_tx_history _ _ _ _ _ _ _ Htx) as Hh.
    destruct Hsame as [_ [_ [_ [_ [_ [_ [Hs _]]]]]]]. rewrite Hs in Hh.
    apply (f_equal (@length _)) in Hh. rewrite length_app in Hh. simpl in Hh. lia.
  - assert (id' = id).
    { apply putTodo_checks_found in Hchk. destruct Hchk as [Hid' _]. congruence. }
    subst id'.
    destruct (putTodo_tx_notes _ _ _ _ _ _ _ Htx) as [Rm [added [HR [Hlen [Hall Hrows]]]]].
    split; [exists Rm, added; auto|].
    intros n Hn. rewrite Hrows, filter_In, in_app_iff. split.
    + intros [[Hold|Hnew] _]; [exact Hold|]. exfalso. apply Hn. now apply Hall.
    + intros Hold. split; [now left|]. apply negb_true_iff, includes_false.
      intros HinRm. apply Hn.
      unfold putTodo_checks in Hchk.
      apply bind_Ok in Hchk. destruct Hchk as [found [Hpre Hchk]].
      apply bind_Ok in Hchk. destruct Hchk as [[] [_ Hchk]].
      apply bind_Ok in Hchk. destruct Hchk as [[] [Hval Hchk]].
      inversion Hchk; subst found. simpl in Hval.
      exact (validated_notes_belong db id _ _ Rm Hu Hval HR n Hold HinRm).
Qed.

Lemma X10_update_touches_own_notes_only_witness :
  (exists Rm added,
      parseInts (UpdateBody.removeNotes
                   (UpdateBody.mk None None None None None None [] [JStr "second"]
                      [] [] [JStr "1"] [])) = Some Rm
      /\ length added
         = length (UpdateBody.notes
                     (UpdateBody.mk None None None None None None [] [JStr "second"]
                        [] [] [JStr "1"] []))
      /\ (forall n, In n added -> Note.todoId n = 1)
      /\ notes (fst (putTodo 2000 "1"
                       (UpdateBody.mk None None None None None None []
                          [JStr "second"] [] [] [JStr "1"] []) chain_store))
         = filter (fun n => negb (includes Rm (Note.id n)))
             (notes chain_store ++ added))
  /\ (forall n, Note.todoId n <> 1 ->
        (In n (notes (fst (putTodo 2000 "1"
                             (UpdateBody.mk None None None None None None []
                                [JStr "second"] [] [] [JStr "1"] []) chain_store)))
         <-> In n (notes chain_store))).
Proof.
  apply (X10_update_touches_own_notes_only 2000 "1" 1
           (UpdateBody.mk None None None None None None [] [JStr "second"]
              [] [] [JStr "1"] []) chain_store); reflexivity.
Defined.

(** A note of another todo cannot be removed through an update. *)
Example foreign_note_is_refused :
  putTodo 2000 "2"
    (UpdateBody.mk None None None None None None [] [] [] [] [JNum 1] []) chain_store
  = (chain_store, mkResponse 400 (Error "Some notes to remove not found")).
Proof. reflexivity. Qed.

(** ** What a toggle and a delete leave alone *)

(** X11: a toggle of a stored todo writes one flag.  The stored row of the
    todo afterwards differs from the row before in [completed] (negated) and
    [updatedAt] (the time of the request) only, the row of every other id is
    as before, tags, notes, attachments and dependency edges are unchanged,
    and the history has grown by one row. *)
Theorem X11_toggle_writes_one_flag now idParam id t db :
  parseInt_string idParam = Some id ->
  findUnique db id = Some t ->
  let db' := fst (toggleTodo now idParam db) in
  findUnique db' id
  = Some (Todo.mk (Todo.id t) (Todo.title t) (Todo.description t)
            (negb (Todo.completed t)) (Todo.priority t) (Todo.createdAt t) now
            (Todo.userId t) (Todo.categoryId t))
  /\ (forall k, k <> id -> findUnique db' k = findUnique db k)
  /\ tagsOnTodos db' = tagsOnTodos db
  /\ notes db' = notes db
  /\ attachments db' = attachments db
  /\ todoDependencies db' = todoDependencies db
  /\ length (todoHistory db') = S (length (todoHistory db)).
Proof.
  intros Hid Hfind db'.
  destruct (toggleTodo_ok now idParam id t db Hid Hfind) as [E _].
  unfold db'. rewrite E. split.
  - rewrite (findUnique_toggled_store now id t db Hfind). reflexivity.
  - split.
    + intros k Hk. unfold findUnique, toggled_store. simpl.
      rewrite find_rewrite_rows by apply apply_update_id.
      destruct (find (fun x => Todo.id x =? k) (todos db)) as [y|] eqn:F;
        [|reflexivity].
      simpl. apply find_some in F. destruct F as [_ Fy]. apply Z.eqb_eq in Fy.
      destruct (Todo.id y =? id) eqn:Ey; [|reflexivity].
      apply Z.eqb_eq in Ey. congruence.
    + unfold toggled_store. simpl. repeat split.
      rewrite length_app. simpl. lia.
Qed.

Lemma X11_toggle_writes_one_flag_witness :
  let db' := fst (toggleTodo 2000 "3" chain_store) in
  findUnique db' 3
  = Some (Todo.mk (Todo.id (sample_todo 3 "Build REST API endpoints" true HIGH))
            (Todo.title (sample_todo 3 "Build REST API endpoints" true HIGH))
            (Todo.description (sample_todo 3 "Build REST API endpoints" true HIGH))
            (negb (Todo.completed (sample_todo 3 "Build REST API endpoints" true HIGH)))
            (Todo.priority (sample_todo 3 "Build REST API endpoints" true HIGH))
            (Todo.createdAt (sample_todo 3 "Build REST API endpoints" true HIGH)) 2000
            (Todo.userId (sample_todo 3 "Build REST API endpoints" true HIGH))
            (Todo.categoryId (sample_todo 3 "Build REST API endpoints" true HIGH)))
  /\ (forall k, k <> 3 -> findUnique db' k = findUnique chain_store k)
  /\ tagsOnTodos db' = tagsOnTodos chain_store
  /\ notes db' = notes chain_store
  /\ attachments db' = attachments chain_store
  /\ todoDependencies db' = todoDependencies chain_store
  /\ length (todoHistory db') = S (length (todoHistory chain_store)).
Proof.
  apply (X11_toggle_writes_one_flag 2000 "3" 3
           (sample_todo 3 "Build REST API endpoints" true HIGH) chain_store);
    reflexivity.
Defined.

Lemma kept_and_dropped {Row} (gone : Row -> bool) (rows : list Row) :
  len (filter gone rows) = len rows - len (filter (fun r => negb (gone r)) rows).
Proof.
  unfold len. induction rows as [|row rest IH]; [reflexivity|].
  cbn [filter]. destruct (gone row); cbn [negb length]; lia.
Qed.

(** X12: a delete that is answered 200 removes the rows of the deleted todo
    and nothing else: a todo, note, history row, attachment or tag join is
    stored afterwards exactly when it was stored before and does not belong
    to the deleted todo, and an edge when neither of its ends is the deleted
    todo.  The [relations] counts of the response are the numbers of tag
    joins, notes, attachments and history rows that went, and
    [dependentTodos] lists the todos that depended on the deleted one. *)
Theorem X12_delete_removes_exactly_own_rows idParam id db db' r :
  parseInt_string idParam = Some id ->
  deleteTodo idParam db = (db', r) ->
  status r = 200 ->
  ((forall t, In t (todos db') <-> In t (todos db) /\ Todo.id t <> id)
   /\ (forall n, In n (notes db') <-> In n (notes db) /\ Note.todoId n <> id)
   /\ (forall h, In h (todoHistory db')
                 <-> In h (todoHistory db) /\ TodoHistory.todoId h <> id)
   /\ (forall a, In a (attachments db')
                 <-> In a (attachments db) /\ Attachment.todoId a <> id)
   /\ (forall j, In j (tagsOnTodos db')
                 <-> In j (tagsOnTodos db) /\ TagsOnTodos.todoId j <> id)
   /\ (forall x y, In (x, y) (todoDependencies db')
                   <-> In (x, y) (todoDependencies db) /\ x <> id /\ y <> id))
  /\ exists tagCount noteCount attachmentCount historyCount dependencyCount
            dependents dependentTodos,
       body r = Deleted id tagCount noteCount attachmentCount historyCount
                  dependencyCount dependents dependentTodos
       /\ tagCount = len (tagsOnTodos db) - len (tagsOnTodos db')
       /\ noteCount = len (notes db) - len (notes db')
       /\ attachmentCount = len (attachments db) - len (attachments db')
       /\ historyCount = len (todoHistory db) - len (todoHistory db')
       /\ dependents = len dependentTodos
       /\ (forall x, In x dependentTodos
                     <-> todo_exists db x = true /\ In (x, id) (todoDependencies db)).
Proof.
  intros Hid Hdel Hstatus. unfold deleteTodo in Hdel. rewrite Hid in Hdel.
  destruct (findUnique db id) as [t|];
    [|inversion Hdel; subst; discriminate].
  destruct (todo_delete id db) as [[u db1]|] eqn:E;
    [|inversion Hdel; subst; discriminate].
  inversion Hdel; subst db' r; clear Hdel.
  prim_inv E. simpl. split.
  - split; [|split; [|split; [|split; [|split]]]].
    1-5: intros x; rewrite filter_In, negb_true_iff, Z.eqb_neq; reflexivity.
    intros x y. rewrite filter_In. cbn [fst snd].
    rewrite andb_true_iff, !negb_true_iff, !Z.eqb_neq. reflexivity.
  - do 7 eexists. split; [reflexivity|].
    split; [|split; [|split; [|split; [|split]]]].
    + unfold tagIds_of. unfold len at 1. rewrite length_map.
      exact (kept_and_dropped (fun r => TagsOnTodos.todoId r =? id) (tagsOnTodos db)).
    + exact (kept_and_dropped (fun n => Note.todoId n =? id) (notes db)).
    + exact (kept_and_dropped (fun a => Attachment.todoId a =? id) (attachments db)).
    + exact (kept_and_dropped (fun h => TodoHistory.todoId h =? id) (todoHistory db)).
    + unfold len. now rewrite length_map.
    + intros x. rewrite in_map_iff. unfold todos_depending_on. split.
      * intros [y [Hy Hin]]. apply filter_In in Hin. destruct Hin as [Hin He].
        apply has_edge_In in He. subst x. split; [|exact He].
        apply todo_exists_In. eauto.
      * intros [Hex He]. apply todo_exists_In in Hex. destruct Hex as [y [Hin Hy]].
        exists y. split; [exact Hy|]. apply filter_In. split; [exact Hin|].
        apply has_edge_In. now rewrite Hy.
Qed.

Lemma X12_delete_removes_exactly_own_rows_witness :
  ((forall t, In t (todos (fst (deleteTodo "2" chain_store)))
              <-> In t (todos chain_store) /\ Todo.id t <> 2)
   /\ (forall n, In n (notes (fst (deleteTodo "2" chain_store)))
                 <-> In n (notes chain_store) /\ Note.todoId n <> 2)
   /\ (forall h, In h (todoHistory (fst (deleteTodo "2" chain_store)))
                 <-> In h (todoHistory chain_store) /\ TodoHistory.todoId h <> 2)
   /\ (forall a, In a (attachments (fst (deleteTodo "2" chain_store)))
                 <-> In a (attachments chain_store) /\ Attachment.todoId a <> 2)
   /\ (forall j, In j (tagsOnTodos (fst (deleteTodo "2" chain_store)))
                 <-> In j (tagsOnTodos chain_store) /\ TagsOnTodos.todoId j <> 2)
   /\ (forall x y, In (x, y) (todoDependencies (fst (deleteTodo "2" chain_store)))
                   <-> In (x, y) (todoDependencies chain_store) /\ x <> 2 /\ y <> 2))
  /\ exists tagCount noteCount attachmentCount historyCount dependencyCount
            dependents dependentTodos,
       body (snd (deleteTodo "2" chain_store))
       = Deleted 2 tagCount noteCount attachmentCount historyCount
           dependencyCount dependents dependentTodos
       /\ tagCount = len (tagsOnTodos chain_store)
                     - len (tagsOnTodos (fst (deleteTodo "2" chain_store)))
       /\ noteCount = len (notes chain_store)
                      - len (notes (fst (deleteTodo "2" chain_store)))
       /\ attachmentCount = len (attachments chain_store)
                            - len (attachments (fst (deleteTodo "2" chain_store)))
       /\ historyCount = len (todoHistory chain_store)
                         - len (todoHistory (fst (deleteTodo "2" chain_store)))
       /\ dependents = len dependentTodos
       /\ (forall x, In x dependentTodos
                     <-> todo_exists chain_store x = true
                         /\ In (x, 2) (todoDependencies chain_store)).
Proof.
  apply (X12_delete_removes_exactly_own_rows "2" 2 chain_store
           (fst (deleteTodo "2" chain_store)) (snd (deleteTodo "2" chain_store)));
    reflexivity.
Defined.

(** ** A deleted id stays deleted *)

Lemma gone_todo_create k now title description priority userId categoryId :
  preserves (fun d => todo_exists d k = false /\ k < todos_id_seq d)
    (todo_create now title description priority userId categoryId).
Proof.
  intros db t db' [Hg Hs] H. prim_inv H. rewrite todo_exists_app. simpl.
  rewrite Hg. split; [|lia]. simpl.
  destruct (todos_id_seq db =? k) eqn:E; [|reflexivity].
  apply Z.eqb_eq in E. lia.
Qed.

Lemma gone_todo_update k now id d :
  preserves (fun d => todo_exists d k = false /\ k < todos_id_seq d)
    (todo_update now id d).
Proof.
  intros db t db' [Hg Hs] H. prim_inv H. simpl. split; [|exact Hs].
  unfold todo_exists. simpl.
  rewrite <- Hg. apply (existsb_rewrite_rows id k (apply_update now d)).
  apply apply_update_id.
Qed.

Lemma gone_todo_delete k id :
  preserves (fun d => todo_exists d k = false /\ k < todos_id_seq d)
    (todo_delete id).
Proof.
  intros db t db' [Hg Hs] H. prim_inv H. simpl. split; [|exact Hs].
  unfold todo_exists. simpl.
  destruct (existsb (fun t => Todo.id t =? k)
              (filter (fun t => negb (Todo.id t =? id)) (todos db))) eqn:E;
    [|reflexivity].
  apply existsb_exists in E. destruct E as [x [Hx Ex]].
  apply filter_In in Hx. destruct Hx as [Hx _].
  unfold todo_exists in Hg. rewrite <- Hg. symmetry.
  apply existsb_exists. eauto.
Qed.

Ltac gone_frame :=
  repeat first
    [ apply gone_todo_create
    | apply gone_todo_update
    | apply gone_todo_delete
    | apply preserves_ret
    | apply preserves_lift
    | apply preserves_bind; [|intros ?]
    | apply preserves_for; intros ?
    | apply preserves_when
    | match goal with |- preserves _ (if ?c then _ else _) => destruct c end
    | match goal with |- preserves _ (connect _ _) => unfold connect end
    | let db := fresh "db" in let H := fresh "H" in let HP := fresh "HP" in
      intros db ? ? HP H; prim_inv H; exact HP ].

Lemma gone_rollback k db d :
  todo_exists db k = false /\ k < todos_id_seq db ->
  counters_le db d ->
  todo_exists (rollback db d) k = false /\ k < todos_id_seq (rollback db d).
Proof. intros [Hg Hs] [Hc _]. split; [exact Hg | simpl; lia]. Qed.

Lemma handle_gone k now r db :
  todo_exists db k = false /\ k < todos_id_seq db ->
  todo_exists (fst (handle now r db)) k = false
  /\ k < todos_id_seq (fst (handle now r db)).
Proof.
  intros HP. destruct r as [q|b|idParam b|idParam|idParam]; simpl.
  - unfold getTodos. destruct (getTodos_read db q); exact HP.
  - unfold postTodo.
    destruct (postTodo_checks db b) as [[[u c] n]|r|]; simpl; auto.
    destruct (postTodo_tx now b db) as [[todo db1]|d] eqn:E; simpl;
      [|exact (gone_rollback k db d HP
                 (draws_Failed _ _ _ (draws_postTodo_tx now b) E))].
    assert (H1 : todo_exists db1 k = false /\ k < todos_id_seq db1).
    { unfold postTodo_tx in E. carry HP E; [gone_frame | exact K]. }
    destruct (findUnique db1 (Todo.id todo)); exact H1.
  - unfold putTodo.
    destruct (putTodo_checks db idParam b) as [[id changes]|r|]; simpl; auto.
    destruct (putTodo_tx now id changes b db) as [[res db1]|d] eqn:E; simpl;
      [|exact (gone_rollback k db d HP
                 (draws_Failed _ _ _ (draws_putTodo_tx now id changes b) E))].
    assert (H1 : todo_exists db1 k = false /\ k < todos_id_seq db1).
    { unfold putTodo_tx in E. carry HP E; [gone_frame | exact K]. }
    destruct (findUnique db1 id); exact H1.
  - unfold deleteTodo.
    destruct (parseInt_string idParam) as [id|]; simpl; auto.
    destruct (findUnique db id); simpl; auto.
    destruct (todo_delete id db) as [[u db1]|d] eqn:E; simpl;
      [|exact (gone_rollback k db d HP
                 (draws_Failed _ _ _ (draws_todo_delete id) E))].
    exact (gone_todo_delete k id db u db1 HP E).
  - unfold toggleTodo.
    destruct (parseInt_string idParam) as [id|]; simpl; auto.
    destruct (findUnique db id) as [t|]; simpl; auto.
    destruct (toggleTodo_tx now id t db) as [[res db1]|d] eqn:E; simpl;
      [|exact (gone_rollback k db d HP
                 (draws_Failed _ _ _ (draws_toggleTodo_tx now id t) E))].
    unfold toggleTodo_tx in E. carry HP E; [gone_frame | exact K].
Qed.

Lemma run_gone k rs :
  forall db,
    todo_exists db k = false /\ k < todos_id_seq db ->
    todo_exists (run rs db) k = false /\ k < todos_id_seq (run rs db).
Proof.
  induction rs as [|[now r] rest IH]; intros db H; simpl; [exact H|].
  apply IH. now apply handle_gone.
Qed.

(** X13: a deleted id is never served again.  In a well-formed store, once
    [DELETE /api/todos/:id] has answered 200, then after any further
    requests (creates included: the serial counter never hands the id out
    again) the id is not stored, and an update, a delete, a toggle and a
    fetch of it are all answered 404 "Todo not found" with the store
    unchanged. *)
Theorem X13_deleted_id_is_never_served_again idParam id db rs :
  well_formed db = true ->
  parseInt_string idParam = Some id ->
  status (snd (deleteTodo idParam db)) = 200 ->
  let db' := run rs (fst (deleteTodo idParam db)) in
  findUnique db' id = None
  /\ (forall now b, putTodo now idParam b db'
                    = (db', mkResponse 404 (Error "Todo not found")))
  /\ deleteTodo idParam db' = (db', mkResponse 404 (Error "Todo not found"))
  /\ (forall now, toggleTodo now idParam db'
                  = (db', mkResponse 404 (Error "Todo not found")))
  /\ getTodo idParam db' = DetailError 404 "Todo not found".
Proof.
  intros Hwf Hid Hstatus db'.
  assert (Hgone : findUnique db' id = None).
  { assert (H : todo_exists db' id = false /\ id < todos_id_seq db').
    { apply run_gone. apply well_formed_wf in Hwf.
      unfold deleteTodo in *. rewrite Hid in *.
      destruct (findUnique db id) as [t|] eqn:F; [|discriminate Hstatus].
      apply findUnique_Some in F. destruct F as [Fin Fid].
      apply (wf_todo_seq db Hwf) in Fin. rewrite Fid in Fin. clear Fid Hid.
      destruct (todo_delete id db) as [[u db1]|] eqn:E; [|discriminate Hstatus].
      simpl. clear Hstatus. prim_inv E. split; [|simpl; lia].
      unfold todo_exists. simpl.
      destruct (existsb (fun t => Todo.id t =? id)
                  (filter (fun t => negb (Todo.id t =? id)) (todos db))) eqn:Ex0;
        [|reflexivity].
      apply existsb_exists in Ex0. destruct Ex0 as [x [Hx Ex]].
      apply filter_In in Hx. destruct Hx as [_ Hx]. rewrite Ex in Hx.
      discriminate Hx. }
    destruct H as [H _]. destruct (findUnique db' id) eqn:F; [|reflexivity].
    assert (todo_exists db' id = true) by (apply findUnique_exists; eauto).
    congruence. }
  split; [exact Hgone|]. split; [|split; [|split]].
  - intros now b. unfold putTodo, putTodo_checks, putTodo_prechecks.
    rewrite Hid. simpl. rewrite Hgone. reflexivity.
  - unfold deleteTodo. rewrite Hid, Hgone. reflexivity.
  - intros now. unfold toggleTodo. rewrite Hid, Hgone. reflexivity.
  - unfold getTodo. rewrite Hid, Hgone. reflexivity.
Qed.

Lemma X13_deleted_id_is_never_served_again_witness :
  let db' := run [(2000, POST_todos (create_titled "A"));
                  (2001, PATCH_toggle "4")]
               (fst (deleteTodo "3" chain_store)) in
  findUnique db' 3 = None
  /\ (forall now b, putTodo now "3" b db'
                    = (db', mkResponse 404 (Error "Todo not found")))
  /\ deleteTodo "3" db' = (db', mkResponse 404 (Error "Todo not found"))
  /\ (forall now, toggleTodo now "3" db'
                  = (db', mkResponse 404 (Error "Todo not found")))
  /\ getTodo "3" db' = DetailError 404 "Todo not found".
Proof.
  apply (X13_deleted_id_is_never_served_again "3" 3 chain_store
           [(2000, POST_todos (create_titled "A")); (2001, PATCH_toggle "4")]);
    reflexivity.
Defined.

(** ** The order and the pages of the list *)

(** What a list response is made of: the requested segment of the selected
    rows, newest first. *)
Lemma getTodos_rows q db data total page limit stats_total stats_completed :
  body (snd (getTodos q db))
  = TodoList data total page limit stats_total stats_completed ->
  exists rows,
    data = map (view db) rows
    /\ match ListQuery.page q with
       | Some s => parseInt_string s | None => Some 1 end = Some page
    /\ match ListQuery.limit q with
       | Some s => parseInt_string s | None => Some 10 end = Some limit
    /\ page_of ((page - 1) * limit) limit
         (sort_desc (filter (where_matches db (build_where q)) (todos db)))
       = Some rows.
Proof.
  unfold getTodos, getTodos_read, findMany.
  destruct (match ListQuery.page q with
            | Some s => parseInt_string s | None => Some 1 end) as [p|];
    [|intros H; discriminate H].
  destruct (match ListQuery.limit q with
            | Some s => parseInt_string s | None => Some 10 end) as [l|];
    [|intros H; discriminate H].
  simpl. destruct (where_valid (build_where q)); [|intros H; discriminate H].
  destruct (page_of _ _ _) as [rows|] eqn:Hpage; [|intros H; discriminate H].
  simpl. intros H. inversion H; subst. exists rows. auto.
Qed.

Lemma insert_desc_sorted t l :
  StronglySorted (fun a b => Todo.createdAt b <= Todo.createdAt a) l ->
  StronglySorted (fun a b => Todo.createdAt b <= Todo.createdAt a) (insert_desc t l).
Proof.
  induction l as [|x r IH]; intros Hs; simpl.
  - constructor; constructor.
  - apply StronglySorted_inv in Hs. destruct Hs as [Hr Hx].
    destruct (Todo.createdAt x <=? Todo.createdAt t) eqn:E.
    + apply Z.leb_le in E. constructor; [constructor; assumption|].
      constructor; [exact E|].
      rewrite Forall_forall in *. intros y Hy. specialize (Hx y Hy). lia.
    + apply Z.leb_gt in E. constructor; [now apply IH|].
      rewrite Forall_forall in *. intros y Hy. apply In_insert_desc in Hy.
      destruct Hy as [->|Hy]; [lia | now apply Hx].
Qed.

Lemma sort_desc_sorted l :
  StronglySorted (fun a b => Todo.createdAt b <= Todo.createdAt a) (sort_desc l).
Proof.
  induction l as [|x r IH]; simpl; [constructor | now apply insert_desc_sorted].
Qed.

Lemma sorted_app {A} (R : A -> A -> Prop) (front back : list A) :
  StronglySorted R (front ++ back) -> StronglySorted R front /\ StronglySorted R back.
Proof.
  induction front as [|x r IH]; simpl; intros H.
  - split; [constructor | exact H].
  - apply StronglySorted_inv in H. destruct H as [Hr Hx].
    destruct (IH Hr) as [H1 H2]. split; [|exact H2].
    constructor; [exact H1|]. apply Forall_app in Hx. tauto.
Qed.

Lemma sorted_segment {A} (R : A -> A -> Prop) n k (l : list A) :
  StronglySorted R l -> StronglySorted R (firstn n (skipn k l)).
Proof.
  intros H. rewrite <- (firstn_skipn k l) in H. apply sorted_app in H.
  destruct H as [_ H]. rewrite <- (firstn_skipn n (skipn k l)) in H.
  apply sorted_app in H. tauto.
Qed.

Lemma sorted_segment_rev {A} (R : A -> A -> Prop) n k (l : list A) :
  StronglySorted R l -> StronglySorted R (rev (firstn n (skipn k (rev l)))).
Proof.
  intros H.
  assert (E : l = ((rev (skipn n (skipn k (rev l)))
                    ++ rev (firstn n (skipn k (rev l)))) ++ rev (firstn k (rev l)))%list).
  { rewrite <- !rev_app_distr, !firstn_skipn. symmetry. apply rev_involutive. }
  rewrite E in H. apply sorted_app in H. destruct H as [H _].
  apply sorted_app in H. tauto.
Qed.

(** X14: the list is ordered and bounded.  In every list response the todos
    come newest first ([createdAt] never increases along the list) and there
    are at most [|limit|] of them, whatever the filters and the page. *)
Theorem X14_list_is_newest_first_and_bounded q db data total page limit
    stats_total stats_completed :
  body (snd (getTodos q db))
  = TodoList data total page limit stats_total stats_completed ->
  StronglySorted (fun a b => Todo.createdAt b <= Todo.createdAt a)
    (map view_todo data)
  /\ len data <= Z.abs limit.
Proof.
  intros H. apply getTodos_rows in H.
  destruct H as [rows [-> [_ [_ Hpage]]]].
  rewrite map_map. simpl. rewrite map_id.
  unfold len. rewrite length_map.
  unfold page_of in Hpage.
  destruct ((page - 1) * limit <? 0); [discriminate Hpage|].
  destruct (0 <=? limit) eqn:E; inversion Hpage; subst rows; clear Hpage.
  - apply Z.leb_le in E. split.
    + apply sorted_segment, sort_desc_sorted.
    + pose proof (firstn_le_length (Z.to_nat limit)
                    (skipn (Z.to_nat ((page - 1) * limit))
                       (sort_desc (filter (where_matches db (build_where q))
                                     (todos db))))).
      lia.
  - apply Z.leb_gt in E. split.
    + apply sorted_segment_rev, sort_desc_sorted.
    + rewrite length_rev.
      pose proof (firstn_le_length (Z.to_nat (- limit))
                    (skipn (Z.to_nat ((page - 1) * limit))
                       (rev (sort_desc (filter (where_matches db (build_where q))
                                          (todos db)))))).
      lia.
Qed.

Lemma X14_list_is_newest_first_and_bounded_witness :
  StronglySorted (fun a b => Todo.createdAt b <= Todo.createdAt a)
    (map view_todo (map (view chain_store)
                      (sort_desc (filter (where_matches chain_store (build_where no_filter))
                                    (todos chain_store)))))
  /\ len (map (view chain_store)
            (sort_desc (filter (where_matches chain_store (build_where no_filter))
                          (todos chain_store)))) <= Z.abs 10.
Proof.
  apply (X14_list_is_newest_first_and_bounded no_filter chain_store
           (map (view chain_store)
              (sort_desc (filter (where_matches chain_store (build_where no_filter))
                            (todos chain_store))))
           3 1 10 3
           (todo_count chain_store (fun t => Bool.eqb (Todo.completed t) true))).
  reflexivity.
Defined.



Lemma insert_desc_NoDup t l : ~ In t l -> NoDup l -> NoDup (insert_desc t l).
Proof.
  induction l as [|x r IH]; simpl; intros Hn Hd.
  - constructor; [tauto | constructor].
  - destruct (Todo.createdAt x <=? Todo.createdAt t).
    + constructor; [simpl; tauto | exact Hd].
    + apply NoDup_cons_iff in Hd. destruct Hd as [Hx Hr].
      constructor; [|apply IH; tauto].
      rewrite In_insert_desc. intros [->|H]; tauto.
Qed.

Lemma sort_desc_NoDup l : NoDup l -> NoDup (sort_desc l).
Proof.
  induction l as [|x r IH]; simpl; intros Hd; [constructor|].
  apply NoDup_cons_iff in Hd. destruct Hd as [Hx Hr].
  apply insert_desc_NoDup; [now rewrite In_sort_desc | now apply IH].
Qed.

(** When no two rows have the same creation time, [createdAt desc] leaves
    the store no choice: every duplicate-free list of the selected rows that
    is ordered by [createdAt], newest first, is the list of the model. *)
Lemma sorted_selection_unique (l1 : list Todo.t) :
  forall l2,
    StronglySorted (fun a b => Todo.createdAt b <= Todo.createdAt a) l1 ->
    StronglySorted (fun a b => Todo.createdAt b <= Todo.createdAt a) l2 ->
    NoDup l1 -> NoDup l2 ->
    (forall x, In x l1 <-> In x l2) ->
    (forall x y, In x l1 -> In y l1 -> Todo.createdAt x = Todo.createdAt y -> x = y) ->
    l1 = l2.
Proof.
  induction l1 as [|x r1 IH]; intros l2 S1 S2 N1 N2 Hsame Hkey.
  - destruct l2 as [|y r2]; [reflexivity|].
    exfalso. apply (proj2 (Hsame y)). now left.
  - destruct l2 as [|y r2]; [exfalso; apply (proj1 (Hsame x)); now left|].
    apply StronglySorted_inv in S1. destruct S1 as [S1 F1].
    apply StronglySorted_inv in S2. destruct S2 as [S2 F2].
    rewrite Forall_forall in F1, F2.
    apply NoDup_cons_iff in N1. destruct N1 as [Hx N1].
    apply NoDup_cons_iff in N2. destruct N2 as [Hy N2].
    assert (Exy : x = y).
    { apply Hkey; [now left | apply Hsame; now left |].
      assert (H1 : Todo.createdAt x <= Todo.createdAt y).
      { destruct (proj1 (Hsame x) (or_introl eq_refl)) as [->|Hin]; [lia|].
        now apply F2. }
      assert (H2 : Todo.createdAt y <= Todo.createdAt x).
      { destruct (proj2 (Hsame y) (or_introl eq_refl)) as [->|Hin]; [lia|].
        now apply F1. }
      lia. }
    subst y. f_equal. apply IH; auto.
    + intros z. split; intros Hz.
      * destruct (proj1 (Hsame z) (or_intror Hz)) as [->|H]; [contradiction | exact H].
      * destruct (proj2 (Hsame z) (or_intror Hz)) as [->|H]; [contradiction | exact H].
    + intros a b Ha Hb. apply Hkey; now right.
Qed.

Lemma sort_desc_forced (l l' : list Todo.t) :
  NoDup (map Todo.createdAt l) ->
  NoDup l' ->
  (forall x, In x l' <-> In x l) ->
  StronglySorted (fun a b => Todo.createdAt b <= Todo.createdAt a) l' ->
  l' = sort_desc l.
Proof.
  intros Hkeys Hnd Hsame Hsorted.
  assert (Hl : NoDup l) by (eapply NoDup_map_inv; exact Hkeys).
  apply sorted_selection_unique; auto.
  - apply sort_desc_sorted.
  - now apply sort_desc_NoDup.
  - intros x. rewrite In_sort_desc. apply Hsame.
  - intros x y Hx Hy. apply Hsame in Hx. apply Hsame in Hy.
    exact (same_key_same_row Todo.createdAt l x y Hkeys Hx Hy).
Qed.




(** ** The detail view *)

Lemma opt_eqb_eq a b : opt_eqb a b = true <-> a = b.
Proof.
  destruct b as [z|]; [apply opt_eqb_Some|].
  destruct a; simpl; split; intros H; try reflexivity; discriminate H.
Qed.

Lemma firstn_short {A} n (l : list A) : len (firstn n l) <= Z.of_nat n.
Proof. unfold len. pose proof (firstn_le_length n l). lia. Qed.

Lemma firstn_In_list {A} n (l : list A) x : In x (firstn n l) -> In x l.
Proof. apply (In_firstn_skipn n 0 l x). Qed.

(** X16: the [related] lists of a detail response.  Each of the three lists
    holds at most five stored todos and never the requested todo itself;
    [similarTodos] have the category of the requested todo, [userTodos] its
    user (and the list is empty when it has none), and every member of
    [relatedByTags] carries a tag that the requested todo carries. *)
Theorem X16_related_lists idParam id db d :
  parseInt_string idParam = Some id ->
  getTodo idParam db = Detail d ->
  findUnique db id = Some (view_todo (detail_todo d))
  /\ (len (similarTodos d) <= 5 /\ len (userTodos d) <= 5
      /\ len (relatedByTags d) <= 5)
  /\ (forall t, In t (similarTodos d) ->
        In t (todos db) /\ Todo.id t <> id
        /\ Todo.categoryId t = Todo.categoryId (view_todo (detail_todo d)))
  /\ (forall t, In t (userTodos d) ->
        In t (todos db) /\ Todo.id t <> id
        /\ Todo.userId t = Todo.userId (view_todo (detail_todo d))
        /\ Todo.userId t <> None)
  /\ (forall t, In t (relatedByTags d) ->
        In t (todos db) /\ Todo.id t <> id
        /\ exists g, In g (tagIds_of db (Todo.id t)) /\ In g (tagIds_of db id)).
Proof.
  intros Hid H. unfold getTodo in H. rewrite Hid in H.
  destruct (findUnique db id) as [todo|] eqn:F; [|discriminate H].
  injection H as Hd. subst d. cbn [detail_todo similarTodos userTodos
    relatedByTags view view_todo].
  split; [reflexivity|]. split; [|split; [|split]].
  - split; [apply (firstn_short 5)|]. split.
    + destruct (Todo.userId todo) as [u|]; [|unfold len; simpl; lia].
      destruct (u =? 0); [unfold len; simpl; lia | apply (firstn_short 5)].
    + destruct (tagIds_of db id); [unfold len; simpl; lia | apply (firstn_short 5)].
  - intros t Ht. apply (firstn_In_list 5), filter_In in Ht. destruct Ht as [Hin Hc].
    apply andb_true_iff in Hc. destruct Hc as [Hc Ho].
    apply opt_eqb_eq in Hc. apply negb_true_iff, Z.eqb_neq in Ho. auto.
  - intros t Ht. destruct (Todo.userId todo) as [u|]; [|destruct Ht].
    destruct (u =? 0); [destruct Ht|].
    apply (firstn_In_list 5), filter_In in Ht. destruct Ht as [Hin Hc].
    apply andb_true_iff in Hc. destruct Hc as [Hc Ho].
    apply opt_eqb_eq in Hc. apply negb_true_iff, Z.eqb_neq in Ho.
    rewrite Hc. repeat split; auto. discriminate.
  - intros t Ht. destruct (tagIds_of db id) as [|g0 gs] eqn:G; [destruct Ht|].
    apply (firstn_In_list 5), filter_In in Ht. destruct Ht as [Hin Hc].
    apply andb_true_iff in Hc. destruct Hc as [Ho Hc].
    apply negb_true_iff, Z.eqb_neq in Ho.
    unfold shares_tag in Hc. apply existsb_exists in Hc.
    destruct Hc as [g [Hg1 Hg2]]. apply includes_In in Hg2. eauto.
Qed.

Lemma X16_related_lists_witness :
  exists d,
    getTodo "1" chain_store = Detail d
    /\ findUnique chain_store 1 = Some (view_todo (detail_todo d))
    /\ (len (similarTodos d) <= 5 /\ len (userTodos d) <= 5
        /\ len (relatedByTags d) <= 5)
    /\ (forall t, In t (similarTodos d) ->
          In t (todos chain_store) /\ Todo.id t <> 1
          /\ Todo.categoryId t = Todo.categoryId (view_todo (detail_todo d)))
    /\ (forall t, In t (userTodos d) ->
          In t (todos chain_store) /\ Todo.id t <> 1
          /\ Todo.userId t = Todo.userId (view_todo (detail_todo d))
          /\ Todo.userId t <> None)
    /\ (forall t, In t (relatedByTags d) ->
          In t (todos chain_store) /\ Todo.id t <> 1
          /\ exists g, In g (tagIds_of chain_store (Todo.id t))
                       /\ In g (tagIds_of chain_store 1)).
Proof.
  eexists. split; [reflexivity|].
  apply (X16_related_lists "1" 1 chain_store); reflexivity.
Defined.

Lemma In_insert_history_desc h x l :
  In x (insert_history_desc h l) <-> x = h \/ In x l.
Proof.
  induction l as [|y r IH]; simpl.
  - intuition.
  - destruct (TodoHistory.createdAt y <=? TodoHistory.createdAt h); simpl;
      [intuition|].
    rewrite IH. intuition.
Qed.

Lemma In_sort_history_desc x l : In x (sort_history_desc l) <-> In x l.
Proof.
  induction l as [|y r IH]; simpl; [reflexivity|].
  rewrite In_insert_history_desc, IH. intuition.
Qed.

Lemma sort_history_desc_sorted l :
  StronglySorted
    (fun a b => TodoHistory.createdAt b <= TodoHistory.createdAt a)
    (sort_history_desc l).
Proof.
  induction l as [|h rest IH]; simpl; [constructor|].
  revert IH. generalize (sort_history_desc rest) as s. clear rest.
  induction s as [|x r IHs]; intros Hs; simpl.
  - constructor; constructor.
  - apply StronglySorted_inv in Hs. destruct Hs as [Hr Hx].
    destruct (TodoHistory.createdAt x <=? TodoHistory.createdAt h) eqn:E.
    + apply Z.leb_le in E. constructor; [constructor; assumption|].
      constructor; [exact E|].
      rewrite Forall_forall in *. intros y Hy. specialize (Hx y Hy). lia.
    + apply Z.leb_gt in E. constructor; [now apply IHs|].
      rewrite Forall_forall in *. intros y Hy. apply In_insert_history_desc in Hy.
      destruct Hy as [->|Hy]; [lia | now apply Hx].
Qed.

(** X17: the [stats] of a detail response.  For a stored todo the answer is
    a detail; [allDependenciesCompleted] holds exactly when every stored
    todo it depends on is completed (so also when it has no dependency);
    [recentChanges] are at most ten history rows of this todo, newest first;
    and the note, attachment, history and dependency counts are the ones a
    delete of the todo reports as removed. *)
Theorem X17_detail_stats idParam id t db :
  parseInt_string idParam = Some id ->
  findUnique db id = Some t ->
  exists d,
    getTodo idParam db = Detail d
    /\ (allDependenciesCompleted d = true
        <-> forall x, In x (todos db) ->
                      In (id, Todo.id x) (todoDependencies db) ->
                      Todo.completed x = true)
    /\ (len (recentChanges d) <= 10
        /\ (forall h, In h (recentChanges d) ->
              In h (todoHistory db) /\ TodoHistory.todoId h = id)
        /\ StronglySorted
             (fun a b => TodoHistory.createdAt b <= TodoHistory.createdAt a)
             (recentChanges d))
    /\ exists tagCount dependents dependentTodos,
         snd (deleteTodo idParam db)
         = mkResponse 200
             (Deleted id tagCount (notesCount d) (attachmentsCount d)
                (historyCount d) (dependenciesCount d) dependents dependentTodos).
Proof.
  intros Hid F. unfold getTodo, deleteTodo. rewrite Hid, F.
  eexists. split; [reflexivity|].
  cbn [allDependenciesCompleted recentChanges notesCount attachmentsCount
       historyCount dependenciesCount].
  split; [|split].
  - rewrite Z.eqb_eq. unfold len. rewrite <- Nat2Z.inj_0, Nat2Z.inj_iff.
    rewrite length_zero_iff_nil. split.
    + intros E x Hx He.
      destruct (Todo.completed x) eqn:C; [reflexivity|]. exfalso.
      assert (Hin : In x (filter (fun d => Bool.eqb (Todo.completed d) false)
                            (dependencies_of db id))).
      { apply filter_In. split.
        - apply filter_In. split; [exact Hx | now apply has_edge_In].
        - now rewrite C. }
      rewrite E in Hin. exact Hin.
    + intros H.
      destruct (filter (fun d => Bool.eqb (Todo.completed d) false)
                  (dependencies_of db id)) as [|x r] eqn:E; [reflexivity|].
      exfalso.
      assert (Hin : In x (filter (fun d => Bool.eqb (Todo.completed d) false)
                            (dependencies_of db id))) by (rewrite E; now left).
      apply filter_In in Hin. destruct Hin as [Hin Hc].
      apply filter_In in Hin. destruct Hin as [Hin He].
      apply has_edge_In in He. rewrite (H x Hin He) in Hc. discriminate Hc.
  - split; [apply (firstn_short 10)|]. split.
    + intros h Hh. apply (firstn_In_list 10) in Hh.
      apply In_sort_history_desc, filter_In in Hh. destruct Hh as [Hin Hh].
      apply Z.eqb_eq in Hh. auto.
    + pose proof (sort_history_desc_sorted
                    (filter (fun h => TodoHistory.todoId h =? id) (todoHistory db)))
        as Hs.
      rewrite <- (firstn_skipn 10) in Hs. apply sorted_app in Hs. tauto.
  - assert (Hex : todo_exists db id = true) by (apply findUnique_exists; eauto).
    unfold todo_delete. rewrite Hex. cbn [snd]. eauto.
Qed.

Lemma X17_detail_stats_witness :
  exists d,
    getTodo "1" chain_store = Detail d
    /\ (allDependenciesCompleted d = true
        <-> forall x, In x (todos chain_store) ->
                      In (1, Todo.id x) (todoDependencies chain_store) ->
                      Todo.completed x = true)
    /\ (len (recentChanges d) <= 10
        /\ (forall h, In h (recentChanges d) ->
              In h (todoHistory chain_store) /\ TodoHistory.todoId h = 1)
        /\ StronglySorted
             (fun a b => TodoHistory.createdAt b <= TodoHistory.createdAt a)
             (recentChanges d))
    /\ exists tagCount dependents dependentTodos,
         snd (deleteTodo "1" chain_store)
         = mkResponse 200
             (Deleted 1 tagCount (notesCount d) (attachmentsCount d)
                (historyCount d) (dependenciesCount d) dependents dependentTodos).
Proof.
  apply (X17_detail_stats "1" 1
           (sample_todo 1 "Write API documentation" false LOW) chain_store);
    reflexivity.
Defined.

(** ** What a create stores *)

Lemma connect_frame a ids :
  forall db u db',
    connect a ids db = Done (u, db') ->
    db' = with_todoDependencies db (todoDependencies db').
Proof.
  unfold connect. induction ids as [|b rest IH]; intros db u db' H; simpl in H.
  - apply tx_ret_Done in H. destruct H as [_ ->]. now destruct db.
  - apply tx_bind_Done in H. destruct H as [u1 [db1 [Hb H]]].
    destruct (todo_exists db b); [|discriminate]. inversion Hb; subst; clear Hb.
    etransitivity; [exact (IH _ _ _ H) | reflexivity].
Qed.

Lemma create_tag_loop now id xs :
  forall db u db',
    tx_for xs (fun tagId =>
      tx_bind (tx_lift (parseInt tagId))
        (fun parsed => tagsOnTodos_create now id parsed)) db = Done (u, db') ->
    exists T,
      parseInts xs = Some T
      /\ db' = with_tagsOnTodos db
                 (tagsOnTodos db ++ map (fun g => TagsOnTodos.mk id g now) T)
      /\ NoDup T
      /\ forall g, In g T -> ~ In g (tagIds_of db id).
Proof.
  induction xs as [|x r IH]; intros db u db' H; simpl in H.
  - apply tx_ret_Done in H. destruct H as [_ ->]. exists [].
    split; [reflexivity|]. simpl. rewrite app_nil_r.
    split; [now destruct db|]. split; [constructor | intros g []].
  - apply tx_bind_Done in H. destruct H as [u1 [db1 [Hbody H]]].
    apply tx_bind_Done in Hbody. destruct Hbody as [g [db0 [Hg Hbody]]].
    apply tx_lift_Done in Hg. destruct Hg as [Hg ->].
    destruct (IH _ _ _ H) as [T [HT [Hdb [Hnd Hnew]]]].
    unfold tagsOnTodos_create in Hbody.
    destruct (todo_exists db id && tag_exists db g
              && negb (includes (tagIds_of db id) g)) eqn:Eok; [|discriminate].
    inversion Hbody; subst db1; clear Hbody.
    apply andb_true_iff in Eok. destruct Eok as [_ Eg].
    apply negb_true_iff in Eg.
    assert (Hjoined : forall k, In k (tagIds_of
                        (with_tagsOnTodos db
                           (tagsOnTodos db ++ [TagsOnTodos.mk id g now])) id)
                      <-> In k (tagIds_of db id) \/ k = g).
    { intros k. unfold tagIds_of. simpl. rewrite filter_app, map_app, in_app_iff.
      simpl. rewrite Z.eqb_refl. simpl. intuition. }
    exists (g :: T). simpl. rewrite Hg, HT. split; [reflexivity|].
    split; [|split].
    + rewrite Hdb. simpl. unfold with_tagsOnTodos. simpl.
      now rewrite <- app_assoc.
    + constructor; [|exact Hnd]. intros Hin. apply (Hnew g Hin).
      apply Hjoined. now right.
    + intros k [<-|Hk].
      * intros Hin. apply includes_In in Hin. congruence.
      * intros Hin. apply (Hnew k Hk). apply Hjoined. now left.
Qed.

Lemma create_note_loop now id contents :
  forall db u db',
    tx_for contents (fun noteContent =>
      tx_bind (tx_lift (as_string noteContent))
        (fun content => note_create now id content)) db = Done (u, db') ->
    exists added,
      db' = with_notes db (notes db ++ added) (notes_id_seq db + len added)
      /\ map (fun n => Some (Note.content n)) added = map as_string contents
      /\ forall n, In n added -> Note.todoId n = id /\ Note.createdAt n = now.
Proof.
  induction contents as [|c rest IH]; intros db u db' H; simpl in H.
  - apply tx_ret_Done in H. destruct H as [_ ->]. exists []. simpl.
    rewrite app_nil_r, Z.add_0_r. split; [now destruct db|].
    split; [reflexivity | intros n []].
  - apply tx_bind_Done in H. destruct H as [u1 [db1 [Hbody H]]].
    apply tx_bind_Done in Hbody. destruct Hbody as [s [db0 [Hs Hbody]]].
    apply tx_lift_Done in Hs. destruct Hs as [Hs ->].
    destruct (IH _ _ _ H) as [added [Hdb [Hcontents Hall]]].
    unfold note_create in Hbody. destruct (todo_exists db id); [|discriminate].
    injection Hbody as _ Hdb1. rewrite <- Hdb1 in Hdb. simpl in Hdb.
    exists (Note.mk (notes_id_seq db) s id now :: added).
    split; [|split].
    + rewrite Hdb. unfold with_notes, len. simpl length.
      rewrite <- app_assoc. simpl. f_equal. lia.
    + simpl. now rewrite Hs, Hcontents.
    + intros n [<-|Hn]; [simpl; auto | now apply Hall].
Qed.

(** The store after the transaction of a create. *)
Lemma postTodo_tx_store now b db todo db' :
  postTodo_tx now b db = Done (todo, db') ->
  exists T D added,
    parseInts (CreateBody.tagIds b) = Some T
    /\ parseInts (CreateBody.dependencies b) = Some D
    /\ Todo.id todo = todos_id_seq db
    /\ todos db' = (todos db ++ [todo])%list
    /\ tagsOnTodos db'
       = (tagsOnTodos db ++ map (fun g => TagsOnTodos.mk (Todo.id todo) g now) T)%list
    /\ (notes db' = (notes db ++ added)%list
        /\ map (fun n => Some (Note.content n)) added
           = map as_string (CreateBody.notes b)
        /\ forall n, In n added -> Note.todoId n = Todo.id todo)
    /\ (forall e, In e (todoDependencies db')
                  <-> In e (todoDependencies db)
                      \/ (fst e = Todo.id todo /\ In (snd e) D))
    /\ todoHistory db'
       = (todoHistory db
          ++ [TodoHistory.mk (todo_history_id_seq db) (Todo.id todo) "CREATED"
                "Todo was created" now])%list
    /\ (users db' = users db /\ categories db' = categories db
        /\ tags db' = tags db /\ attachments db' = attachments db).
Proof.
  intros Etx. unfold postTodo_tx in Etx.
  do 5 (apply tx_bind_Done in Etx; destruct Etx as [? [? [Hl Etx]]];
        apply tx_lift_Done in Hl; destruct Hl as [_ ->]).
  apply tx_bind_Done in Etx. destruct Etx as [D [? [Hl Etx]]].
  apply tx_lift_Done in Hl. destruct Hl as [HD ->].
  apply tx_bind_Done in Etx. destruct Etx as [t [db1 [Hc Etx]]].
  assert (Hid : Todo.id t = todos_id_seq db /\
                db1 = with_todos db (todos db ++ [t]) (todos_id_seq db + 1)).
  { unfold todo_create in Hc. destruct (_ && _); [|discriminate].
    inversion Hc. split; reflexivity. }
  destruct Hid as [Hid Hdb1]. clear Hc.
  apply tx_bind_Done in Etx. destruct Etx as [u2 [db2 [Hconn Etx]]].
  pose proof (connect_spec _ _ _ _ _ Hconn) as Hedges.
  apply connect_frame in Hconn.
  apply tx_bind_Done in Etx. destruct Etx as [u3 [db3 [Htags Etx]]].
  apply create_tag_loop in Htags. destruct Htags as [T [HT [Hdb3 _]]].
  apply tx_bind_Done in Etx. destruct Etx as [u4 [db4 [Hnotes Etx]]].
  apply create_note_loop in Hnotes. destruct Hnotes as [added [Hdb4 [Hcont Hall]]].
  apply tx_bind_Done in Etx. destruct Etx as [u5 [db5 [Hhist Etx]]].
  apply tx_ret_Done in Etx. destruct Etx as [-> ->].
  unfold todoHistory_create in Hhist.
  destruct (todo_exists db4 (Todo.id t)); [|discriminate].
  inversion Hhist; subst db5; clear Hhist.
  exists T, D, added.
  split; [exact HT|]. split; [exact HD|]. split; [exact Hid|].
  rewrite Hdb4, Hdb3, Hconn, Hdb1. simpl.
  split; [reflexivity|]. split; [reflexivity|].
  split; [split; [reflexivity|split; [exact Hcont | intros k Hk; now apply Hall]]|].
  split.
  { intros e. rewrite (Hedges e). rewrite Hdb1. simpl. reflexivity. }
  split; [reflexivity | repeat split].
Qed.

(** A create that is answered 201 has passed the checks and committed its
    transaction; the response shows the re-read row. *)
Lemma postTodo_201 now b db :
  status (snd (postTodo now b db)) = 201 ->
  exists u c n todo created,
    postTodo_checks db b = Ok (u, c, n)
    /\ postTodo_tx now b db = Done (todo, fst (postTodo now b db))
    /\ findUnique (fst (postTodo now b db)) (Todo.id todo) = Some created
    /\ snd (postTodo now b db)
       = mkResponse 201 (Created (view (fst (postTodo now b db)) created)
                           (u + 1) (c + 1) (n + 1)).
Proof.
  unfold postTodo.
  destruct (postTodo_checks db b) as [[[u c] n]|r0|] eqn:Echk;
    [| | intros H; discriminate H].
  2:{ intros H. simpl in H.
      destruct (client_error_postTodo_checks db b r0 Echk) as [E|E];
        rewrite E in H; discriminate H. }
  destruct (postTodo_tx now b db) as [[todo db1]|] eqn:Etx;
    [|intros H; discriminate H].
  destruct (findUnique db1 (Todo.id todo)) as [created|] eqn:F;
    [|intros H; discriminate H].
  intros _. exists u, c, n, todo, created. simpl. auto.
Qed.

(** X18: what a create stores.  A create that is answered 201 has appended
    to the store one todo under the next serial id, one tag join per listed
    tag id (in the order of the list), one note per listed content, the
    edges from the new todo to the listed dependencies, and one CREATED
    history row; every other row, and the users, categories, tags and
    attachments, are as before, and [totalTodoCount] of the response is the
    number of todos now stored. *)
Theorem X18_create_stores_what_the_body_lists now b db db' r :
  postTodo now b db = (db', r) ->
  status r = 201 ->
  exists todo T D added,
    parseInts (CreateBody.tagIds b) = Some T
    /\ parseInts (CreateBody.dependencies b) = Some D
    /\ Todo.id todo = todos_id_seq db
    /\ todos db' = (todos db ++ [todo])%list
    /\ tagsOnTodos db'
       = (tagsOnTodos db ++ map (fun g => TagsOnTodos.mk (Todo.id todo) g now) T)%list
    /\ (notes db' = (notes db ++ added)%list
        /\ map (fun n => Some (Note.content n)) added
           = map as_string (CreateBody.notes b)
        /\ forall n, In n added -> Note.todoId n = Todo.id todo)
    /\ (forall e, In e (todoDependencies db')
                  <-> In e (todoDependencies db)
                      \/ (fst e = Todo.id todo /\ In (snd e) D))
    /\ todoHistory db'
       = (todoHistory db
          ++ [TodoHistory.mk (todo_history_id_seq db) (Todo.id todo) "CREATED"
                "Todo was created" now])%list
    /\ (users db' = users db /\ categories db' = categories db
        /\ tags db' = tags db /\ attachments db' = attachments db)
    /\ exists v userTodoCount categoryTodoCount,
         body r = Created v userTodoCount categoryTodoCount (len (todos db')).
Proof.
  intros Hpost Hstatus.
  assert (Hdb : db' = fst (postTodo now b db)) by (now rewrite Hpost).
  assert (Hr : r = snd (postTodo now b db)) by (now rewrite Hpost).
  rewrite Hr in Hstatus.
  destruct (postTodo_201 _ _ _ Hstatus)
    as [u [c [n [todo [created [Echk [Etx [_ Hresp]]]]]]]].
  rewrite <- Hdb in Etx, Hresp. rewrite <- Hr in Hresp. clear Hpost Hstatus Hdb Hr.
  assert (Hn : n = len (todos db)).
  { unfold postTodo_checks in Echk.
    do 8 (apply bind_Ok in Echk; destruct Echk as [? [_ Echk]]).
    inversion Echk. unfold todo_count, len. now rewrite filter_all. }
  destruct (postTodo_tx_store _ _ _ _ _ Etx)
    as [T [D [added [HT [HD [Hid [Htodos [Htags [Hnotes [Hedges [Hhist Hrest]]]]]]]]]]].
  exists todo, T, D, added.
  split; [exact HT|]. split; [exact HD|]. split; [exact Hid|].
  split; [exact Htodos|]. split; [exact Htags|]. split; [exact Hnotes|].
  split; [exact Hedges|]. split; [exact Hhist|]. split; [exact Hrest|].
  do 3 eexists. rewrite Hresp. simpl. f_equal.
  rewrite Htodos, Hn. unfold len. rewrite length_app. simpl. lia.
Qed.

Lemma X18_create_stores_what_the_body_lists_witness :
  exists todo T D added,
    parseInts (CreateBody.tagIds (create_titled "A")) = Some T
    /\ parseInts (CreateBody.dependencies (create_titled "A")) = Some D
    /\ Todo.id todo = todos_id_seq chain_store
    /\ todos (fst (postTodo 2000 (create_titled "A") chain_store))
       = (todos chain_store ++ [todo])%list
    /\ tagsOnTodos (fst (postTodo 2000 (create_titled "A") chain_store))
       = (tagsOnTodos chain_store
          ++ map (fun g => TagsOnTodos.mk (Todo.id todo) g 2000) T)%list
    /\ (notes (fst (postTodo 2000 (create_titled "A") chain_store))
        = (notes chain_store ++ added)%list
        /\ map (fun n => Some (Note.content n)) added
           = map as_string (CreateBody.notes (create_titled "A"))
        /\ forall n, In n added -> Note.todoId n = Todo.id todo)
    /\ (forall e, In e (todoDependencies
                          (fst (postTodo 2000 (create_titled "A") chain_store)))
                  <-> In e (todoDependencies chain_store)
                      \/ (fst e = Todo.id todo /\ In (snd e) D))
    /\ todoHistory (fst (postTodo 2000 (create_titled "A") chain_store))
       = (todoHistory chain_store
          ++ [TodoHistory.mk (todo_history_id_seq chain_store) (Todo.id todo)
                "CREATED" "Todo was created" 2000])%list
    /\ (users (fst (postTodo 2000 (create_titled "A") chain_store))
        = users chain_store
        /\ categories (fst (postTodo 2000 (create_titled "A") chain_store))
           = categories chain_store
        /\ tags (fst (postTodo 2000 (create_titled "A") chain_store))
           = tags chain_store
        /\ attachments (fst (postTodo 2000 (create_titled "A") chain_store))
           = attachments chain_store)
    /\ exists v userTodoCount categoryTodoCount,
         body (snd (postTodo 2000 (create_titled "A") chain_store))
         = Created v userTodoCount categoryTodoCount
             (len (todos (fst (postTodo 2000 (create_titled "A") chain_store)))).
Proof.
  apply (X18_create_stores_what_the_body_lists 2000 (create_titled "A") chain_store
           (fst (postTodo 2000 (create_titled "A") chain_store))
           (snd (postTodo 2000 (create_titled "A") chain_store)));
    reflexivity.
Defined.

Lemma parseInts_length xs : forall ids, parseInts xs = Some ids -> length ids = length xs.
Proof.
  induction xs as [|x r IH]; intros ids H; simpl in H.
  - now inversion H.
  - destruct (parseInt x); [|discriminate].
    destruct (parseInts r) as [zs|]; [|discriminate].
    inversion H; subst. simpl. f_equal. now apply IH.
Qed.

Lemma counted_ids_distinct {Row} (id_of : Row -> Z) (rows : list Row) (ids : list Z) :
  NoDup (map id_of rows) ->
  length (filter (fun r => includes ids (id_of r)) rows) = length ids ->
  NoDup ids.
Proof.
  intros Hnd Hlen.
  apply NoDup_incl_NoDup
    with (l := map id_of (filter (fun r => includes ids (id_of r)) rows)).
  - now apply NoDup_map_filter.
  - rewrite length_map, Hlen. lia.
  - intros y Hy. apply in_map_iff in Hy.
    destruct Hy as [r [<- Hr]]. apply filter_In in Hr. destruct Hr as [_ Hr].
    now apply includes_In.
Qed.

Lemma validate_ids_counted {Row} (id_of : Row -> Z) (rows : list Row) xs msg ids :
  NoDup (map id_of rows) ->
  validate_ids
    (fun l => Z.of_nat (length (filter (fun r => includes l (id_of r)) rows)))
    xs msg = Ok tt ->
  parseInts xs = Some ids ->
  NoDup ids /\ forall z, In z ids -> In z (map id_of rows).
Proof.
  intros Hnd Hval Hparse. pose proof (parseInts_length _ _ Hparse) as Hlen.
  unfold validate_ids in Hval. destruct xs as [|x xs'].
  - simpl in Hparse. inversion Hparse; subst.
    split; [constructor | intros z []].
  - rewrite Hparse in Hval. simpl in Hval. unfold guard in Hval.
    destruct (_ =? _) eqn:E; [|discriminate]. apply Z.eqb_eq in E.
    unfold len in E. apply Nat2Z.inj in E. rewrite <- Hlen in E. split.
    + exact (counted_ids_distinct id_of rows ids Hnd E).
    + exact (counted_ids_exist id_of rows ids Hnd E).
Qed.

(** X19: what a create accepts as references.  In a well-formed store a
    create that is answered 201 lists pairwise different tag ids, each of a
    stored tag, and pairwise different dependencies, each a todo stored
    before the request: a repeated or unknown id does not pass the count
    comparison of the validation. *)
Theorem X19_created_references_are_distinct_and_stored now b db T D :
  well_formed db = true ->
  status (snd (postTodo now b db)) = 201 ->
  parseInts (CreateBody.tagIds b) = Some T ->
  parseInts (CreateBody.dependencies b) = Some D ->
  (NoDup T /\ forall g, In g T -> tag_exists db g = true)
  /\ (NoDup D /\ forall d, In d D -> todo_exists db d = true).
Proof.
  intros Hwf Hstatus HT HD. apply well_formed_wf in Hwf.
  unfold postTodo in Hstatus.
  destruct (postTodo_checks db b) as [[[u c] n]|r0|] eqn:Echk;
    [| | discriminate Hstatus].
  2:{ destruct (client_error_postTodo_checks db b r0 Echk) as [E|E];
        simpl in Hstatus; rewrite E in Hstatus; discriminate Hstatus. }
  clear Hstatus. unfold postTodo_checks in Echk.
  do 3 (apply bind_Ok in Echk; destruct Echk as [? [_ Echk]]).
  apply bind_Ok in Echk. destruct Echk as [[] [Htags Echk]].
  apply bind_Ok in Echk. destruct Echk as [[] [Hdeps _]].
  split.
  - destruct (validate_ids_counted Tag.id (tags db) _ _ T (wf_tag_ids db Hwf)
                Htags HT) as [Hnd Hall].
    split; [exact Hnd|]. intros g Hg. apply Hall, in_map_iff in Hg.
    destruct Hg as [row [Hx Hin]]. unfold tag_exists. apply existsb_exists.
    exists row. split; [exact Hin | now apply Z.eqb_eq].
  - destruct (validate_ids_counted Todo.id (todos db) _ _ D (wf_todo_ids db Hwf)
                Hdeps HD) as [Hnd Hall].
    split; [exact Hnd|]. intros d Hd. apply Hall, in_map_iff in Hd.
    destruct Hd as [row [Hx Hin]]. apply todo_exists_In. eauto.
Qed.

Lemma X19_created_references_are_distinct_and_stored_witness :
  (NoDup [1; 2] /\ forall g, In g [1; 2] -> tag_exists chain_store g = true)
  /\ (NoDup [3] /\ forall d, In d [3] -> todo_exists chain_store d = true).
Proof.
  apply (X19_created_references_are_distinct_and_stored 2000
           (CreateBody.mk (Some (JStr "A")) None None None None None
              [JNum 1; JStr "2"] [] [JNum 3])
           chain_store [1; 2] [3]);
    reflexivity.
Defined.

(** A tag id that is listed twice is refused, although the tag is stored. *)
Example repeated_tag_is_refused :
  postTodo 2000
    (CreateBody.mk (Some (JStr "A")) None None None None None
       [JNum 1; JNum 1] [] [])
    chain_store
  = (chain_store, mkResponse 400 (Error "Some tags not found")).
Proof. reflexivity. Qed.

(** ** The dependency status of a toggle *)

Lemma In_rewrite_rows id g l y :
  In y (rewrite_rows id g l)
  <-> exists x, In x l /\ y = (if Todo.id x =? id then g x else x).
Proof.
  unfold rewrite_rows. rewrite in_map_iff. split; intros [x [H1 H2]]; eauto.
Qed.

(** X20: the [dependencyStatus] of a toggle.  When the toggle completes the
    todo, [uncompletedDependencies] lists the stored dependencies of the
    todo that are not completed (the toggle is carried out all the same),
    and [blockedTodos] lists exactly the stored todos that depend on it and
    have, in the store after the toggle, no dependency left that is not
    completed.  When the toggle reopens the todo both lists are empty. *)
Theorem X20_toggle_dependency_status now idParam id t db :
  parseInt_string idParam = Some id ->
  findUnique db id = Some t ->
  let db' := fst (toggleTodo now idParam db) in
  exists result uncompleted dependents blocked,
    snd (toggleTodo now idParam db)
    = mkResponse 200 (Toggled result uncompleted dependents blocked)
    /\ dependents = len (todos_depending_on db id)
    /\ (Todo.completed t = true -> uncompleted = [] /\ blocked = [])
    /\ (Todo.completed t = false ->
        (forall x, In x uncompleted
                   <-> exists d, In d (todos db) /\ Todo.id d = x
                                 /\ In (id, x) (todoDependencies db)
                                 /\ Todo.completed d = false)
        /\ (forall x, In x blocked
                      <-> (exists row, In row (todos db') /\ Todo.id row = x)
                          /\ In (x, id) (todoDependencies db')
                          /\ forall d, In d (todos db') ->
                                       In (x, Todo.id d) (todoDependencies db') ->
                                       Todo.completed d = true)).
Proof.
  intros Hid Hfind db'. unfold db', toggleTodo. rewrite Hid, Hfind.
  rewrite (toggleTodo_tx_ok now id t db Hfind). cbn [fst snd].
  do 4 eexists. split; [reflexivity|]. split; [reflexivity|]. split.
  - intros C. unfold toggled_row. simpl. rewrite C. simpl. auto.
  - intros C. unfold toggled_row. cbn [apply_update in_completed or_else Todo.completed].
    rewrite C. cbn [negb]. split.
    + intros x. rewrite in_map_iff. split.
      * intros [d [Hd Hin]]. apply filter_In in Hin. destruct Hin as [Hin Hc].
        apply filter_In in Hin. destruct Hin as [Hin He].
        apply has_edge_In in He. apply negb_true_iff in Hc.
        exists d. subst x. auto.
      * intros [d [Hin [Hd [He Hc]]]]. exists d. split; [exact Hd|].
        apply filter_In. split; [|now rewrite Hc].
        apply filter_In. split; [exact Hin|]. apply has_edge_In. now rewrite Hd.
    + intros x. unfold toggled_store. rewrite C. cbn [negb todos todoDependencies
        with_todoHistory with_todos]. rewrite in_map_iff. split.
      * intros [y [Hy Hin]]. apply filter_In in Hin. destruct Hin as [Hin Hfree].
        apply filter_In in Hin. destruct Hin as [Hin He].
        apply has_edge_In in He. rewrite Hy in He, Hfree. split; [|split].
        -- exists (if Todo.id y =? id
                   then apply_update now (mkInput None None (Some true) None None None) y
                   else y).
           split; [apply In_rewrite_rows; eauto|].
           destruct (Todo.id y =? id); exact Hy.
        -- exact He.
        -- intros d Hd Hed. apply In_rewrite_rows in Hd.
           destruct Hd as [d0 [Hd0 ->]].
           destruct (Todo.id d0 =? id) eqn:Eid; [reflexivity|].
           apply negb_true_iff in Hfree.
           destruct (Todo.completed d0) eqn:Cd; [reflexivity|]. exfalso.
           assert (Hex : existsb (fun d => negb (Todo.id d =? id)
                                           && negb (Todo.completed d))
                           (dependencies_of db x) = true).
           { apply existsb_exists. exists d0. split.
             - apply filter_In. split; [exact Hd0 | now apply has_edge_In].
             - now rewrite Eid, Cd. }
           congruence.
      * intros [[row [Hrow Hx]] [He Hall]]. apply In_rewrite_rows in Hrow.
        destruct Hrow as [y [Hy ->]].
        assert (Hyx : Todo.id y = x) by (destruct (Todo.id y =? id); exact Hx).
        exists y. split; [exact Hyx|]. apply filter_In. split.
        -- apply filter_In. split; [exact Hy|]. apply has_edge_In. now rewrite Hyx.
        -- apply negb_true_iff.
           destruct (existsb _ (dependencies_of db (Todo.id y))) eqn:Eex;
             [|reflexivity].
           exfalso. apply existsb_exists in Eex. destruct Eex as [d [Hd Hc]].
           apply filter_In in Hd. destruct Hd as [Hd Hed].
           apply has_edge_In in Hed. apply andb_true_iff in Hc.
           destruct Hc as [Hn Hc]. apply negb_true_iff in Hn, Hc.
           assert (Hd' : In d (rewrite_rows id
                                 (apply_update now
                                    (mkInput None None (Some true) None None None))
                                 (todos db))).
           { apply In_rewrite_rows. exists d. split; [exact Hd|]. now rewrite Hn. }
           rewrite Hyx in Hed. rewrite (Hall d Hd' Hed) in Hc. discriminate Hc.
Qed.

Lemma X20_toggle_dependency_status_witness :
  let db' := fst (toggleTodo 2000 "2" chain_store) in
  exists result uncompleted dependents blocked,
    snd (toggleTodo 2000 "2" chain_store)
    = mkResponse 200 (Toggled result uncompleted dependents blocked)
    /\ dependents = len (todos_depending_on chain_store 2)
    /\ (Todo.completed (sample_todo 2 "Add input validation" false MEDIUM) = true ->
        uncompleted = [] /\ blocked = [])
    /\ (Todo.completed (sample_todo 2 "Add input validation" false MEDIUM) = false ->
        (forall x, In x uncompleted
                   <-> exists d, In d (todos chain_store) /\ Todo.id d = x
                                 /\ In (2, x) (todoDependencies chain_store)
                                 /\ Todo.completed d = false)
        /\ (forall x, In x blocked
                      <-> (exists row, In row (todos db') /\ Todo.id row = x)
                          /\ In (x, 2) (todoDependencies db')
                          /\ forall d, In d (todos db') ->
                                       In (x, Todo.id d) (todoDependencies db') ->
                                       Todo.completed d = true)).
Proof.
  apply (X20_toggle_dependency_status 2000 "2" 2
           (sample_todo 2 "Add input validation" false MEDIUM) chain_store);
    reflexivity.
Defined.

(** ** The row after an update *)

(** A [tx.todo.update] that only connects or disconnects relations leaves
    the rows of the todos as they are. *)
Lemma todo_update_again now id rows :
  preserves (fun d => todos d = rows) (todo_update now id no_fields).
Proof.
  intros db a db' HP H. unfold todo_update in H.
  destruct (findUnique db id); [|discriminate H].
  destruct (_ && _); [|discriminate H]. injection H as _ <-. simpl.
  rewrite <- HP. rewrite <- (map_id (todos db)) at 2. apply map_ext. intros x.
  destruct (Todo.id x =? id); [now destruct x | reflexivity].
Qed.

(** The todos after the transaction of an update: the row of [id] rewritten
    by the [data] of the request, whose references are stored. *)
Lemma putTodo_tx_todos now id changes b db res db' :
  putTodo_tx now id changes b db = Done (res, db') ->
  exists data,
    putTodo_data b = Some data
    /\ fk_ok (user_exists db) (or_else (in_userId data) None) = true
    /\ fk_ok (category_exists db) (or_else (in_categoryId data) None) = true
    /\ todos db' = rewrite_rows id (apply_update now data) (todos db).
Proof.
  unfold putTodo_tx. intros H.
  apply tx_bind_Done in H. destruct H as [data [db0 [Hdata H]]].
  apply tx_lift_Done in Hdata. destruct Hdata as [Hdata ->].
  apply tx_bind_Done in H. destruct H as [row [db1 [Hup H]]].
  exists data. split; [exact Hdata|].
  unfold todo_update in Hup. destruct (findUnique db id); [|discriminate].
  destruct (fk_ok (user_exists db) (or_else (in_userId data) None)) eqn:Eu;
    [|discriminate].
  destruct (fk_ok (category_exists db) (or_else (in_categoryId data) None)) eqn:Ec;
    [|discriminate].
  simpl in Hup. injection Hup as _ Hdb1.
  split; [reflexivity|]. split; [reflexivity|].
  assert (HP : todos db1 = rewrite_rows id (apply_update now data) (todos db))
    by (now subst db1).
  clear Hdb1.
  remember (rewrite_rows id (apply_update now data) (todos db)) as rows eqn:Er.
  clear Er. carry HP H; [frame; apply todo_update_again | exact K].
Qed.

(** X21: an update stores the fields that the body gives.  After an update
    of a stored todo that is answered 200, the row of the todo has the given
    title, description (a string or null), completed flag and priority; a
    given [categoryId] or [userId] is stored as [parseInt] reads it: the id
    of a stored category or user, or null when the value is not a number (so
    [categoryId: null] clears the category).  [updatedAt] is the time of the
    request when the body gives at least one of these six fields, and is
    unchanged when it gives none (also when tags, notes or dependencies
    change); id and [createdAt] are as before, and the row of every other id
    is unchanged. *)
Theorem X21_update_stores_given_fields now idParam id b db t :
  parseInt_string idParam = Some id ->
  findUnique db id = Some t ->
  status (snd (putTodo now idParam b db)) = 200 ->
  let db' := fst (putTodo now idParam b db) in
  (exists t',
      findUnique db' id = Some t'
      /\ (Todo.id t' = id /\ Todo.createdAt t' = Todo.createdAt t
          /\ Todo.updatedAt t'
             = if gives_field b then now else Todo.updatedAt t)
      /\ (forall v, UpdateBody.title b = Some v ->
                    as_string v = Some (Todo.title t'))
      /\ (forall v, UpdateBody.description b = Some v ->
                    as_nullable_string v = Some (Todo.description t'))
      /\ (forall v, UpdateBody.completed b = Some v ->
                    as_bool v = Some (Todo.completed t'))
      /\ (forall v, UpdateBody.priority b = Some v ->
                    as_priority v = Some (Todo.priority t'))
      /\ (forall v, UpdateBody.categoryId b = Some v ->
                    Todo.categoryId t' = parseInt v
                    /\ forall z, parseInt v = Some z -> category_exists db z = true)
      /\ (forall v, UpdateBody.userId b = Some v ->
                    Todo.userId t' = parseInt v
                    /\ forall z, parseInt v = Some z -> user_exists db z = true))
  /\ forall k, k <> id -> findUnique db' k = findUnique db k.
Proof.
  intros Hid Hfind H200 db'.
  destruct (putTodo_200 _ _ _ _ H200) as [id' [changes [res [Hid' Htx]]]].
  assert (id' = id) by congruence. subst id'. fold db' in Htx.
  destruct (putTodo_tx_todos _ _ _ _ _ _ _ Htx) as [data [Hdata [Hu [Hc Hrows]]]].
  assert (Hlook : forall k, findUnique db' k
                            = option_map (fun x => if Todo.id x =? id
                                                   then apply_update now data x
                                                   else x)
                                (findUnique db k)).
  { intros k. unfold findUnique. rewrite Hrows.
    apply find_rewrite_rows, apply_update_id. }
  pose proof (findUnique_Some _ _ _ Hfind) as [_ Hidt].
  split.
  - exists (apply_update now data t). split.
    + rewrite Hlook, Hfind. simpl. now rewrite Hidt, Z.eqb_refl.
    + clear Hlook Hrows Htx H200. unfold putTodo_data in Hdata.
      destruct (field as_string _) as [ti|] eqn:E1; [|discriminate].
      destruct (field as_nullable_string _) as [de|] eqn:E2; [|discriminate].
      destruct (field as_bool _) as [co|] eqn:E3; [|discriminate].
      destruct (field as_priority _) as [pr|] eqn:E4; [|discriminate].
      destruct (field number_or_null (UpdateBody.categoryId b)) as [ca|] eqn:E5;
        [|discriminate].
      destruct (field number_or_null (UpdateBody.userId b)) as [us|] eqn:E6;
        [|discriminate].
      injection Hdata as <-. simpl in Hu, Hc. unfold apply_update.
      cbn [Todo.id Todo.createdAt Todo.updatedAt Todo.title Todo.description
           Todo.completed Todo.priority Todo.categoryId Todo.userId
           in_title in_description in_completed in_priority in_categoryId
           in_userId].
      split.
      { split; [exact Hidt|]. split; [reflexivity|].
        unfold has_field, gives_field.
        cbn [in_title in_description in_completed in_priority in_categoryId
             in_userId].
        destruct (UpdateBody.title b); simpl in E1;
          [destruct (as_string _); inversion E1; reflexivity|].
        destruct (UpdateBody.description b); simpl in E2;
          [destruct (as_nullable_string _); inversion E1; inversion E2; reflexivity|].
        destruct (UpdateBody.completed b); simpl in E3;
          [destruct (as_bool _); inversion E1; inversion E2; inversion E3;
           reflexivity|].
        destruct (UpdateBody.priority b); simpl in E4;
          [destruct (as_priority _); inversion E1; inversion E2; inversion E3;
           inversion E4; reflexivity|].
        destruct (UpdateBody.categoryId b); simpl in E5;
          [inversion E1; inversion E2; inversion E3; inversion E4; inversion E5;
           reflexivity|].
        destruct (UpdateBody.userId b); simpl in E6;
          inversion E1; inversion E2; inversion E3; inversion E4; inversion E5;
          inversion E6; reflexivity. }
      split; [intros v Hv; rewrite Hv in E1; simpl in E1;
              destruct (as_string v); inversion E1; reflexivity|].
      split; [intros v Hv; rewrite Hv in E2; simpl in E2;
              destruct (as_nullable_string v); inversion E2; reflexivity|].
      split; [intros v Hv; rewrite Hv in E3; simpl in E3;
              destruct (as_bool v); inversion E3; reflexivity|].
      split; [intros v Hv; rewrite Hv in E4; simpl in E4;
              destruct (as_priority v); inversion E4; reflexivity|].
      split.
      * intros v Hv. rewrite Hv in E5. simpl in E5. inversion E5; subst ca.
        simpl in Hc. split; [reflexivity|]. intros z Hz. now rewrite Hz in Hc.
      * intros v Hv. rewrite Hv in E6. simpl in E6. inversion E6; subst us.
        simpl in Hu. split; [reflexivity|]. intros z Hz. now rewrite Hz in Hu.
  - intros k Hk. rewrite Hlook.
    destruct (findUnique db k) as [y|] eqn:F; [|reflexivity]. simpl.
    apply findUnique_Some in F. destruct F as [_ Fy].
    destruct (Todo.id y =? id) eqn:Ey; [|reflexivity].
    apply Z.eqb_eq in Ey. congruence.
Qed.

Lemma X21_update_stores_given_fields_witness :
  let b := UpdateBody.mk (Some (JStr "Write the API documentation")) (Some JNull)
             (Some (JBool true)) (Some (JStr "HIGH")) (Some JNull) None
             [] [] [] [] [] [] in
  let db' := fst (putTodo 2000 "1" b chain_store) in
  (exists t',
      findUnique db' 1 = Some t'
      /\ (Todo.id t' = 1
          /\ Todo.createdAt t'
             = Todo.createdAt (sample_todo 1 "Write API documentation" false LOW)
          /\ Todo.updatedAt t'
             = if gives_field b then 2000
               else Todo.updatedAt (sample_todo 1 "Write API documentation" false LOW))
      /\ (forall v, UpdateBody.title b = Some v ->
                    as_string v = Some (Todo.title t'))
      /\ (forall v, UpdateBody.description b = Some v ->
                    as_nullable_string v = Some (Todo.description t'))
      /\ (forall v, UpdateBody.completed b = Some v ->
                    as_bool v = Some (Todo.completed t'))
      /\ (forall v, UpdateBody.priority b = Some v ->
                    as_priority v = Some (Todo.priority t'))
      /\ (forall v, UpdateBody.categoryId b = Some v ->
                    Todo.categoryId t' = parseInt v
                    /\ forall z, parseInt v = Some z ->
                                 category_exists chain_store z = true)
      /\ (forall v, UpdateBody.userId b = Some v ->
                    Todo.userId t' = parseInt v
                    /\ forall z, parseInt v = Some z ->
                                 user_exists chain_store z = true))
  /\ forall k, k <> 1 -> findUnique db' k = findUnique chain_store k.
Proof.
  apply (X21_update_stores_given_fields 2000 "1" 1
           (UpdateBody.mk (Some (JStr "Write the API documentation")) (Some JNull)
              (Some (JBool true)) (Some (JStr "HIGH")) (Some JNull) None
              [] [] [] [] [] [])
           chain_store (sample_todo 1 "Write API documentation" false LOW));
    reflexivity.
Defined.

(** A body that sets the category to null is carried out: the column is
    cleared and [updatedAt] refreshed; an empty body leaves the row as it
    is and adds its history row. *)
Example update_with_null_category :
  let r := putTodo 2000 "1"
             (UpdateBody.mk None None None None (Some JNull) None [] [] [] [] [] [])
             chain_store in
  status (snd r) = 200
  /\ option_map Todo.categoryId (findUnique (fst r) 1) = Some None
  /\ option_map Todo.updatedAt (findUnique (fst r) 1) = Some 2000.
Proof. repeat split. Qed.

Example update_with_empty_body :
  let r := putTodo 2000 "1" no_update chain_store in
  status (snd r) = 200
  /\ findUnique (fst r) 1 = findUnique chain_store 1
  /\ len (todoHistory (fst r)) = len (todoHistory chain_store) + 1.
Proof. repeat split. Qed.

(** ** Create, then fetch *)

Lemma filter_every {Row} (keep : Row -> bool) (rows : list Row) :
  (forall row, In row rows -> keep row = true) -> filter keep rows = rows.
Proof.
  induction rows as [|row rest IH]; simpl; intros H; [reflexivity|].
  rewrite (H row (or_introl eq_refl)). f_equal. apply IH. auto.
Qed.

Lemma count_distinct_stored {Row} (id_of : Row -> Z) (rows : list Row) (ids : list Z) :
  NoDup (map id_of rows) ->
  NoDup ids ->
  (forall z, In z ids -> In z (map id_of rows)) ->
  length (filter (fun r => includes ids (id_of r)) rows) = length ids.
Proof.
  intros Hrows Hids Hstored.
  rewrite <- (length_map id_of).
  apply Nat.le_antisymm; apply NoDup_incl_length.
  - now apply NoDup_map_filter.
  - intros y Hy. apply in_map_iff in Hy. destruct Hy as [r [<- Hr]].
    apply filter_In in Hr. destruct Hr as [_ Hr]. now apply includes_In.
  - exact Hids.
  - intros z Hz. pose proof (Hstored z Hz) as Hin. apply in_map_iff in Hin.
    destruct Hin as [r [Hr Hin]]. apply in_map_iff. exists r.
    split; [exact Hr|]. apply filter_In. split; [exact Hin|].
    apply includes_In. now rewrite Hr.
Qed.

(** X22: a created todo can be fetched.  In a well-formed store whose
    references are live, after a create that is answered 201 a fetch of the
    new id answers with the todo that the create response shows: its tags
    are the listed tag ids and its dependencies the listed dependencies
    (both in some order, each once), and the stats count one history row,
    one note per listed content, no attachment, and as many dependencies as
    were listed. *)
Theorem X22_created_todo_can_be_fetched now b db idParam :
  well_formed db = true ->
  references_live db = true ->
  status (snd (postTodo now b db)) = 201 ->
  parseInt_string idParam = Some (todos_id_seq db) ->
  exists shown u c n d T D,
    body (snd (postTodo now b db)) = Created shown u c n
    /\ getTodo idParam (fst (postTodo now b db)) = Detail d
    /\ detail_todo d = shown
    /\ Todo.id (view_todo shown) = todos_id_seq db
    /\ parseInts (CreateBody.tagIds b) = Some T
    /\ parseInts (CreateBody.dependencies b) = Some D
    /\ ((forall g, In g (view_tags shown) <-> In g T)
        /\ len (view_tags shown) = len T)
    /\ ((forall x, In x (view_dependencies shown) <-> In x D)
        /\ len (view_dependencies shown) = len D)
    /\ historyCount d = 1
    /\ notesCount d = len (CreateBody.notes b)
    /\ attachmentsCount d = 0
    /\ dependenciesCount d = len D.
Proof.
  intros Hwf Hlive H201 Hparse. apply well_formed_wf in Hwf.
  apply references_live_spec in Hlive.
  destruct Hlive as [Lnotes [Lhist [Latt [Ltags _]]]].
  pose proof (next_id_fresh db Hwf) as Hfresh.
  destruct (postTodo_201 _ _ _ H201)
    as [u [c [n [todo [created [Echk [Etx [Hfind Hresp]]]]]]]].
  remember (fst (postTodo now b db)) as db' eqn:Edb. clear Edb.
  destruct (postTodo_tx_store _ _ _ _ _ Etx)
    as [T [D [added [HT [HD [Hid [Htodos [Htags [[Hnotes [Hcont Hadded]]
         [Hedges [Hhist [_ [_ [_ Hatt]]]]]]]]]]]]]].
  assert (Hcreated : created = todo).
  { unfold findUnique in Hfind. rewrite Htodos, Hid in Hfind.
    rewrite find_app_fresh in Hfind;
      [congruence | exact Hfresh | rewrite Hid; apply Z.eqb_refl]. }
  subst created.
  assert (HDok : NoDup D /\ forall z, In z D -> In z (map Todo.id (todos db))).
  { unfold postTodo_checks in Echk.
    do 4 (apply bind_Ok in Echk; destruct Echk as [? [_ Echk]]).
    apply bind_Ok in Echk. destruct Echk as [[] [Hdeps _]].
    exact (validate_ids_counted Todo.id (todos db) _ _ D (wf_todo_ids db Hwf)
             Hdeps HD). }
  destruct HDok as [HDnd HDstored].
  assert (Hout : forall x, In (todos_id_seq db, x) (todoDependencies db') <-> In x D).
  { intros x. rewrite Hedges. simpl. rewrite Hid. split.
    - intros [Hold|[_ Hx]]; [|exact Hx].
      apply (wf_edges db Hwf) in Hold. destruct Hold as [Hold _]. congruence.
    - intros Hx. right. auto. }
  assert (Hdeps : dependencies_of db' (todos_id_seq db)
                  = filter (fun t => includes D (Todo.id t)) (todos db')).
  { unfold dependencies_of. apply filter_ext. intros t.
    destruct (includes D (Todo.id t)) eqn:E.
    - apply has_edge_In, Hout. now apply includes_In.
    - destruct (has_edge db' (todos_id_seq db) (Todo.id t)) eqn:E'; [|reflexivity].
      apply has_edge_In, Hout, includes_In in E'. congruence. }
  assert (Hids' : NoDup (map Todo.id (todos db'))).
  { rewrite Htodos, map_app. simpl. apply NoDup_snoc; [exact (wf_todo_ids db Hwf)|].
    rewrite Hid. intros Hin. apply in_map_iff in Hin.
    destruct Hin as [t [Ht Hin]]. apply (wf_todo_seq db Hwf) in Hin. lia. }
  exists (view db' todo), (u + 1), (c + 1), (n + 1).
  unfold getTodo. rewrite Hparse, <- Hid, Hfind. eexists. exists T, D.
  split; [now rewrite Hresp|]. split; [reflexivity|].
  cbn [detail_todo view view_todo view_tags view_dependencies historyCount
       notesCount attachmentsCount dependenciesCount].
  split; [reflexivity|]. split; [reflexivity|].
  split; [exact HT|]. split; [exact HD|]. rewrite Hid.
  assert (Hcount : length (filter (fun t => includes D (Todo.id t)) (todos db'))
                   = length D).
  { apply (count_distinct_stored Todo.id (todos db') D Hids' HDnd).
    intros z Hz. rewrite Htodos, map_app. apply in_or_app. left. now apply HDstored. }
  split; [|split; [|split; [|split; [|split]]]].
  - assert (Hjoined : tagIds_of db' (todos_id_seq db) = T).
    { unfold tagIds_of. rewrite Htags, filter_app, map_app.
      rewrite filter_none.
      + simpl. rewrite Hid. clear. induction T as [|g T IH]; simpl; [reflexivity|].
        rewrite Z.eqb_refl. simpl. now rewrite IH.
      + intros r Hr. apply Z.eqb_neq. intros E.
        destruct (Ltags r Hr) as [Hex _]. congruence. }
    rewrite Hjoined. split; [tauto | reflexivity].
  - split.
    + intros x. rewrite Hdeps, in_map_iff. split.
      * intros [t [<- Ht]]. apply filter_In in Ht. destruct Ht as [_ Ht].
        now apply includes_In.
      * intros Hx. pose proof (HDstored x Hx) as Hin. apply in_map_iff in Hin.
        destruct Hin as [t [Ht Hin]]. exists t. split; [exact Ht|].
        apply filter_In. split.
        -- rewrite Htodos. apply in_or_app. now left.
        -- apply includes_In. now rewrite Ht.
    + rewrite Hdeps. unfold len. now rewrite length_map, Hcount.
  - rewrite Hhist, filter_app, filter_none.
    + simpl. rewrite Hid, Z.eqb_refl. reflexivity.
    + intros h Hh. apply Z.eqb_neq. intros E.
      pose proof (Lhist h Hh). congruence.
  - rewrite Hnotes, filter_app, filter_none.
    + simpl. rewrite filter_every.
      * unfold len. f_equal. rewrite <- (length_map as_string), <- Hcont.
        now rewrite length_map.
      * intros k Hk. apply Z.eqb_eq. rewrite <- Hid. now apply Hadded.
    + intros k Hk. apply Z.eqb_neq. intros E.
      pose proof (Lnotes k Hk). congruence.
  - rewrite Hatt, filter_none; [reflexivity|].
    intros a Ha. apply Z.eqb_neq. intros E. pose proof (Latt a Ha). congruence.
  - rewrite Hdeps. unfold len. now rewrite Hcount.
Qed.

Lemma X22_created_todo_can_be_fetched_witness :
  exists shown u c n d T D,
    body (snd (postTodo 2000
                 (CreateBody.mk (Some (JStr "A")) None None None None None
                    [JNum 1; JStr "2"] [JStr "first note"] [JNum 3])
                 chain_store)) = Created shown u c n
    /\ getTodo "4"
         (fst (postTodo 2000
                 (CreateBody.mk (Some (JStr "A")) None None None None None
                    [JNum 1; JStr "2"] [JStr "first note"] [JNum 3])
                 chain_store)) = Detail d
    /\ detail_todo d = shown
    /\ Todo.id (view_todo shown) = todos_id_seq chain_store
    /\ parseInts (CreateBody.tagIds
                    (CreateBody.mk (Some (JStr "A")) None None None None None
                       [JNum 1; JStr "2"] [JStr "first note"] [JNum 3])) = Some T
    /\ parseInts (CreateBody.dependencies
                    (CreateBody.mk (Some (JStr "A")) None None None None None
                       [JNum 1; JStr "2"] [JStr "first note"] [JNum 3])) = Some D
    /\ ((forall g, In g (view_tags shown) <-> In g T)
        /\ len (view_tags shown) = len T)
    /\ ((forall x, In x (view_dependencies shown) <-> In x D)
        /\ len (view_dependencies shown) = len D)
    /\ historyCount d = 1
    /\ notesCount d
       = len (CreateBody.notes
                (CreateBody.mk (Some (JStr "A")) None None None None None
                   [JNum 1; JStr "2"] [JStr "first note"] [JNum 3]))
    /\ attachmentsCount d = 0
    /\ dependenciesCount d = len D.
Proof.
  apply (X22_created_todo_can_be_fetched 2000
           (CreateBody.mk (Some (JStr "A")) None None None None None
              [JNum 1; JStr "2"] [JStr "first note"] [JNum 3])
           chain_store "4");
    reflexivity.
Defined.

(** ** Create, then list *)




(** ** C10: a tag that is already joined is skipped *)






